(** * Audio Downloader front end: state store, formatting, rendering, orchestration

    A shallow embedding of the TypeScript client
    (state.ts, utils.ts, api.ts, ui.ts, main.ts).

    - JavaScript strings are [string]; only concatenation, comparison and
      per-character rewriting are used, so the byte view is enough.
    - JavaScript numbers are [Number]: NaN, the two infinities and the
      finite values as rationals.  Every binary64 value is a rational and the
      operations the client uses on them (comparison, [Math.max], [Math.min],
      [Math.round]) are exact, so a statement over all of [Number] covers
      every value the client can receive.  [busyCount] is an integer counter
      and is kept in [Z].
    - The single mutable [state] object and the page are threaded explicitly
      as a [World]; asynchronous functions are terms of a free monad [Task]
      whose [Await] nodes are the suspension points at [fetch].  [run] runs
      one call alone; [runAmong] runs it while other callbacks of the page
      run at its suspension points.
    - Built-ins of the browser that the code calls but that are not part of
      the repository ([new URL], [String.prototype.trim], the printing of
      non-integer numbers, the serialisation of the player's [src]) are
      fields of the [Platform] class.
    - Of [document.activeElement] the page keeps whether it is one of the
      two selects, an element of the queue section, or anything else.
    - The [trace] of a [World] is ghost state: it records, in order, the
      requests issued, the assignments to the queue section and the calls
      made on the audio element, which is what the properties about
      sequencing and about the player speak of.

    Left out: the static markup of [renderShell], [bootstrap] (its
    [Promise.all] and [setInterval]; one timer tick is [pollTick]), and the
    delegated listeners of the queue section, which only choose which of
    [previewItem], [deleteItem] and [updateQueue] to call. *)

From Stdlib Require Import Bool Ascii String List ZArith QArith Qround Qabs Lia.
From Stdlib Require Import DecimalString.
Import ListNotations.

Local Open Scope string_scope.
Local Open Scope Z_scope.

Set Implicit Arguments.

(* ------------------------------------------------------------------ *)
(** ** Strings *)

Definition dquote : string := String (ascii_of_nat 34) EmptyString.
Definition nl : string := String (ascii_of_nat 10) EmptyString.
(** U+2014 EM DASH, as its three UTF-8 bytes. *)
Definition emdash : string :=
  String (ascii_of_nat 226) (String (ascii_of_nat 128) (String (ascii_of_nat 148) EmptyString)).

(** [name="value"] inside a tag of a template literal. *)
Definition attr (name value : string) : string :=
  name ++ "=" ++ dquote ++ value ++ dquote.

Fixpoint spaces (n : nat) : string :=
  match n with
  | O => EmptyString
  | S k => String " " (spaces k)
  end.

(** A fresh line of a template literal, indented as in the source. *)
Definition line (indent : nat) (s : string) : string := nl ++ spaces indent ++ s.

(** Truthiness of a JavaScript string: non-empty. *)
Definition truthy (s : string) : bool :=
  match s with
  | EmptyString => false
  | String _ _ => true
  end.

(** Truthiness of an optional string ([undefined], [null] and the empty string are falsy). *)
Definition truthy_opt (o : option string) : bool :=
  match o with
  | Some s => truthy s
  | None => false
  end.

(** [s.replace(/c/g, r)] for a one-character pattern. *)
Fixpoint replaceAll (c : ascii) (r : string) (s : string) : string :=
  match s with
  | EmptyString => EmptyString
  | String a rest =>
      if Ascii.eqb a c then r ++ replaceAll c r rest
      else String a (replaceAll c r rest)
  end.

(** [s.replace(c, r)] with a string pattern of one character: the first occurrence only. *)
Fixpoint replaceFirst (c : ascii) (r : string) (s : string) : string :=
  match s with
  | EmptyString => EmptyString
  | String a rest =>
      if Ascii.eqb a c then r ++ rest
      else String a (replaceFirst c r rest)
  end.

Definition lowerAscii (a : ascii) : ascii :=
  let n := nat_of_ascii a in
  if andb (Nat.leb 65 n) (Nat.leb n 90) then ascii_of_nat (n + 32) else a.

(** [s.toLowerCase()] on the ASCII range (host names and the four state
    names are ASCII). *)
Fixpoint toLowerCase (s : string) : string :=
  match s with
  | EmptyString => EmptyString
  | String a rest => String (lowerAscii a) (toLowerCase rest)
  end.

(** [s.startsWith(p)]. *)
Definition startsWith (p s : string) : bool := String.prefix p s.

(** [haystack.includes(needle)]. *)
Fixpoint includes (needle haystack : string) : bool :=
  if String.prefix needle haystack then true
  else match haystack with
       | EmptyString => false
       | String _ rest => includes needle rest
       end.

(** [parts.join(sep)]. *)
Fixpoint join (sep : string) (parts : list string) : string :=
  match parts with
  | [] => EmptyString
  | [x] => x
  | x :: rest => x ++ sep ++ join sep rest
  end.

(* ------------------------------------------------------------------ *)
(** ** Numbers *)

Inductive Number : Type :=
| NaN
| PosInfinity
| NegInfinity
| Finite (q : Q).

Definition num (z : Z) : Number := Finite (inject_Z z).

(** [Math.max(a, b)]: NaN is contagious. *)
Definition Math_max (a b : Number) : Number :=
  match a, b with
  | NaN, _ | _, NaN => NaN
  | PosInfinity, _ | _, PosInfinity => PosInfinity
  | NegInfinity, x | x, NegInfinity => x
  | Finite x, Finite y => if Qle_bool x y then Finite y else Finite x
  end.

(** [Math.min(a, b)]. *)
Definition Math_min (a b : Number) : Number :=
  match a, b with
  | NaN, _ | _, NaN => NaN
  | NegInfinity, _ | _, NegInfinity => NegInfinity
  | PosInfinity, x | x, PosInfinity => x
  | Finite x, Finite y => if Qle_bool x y then Finite x else Finite y
  end.

(** [a >= b]: false as soon as one side is NaN. *)
Definition number_ge (a b : Number) : bool :=
  match a, b with
  | NaN, _ | _, NaN => false
  | PosInfinity, _ => true
  | _, NegInfinity => true
  | NegInfinity, _ => false
  | _, PosInfinity => false
  | Finite x, Finite y => Qle_bool y x
  end.

(** [a < b]. *)
Definition number_lt (a b : Number) : bool :=
  match a, b with
  | NaN, _ | _, NaN => false
  | PosInfinity, _ => false
  | _, NegInfinity => false
  | NegInfinity, _ => true
  | _, PosInfinity => true
  | Finite x, Finite y => negb (Qle_bool y x)
  end.

(** [Math.round(x)]: the nearest integer, a tie going up. *)
Definition Math_round (x : Number) : Number :=
  match x with
  | Finite q => num (Qfloor (q + (1 # 2)))
  | other => other
  end.

Definition isInteger (q : Q) : bool := Qeq_bool q (inject_Z (Qfloor q)).

(** Decimal digits of an integer, with a leading minus sign when negative. *)
Definition decimal (z : Z) : string := NilZero.string_of_int (Z.to_int z).

(* ------------------------------------------------------------------ *)
(** ** Browser built-ins *)

(** What [new URL(value)] exposes to the client. [searchParams] lists the
    query's name/value pairs in order. *)
Record URL : Type := {
  protocol : string;
  hostname : string;
  pathname : string;
  searchParams : list (string * string);
}.

Class Platform : Type := {
  (** [new URL(value)]; [None] when the constructor throws. *)
  URL_parse : string -> option URL;
  (** [String.prototype.trim]. *)
  trim : string -> string;
  (** [Number::toString] on the finite values that are not integers below
      [10^21] in magnitude (shortest round-trip digits, exponent form). *)
  Number_toString_wide : Q -> string;
  (** What the [src] getter of a media element returns once [value] has
      been assigned to it: [value] parsed against the document's base URL and
      serialised, or [value] itself when it does not parse. *)
  src_reflected : string -> string;
}.

(** [url.searchParams.has(name)]. *)
Definition searchParams_has (u : URL) (name : string) : bool :=
  existsb (fun kv => String.eqb (fst kv) name) (searchParams u).

(** String conversion of a number inside a template literal. *)
Definition Number_toString `{Platform} (x : Number) : string :=
  match x with
  | NaN => "NaN"
  | PosInfinity => "Infinity"
  | NegInfinity => "-Infinity"
  | Finite q =>
      if andb (isInteger q) (Z.abs (Qfloor q) <? 10 ^ 21)
      then decimal (Qfloor q)
      else Number_toString_wide q
  end.

(* ------------------------------------------------------------------ *)
(** ** state.ts: the data model *)

Inductive JobState : Type := WAITING | WORKING | COMPLETE | FAILED.

(** The string a [JobState] is at run time. *)
Definition JobState_name (s : JobState) : string :=
  match s with
  | WAITING => "WAITING"
  | WORKING => "WORKING"
  | COMPLETE => "COMPLETE"
  | FAILED => "FAILED"
  end.

(** An optional field ([?:]) and a nullable one are both [option]: the code
    tests them by truthiness or by [typeof]. *)
Record QueueItem : Type := {
  id : string;
  youtube_url : string;
  title : string;
  artist : string;
  thumbnail_url : option string;
  duration : option Number;
  state : JobState;
  progress : option Number;
  error : option string;
}.

Record VersionInfo : Type := {
  current : string;
  latest : option string;
  is_latest : option bool;
  consistency : option string;
  release_url : option string;
}.

Record PreviewResponse : Type := { url : string }.

Definition API_BASE : string := "http://127.0.0.1:47815".

(** [state.preview]. *)
Record Preview : Type := {
  preview_id : string;
  preview_url : string;
}.

(** The type of the exported [state] object. *)
Record ClientState : Type := {
  queue : list QueueItem;
  version : option VersionInfo;
  format : string;
  exportFormat : string;
  dir : string;
  preview : Preview;
  isBusy : bool;
  busyCount : Z;
  busyMessage : string;
  urlError : string;
  isAdding : bool;
}.

(** The initial value of [state]. *)
Definition initialState : ClientState := {|
  queue := [];
  version := None;
  format := "flac";
  exportFormat := "xlsx";
  dir := "";
  preview := {| preview_id := ""; preview_url := "" |};
  isBusy := false;
  busyCount := 0;
  busyMessage := "";
  urlError := "";
  isAdding := false;
|}.

(* ------------------------------------------------------------------ *)
(** ** utils.ts *)

Definition escapeHtml (value : string) : string :=
  replaceAll "'" "&#039;"
    (replaceAll (ascii_of_nat 34) "&quot;"
      (replaceAll ">" "&gt;"
        (replaceAll "<" "&lt;"
          (replaceAll "&" "&amp;" value)))).

Definition stateLabel `{Platform} (st : JobState) (progress : option Number) : string :=
  match st with
  | WAITING => "Pending"
  | WORKING =>
      match progress with
      | Some p =>
          if number_ge p (num 100) then "Saving"
          else Number_toString (Math_round p) ++ "%"
      | None => "0%"
      end
  | COMPLETE => "Finished"
  | FAILED => "Failed"
  end.

Definition badgeContentFor `{Platform}
  (st : JobState) (progress : option Number) (label : string) : string :=
  match st, progress with
  | WORKING, Some p =>
      "<span " ++ attr "class" "badge-fill" ++ " "
        ++ attr "style" ("width: " ++ Number_toString p ++ "%") ++ "></span>"
        ++ "<span " ++ attr "class" "badge-text" ++ ">" ++ label ++ "</span>"
  | _, _ => "<span " ++ attr "class" "badge-text" ++ ">" ++ label ++ "</span>"
  end.

Definition isValidYoutubeUrl `{Platform} (value : string) : bool :=
  match URL_parse value with
  | None => false
  | Some u =>
      if negb (orb (String.eqb (protocol u) "http:") (String.eqb (protocol u) "https:"))
      then false
      else
        let host := toLowerCase (hostname u) in
        if String.eqb host "youtu.be"
        then truthy (replaceFirst "/" "" (pathname u))
        else if orb (String.eqb host "www.youtube.com")
                  (orb (String.eqb host "youtube.com") (String.eqb host "m.youtube.com"))
        then andb (startsWith "/watch" (pathname u)) (searchParams_has u "v")
        else false
  end.

(* ------------------------------------------------------------------ *)
(** ** The page and the observable trace *)

(** An element whose text is assigned together with its [data-active] flag. *)
Record Flagged : Type := {
  textContent : string;
  active : bool;
}.

(** [document.activeElement]: one of the two selects [render] asks about,
    an element inside [#queueSection] (the title or artist field of a card,
    one of its buttons), or anything else, the body included. *)
Inductive Focus : Type :=
| OnFormatSelect
| OnExportFormatSelect
| InQueueSection
| Elsewhere.

(** [document.activeElement] once the children of [#queueSection] have been
    replaced: a focused element of the section is no longer in the document
    and the focus falls back to the body. *)
Definition focusAfterReplace (f : Focus) : Focus :=
  match f with
  | InQueueSection => Elsewhere
  | _ => f
  end.

(** The elements [renderShell] creates and the other functions query.
    [renderShell] runs before any event is bound and creates every queried
    id, so each [querySelector] of a handler finds its element.  [playerSrc]
    is the [src] of [#previewPlayer] as the getter returns it, the empty
    string when the attribute is absent; [narrowViewport] is what
    [matchMedia("(max-width: 980px)")] reports. *)
Record Dom : Type := {
  versionCurrent : string;
  versionLatest : string;
  versionConsistency : Flagged;
  formatSelect : string;
  exportFormatSelect : string;
  activeElement : Focus;
  busyStatus : Flagged;
  urlErrorBox : Flagged;
  urlStatus : Flagged;
  previewStatus : string;
  playerSrc : string;
  extraActionsOpen : bool;
  narrowViewport : bool;
  queueSection : string;
  urlInput : string;
  importInput : string;
}.

Definition File : Type := string.
Definition Blob : Type := string.

(** One request of api.ts: the method and path are fixed by the constructor,
    the arguments are the request body or path parameter. *)
Inductive Request : Type :=
| GetQueue
| GetVersion
| GetDefaultDir
| PostAddQueue (target : string)
| PostUpdateQueue (item : string) (newTitle newArtist : option string)
| DeleteQueueItem (item : string)
| PostClearQueue (mode : string)
| PostDownloadAll (fmt : string)
| PostImportQueue (file : File)
| PostExportQueue (fmt : string)
| GetSample
| GetPreview (item : string).

(** Calls on [#previewPlayer]. *)
Inductive PlayerOp : Type :=
| Pause
| LoadMedia
| Play
| SetSrc (src : string)
| RemoveSrc.

(** What an observer of the page and of the network sees, in order. *)
Inductive Event : Type :=
| Requested (r : Request)
| QueueRendered (html : string)
| Player (op : PlayerOp)
| FileOffered (blob : Blob) (name : string).

Record World : Type := {
  store : ClientState;
  page : Dom;
  trace : list Event;
}.

Definition initialDom : Dom := {|
  versionCurrent := "Current: v0.0.0";
  versionLatest := "Latest: Unknown";
  versionConsistency := {| textContent := ""; active := false |};
  formatSelect := "flac";
  exportFormatSelect := "xlsx";
  activeElement := Elsewhere;
  busyStatus := {| textContent := ""; active := false |};
  urlErrorBox := {| textContent := ""; active := false |};
  urlStatus := {| textContent := ""; active := false |};
  previewStatus := "Idle";
  playerSrc := "";
  extraActionsOpen := false;
  narrowViewport := false;
  queueSection := "";
  urlInput := "";
  importInput := "";
|}.

Definition initialWorld : World :=
  {| store := initialState; page := initialDom; trace := [] |}.

(** *** Field updates *)

Definition with_store (f : ClientState -> ClientState) (w : World) : World :=
  {| store := f (store w); page := page w; trace := trace w |}.
Definition with_page (f : Dom -> Dom) (w : World) : World :=
  {| store := store w; page := f (page w); trace := trace w |}.
Definition emit (e : Event) (w : World) : World :=
  {| store := store w; page := page w; trace := trace w ++ [e] |}.

Definition set_queue (v : list QueueItem) (s : ClientState) : ClientState :=
  {| queue := v; version := version s; format := format s; exportFormat := exportFormat s;
     dir := dir s; preview := preview s; isBusy := isBusy s; busyCount := busyCount s;
     busyMessage := busyMessage s; urlError := urlError s; isAdding := isAdding s |}.
Definition set_version (v : option VersionInfo) (s : ClientState) : ClientState :=
  {| queue := queue s; version := v; format := format s; exportFormat := exportFormat s;
     dir := dir s; preview := preview s; isBusy := isBusy s; busyCount := busyCount s;
     busyMessage := busyMessage s; urlError := urlError s; isAdding := isAdding s |}.
Definition set_format (v : string) (s : ClientState) : ClientState :=
  {| queue := queue s; version := version s; format := v; exportFormat := exportFormat s;
     dir := dir s; preview := preview s; isBusy := isBusy s; busyCount := busyCount s;
     busyMessage := busyMessage s; urlError := urlError s; isAdding := isAdding s |}.
Definition set_exportFormat (v : string) (s : ClientState) : ClientState :=
  {| queue := queue s; version := version s; format := format s; exportFormat := v;
     dir := dir s; preview := preview s; isBusy := isBusy s; busyCount := busyCount s;
     busyMessage := busyMessage s; urlError := urlError s; isAdding := isAdding s |}.
Definition set_dir (v : string) (s : ClientState) : ClientState :=
  {| queue := queue s; version := version s; format := format s; exportFormat := exportFormat s;
     dir := v; preview := preview s; isBusy := isBusy s; busyCount := busyCount s;
     busyMessage := busyMessage s; urlError := urlError s; isAdding := isAdding s |}.
Definition set_preview (v : Preview) (s : ClientState) : ClientState :=
  {| queue := queue s; version := version s; format := format s; exportFormat := exportFormat s;
     dir := dir s; preview := v; isBusy := isBusy s; busyCount := busyCount s;
     busyMessage := busyMessage s; urlError := urlError s; isAdding := isAdding s |}.
Definition set_isBusy (v : bool) (s : ClientState) : ClientState :=
  {| queue := queue s; version := version s; format := format s; exportFormat := exportFormat s;
     dir := dir s; preview := preview s; isBusy := v; busyCount := busyCount s;
     busyMessage := busyMessage s; urlError := urlError s; isAdding := isAdding s |}.
Definition set_busyCount (v : Z) (s : ClientState) : ClientState :=
  {| queue := queue s; version := version s; format := format s; exportFormat := exportFormat s;
     dir := dir s; preview := preview s; isBusy := isBusy s; busyCount := v;
     busyMessage := busyMessage s; urlError := urlError s; isAdding := isAdding s |}.
Definition set_busyMessage (v : string) (s : ClientState) : ClientState :=
  {| queue := queue s; version := version s; format := format s; exportFormat := exportFormat s;
     dir := dir s; preview := preview s; isBusy := isBusy s; busyCount := busyCount s;
     busyMessage := v; urlError := urlError s; isAdding := isAdding s |}.
Definition set_urlError (v : string) (s : ClientState) : ClientState :=
  {| queue := queue s; version := version s; format := format s; exportFormat := exportFormat s;
     dir := dir s; preview := preview s; isBusy := isBusy s; busyCount := busyCount s;
     busyMessage := busyMessage s; urlError := v; isAdding := isAdding s |}.
Definition set_isAdding (v : bool) (s : ClientState) : ClientState :=
  {| queue := queue s; version := version s; format := format s; exportFormat := exportFormat s;
     dir := dir s; preview := preview s; isBusy := isBusy s; busyCount := busyCount s;
     busyMessage := busyMessage s; urlError := urlError s; isAdding := v |}.

Definition set_versionTexts (cur lat : string) (cons : Flagged) (d : Dom) : Dom :=
  {| versionCurrent := cur; versionLatest := lat; versionConsistency := cons;
     formatSelect := formatSelect d; exportFormatSelect := exportFormatSelect d;
     activeElement := activeElement d; busyStatus := busyStatus d;
     urlErrorBox := urlErrorBox d; urlStatus := urlStatus d;
     previewStatus := previewStatus d; playerSrc := playerSrc d;
     extraActionsOpen := extraActionsOpen d; narrowViewport := narrowViewport d;
     queueSection := queueSection d; urlInput := urlInput d; importInput := importInput d |}.
Definition set_selects (fmt exportFmt : string) (d : Dom) : Dom :=
  {| versionCurrent := versionCurrent d; versionLatest := versionLatest d;
     versionConsistency := versionConsistency d;
     formatSelect := fmt; exportFormatSelect := exportFmt;
     activeElement := activeElement d; busyStatus := busyStatus d;
     urlErrorBox := urlErrorBox d; urlStatus := urlStatus d;
     previewStatus := previewStatus d; playerSrc := playerSrc d;
     extraActionsOpen := extraActionsOpen d; narrowViewport := narrowViewport d;
     queueSection := queueSection d; urlInput := urlInput d; importInput := importInput d |}.
Definition set_banners (busy err adding : Flagged) (d : Dom) : Dom :=
  {| versionCurrent := versionCurrent d; versionLatest := versionLatest d;
     versionConsistency := versionConsistency d;
     formatSelect := formatSelect d; exportFormatSelect := exportFormatSelect d;
     activeElement := activeElement d; busyStatus := busy;
     urlErrorBox := err; urlStatus := adding;
     previewStatus := previewStatus d; playerSrc := playerSrc d;
     extraActionsOpen := extraActionsOpen d; narrowViewport := narrowViewport d;
     queueSection := queueSection d; urlInput := urlInput d; importInput := importInput d |}.
Definition set_activeElement (v : Focus) (d : Dom) : Dom :=
  {| versionCurrent := versionCurrent d; versionLatest := versionLatest d;
     versionConsistency := versionConsistency d;
     formatSelect := formatSelect d; exportFormatSelect := exportFormatSelect d;
     activeElement := v; busyStatus := busyStatus d;
     urlErrorBox := urlErrorBox d; urlStatus := urlStatus d;
     previewStatus := previewStatus d; playerSrc := playerSrc d;
     extraActionsOpen := extraActionsOpen d; narrowViewport := narrowViewport d;
     queueSection := queueSection d; urlInput := urlInput d; importInput := importInput d |}.
Definition set_previewStatus (v : string) (d : Dom) : Dom :=
  {| versionCurrent := versionCurrent d; versionLatest := versionLatest d;
     versionConsistency := versionConsistency d;
     formatSelect := formatSelect d; exportFormatSelect := exportFormatSelect d;
     activeElement := activeElement d; busyStatus := busyStatus d;
     urlErrorBox := urlErrorBox d; urlStatus := urlStatus d;
     previewStatus := v; playerSrc := playerSrc d;
     extraActionsOpen := extraActionsOpen d; narrowViewport := narrowViewport d;
     queueSection := queueSection d; urlInput := urlInput d; importInput := importInput d |}.
Definition set_playerSrc (v : string) (d : Dom) : Dom :=
  {| versionCurrent := versionCurrent d; versionLatest := versionLatest d;
     versionConsistency := versionConsistency d;
     formatSelect := formatSelect d; exportFormatSelect := exportFormatSelect d;
     activeElement := activeElement d; busyStatus := busyStatus d;
     urlErrorBox := urlErrorBox d; urlStatus := urlStatus d;
     previewStatus := previewStatus d; playerSrc := v;
     extraActionsOpen := extraActionsOpen d; narrowViewport := narrowViewport d;
     queueSection := queueSection d; urlInput := urlInput d; importInput := importInput d |}.
Definition set_extraActionsOpen (v : bool) (d : Dom) : Dom :=
  {| versionCurrent := versionCurrent d; versionLatest := versionLatest d;
     versionConsistency := versionConsistency d;
     formatSelect := formatSelect d; exportFormatSelect := exportFormatSelect d;
     activeElement := activeElement d; busyStatus := busyStatus d;
     urlErrorBox := urlErrorBox d; urlStatus := urlStatus d;
     previewStatus := previewStatus d; playerSrc := playerSrc d;
     extraActionsOpen := v; narrowViewport := narrowViewport d;
     queueSection := queueSection d; urlInput := urlInput d; importInput := importInput d |}.
Definition set_queueSection (v : string) (d : Dom) : Dom :=
  {| versionCurrent := versionCurrent d; versionLatest := versionLatest d;
     versionConsistency := versionConsistency d;
     formatSelect := formatSelect d; exportFormatSelect := exportFormatSelect d;
     activeElement := activeElement d; busyStatus := busyStatus d;
     urlErrorBox := urlErrorBox d; urlStatus := urlStatus d;
     previewStatus := previewStatus d; playerSrc := playerSrc d;
     extraActionsOpen := extraActionsOpen d; narrowViewport := narrowViewport d;
     queueSection := v; urlInput := urlInput d; importInput := importInput d |}.
Definition set_urlInput (v : string) (d : Dom) : Dom :=
  {| versionCurrent := versionCurrent d; versionLatest := versionLatest d;
     versionConsistency := versionConsistency d;
     formatSelect := formatSelect d; exportFormatSelect := exportFormatSelect d;
     activeElement := activeElement d; busyStatus := busyStatus d;
     urlErrorBox := urlErrorBox d; urlStatus := urlStatus d;
     previewStatus := previewStatus d; playerSrc := playerSrc d;
     extraActionsOpen := extraActionsOpen d; narrowViewport := narrowViewport d;
     queueSection := queueSection d; urlInput := v; importInput := importInput d |}.
Definition set_importInput (v : string) (d : Dom) : Dom :=
  {| versionCurrent := versionCurrent d; versionLatest := versionLatest d;
     versionConsistency := versionConsistency d;
     formatSelect := formatSelect d; exportFormatSelect := exportFormatSelect d;
     activeElement := activeElement d; busyStatus := busyStatus d;
     urlErrorBox := urlErrorBox d; urlStatus := urlStatus d;
     previewStatus := previewStatus d; playerSrc := playerSrc d;
     extraActionsOpen := extraActionsOpen d; narrowViewport := narrowViewport d;
     queueSection := queueSection d; urlInput := urlInput d; importInput := v |}.

(* ------------------------------------------------------------------ *)
(** ** ui.ts *)

(** [nextSrc] of [syncPreviewPlayer]: the stream URL computed from the store. *)
Definition nextSrc (s : ClientState) : string :=
  if truthy (preview_url (preview s)) then API_BASE ++ preview_url (preview s) else "".

(** The text [syncPreviewPlayer] puts in [#previewStatus]. *)
Definition previewStatusText `{Platform} (s : ClientState) : string :=
  if truthy (preview_id (preview s)) then
    let current := find (fun item => String.eqb (id item) (preview_id (preview s))) (queue s) in
    let title := match current with Some item => trim (title item) | None => "" end in
    let artist := match current with Some item => trim (artist item) | None => "" end in
    let label :=
      if orb (truthy title) (truthy artist)
      then join (" " ++ emdash ++ " ") (filter truthy [title; artist])
      else preview_id (preview s) in
    "Now playing: " ++ label
  else "Idle".

(** [player.src] is read through its getter ([playerSrc]); after the
    assignment [player.src = nextSrc] the getter returns [src_reflected
    nextSrc], after [removeAttribute("src")] the empty string. *)
Definition syncPreviewPlayer `{Platform} (autoplay : bool) (w : World) : World :=
  let w := with_page (set_previewStatus (previewStatusText (store w))) w in
  let next := nextSrc (store w) in
  if negb (truthy next) then
    let w := emit (Player Pause) w in
    if truthy (playerSrc (page w)) then
      let w := emit (Player RemoveSrc) (with_page (set_playerSrc "") w) in
      emit (Player LoadMedia) w
    else w
  else if negb (String.eqb (playerSrc (page w)) next) then
    let w := emit (Player (SetSrc next)) (with_page (set_playerSrc (src_reflected next)) w) in
    if andb (truthy next) autoplay then emit (Player Play) w else w
  else if andb (truthy next) autoplay then emit (Player Play) w
  else w.

Definition syncActionsCollapse (w : World) : World :=
  if narrowViewport (page w)
  then with_page (set_extraActionsOpen false) w
  else with_page (set_extraActionsOpen true) w.

(** [progressValue] of one card: the progress clamped to [0, 100], or [null]. *)
Definition progressValue (item : QueueItem) : option Number :=
  match progress item with
  | Some p => Some (Math_min (num 100) (Math_max (num 0) p))
  | None => None
  end.

(** [statusLabel] of one card. *)
Definition statusLabel `{Platform} (item : QueueItem) : string :=
  stateLabel (state item) (progressValue item).

(** [badgeContent] of one card. *)
Definition badgeContent `{Platform} (item : QueueItem) : string :=
  badgeContentFor (state item) (progressValue item) (statusLabel item).

(** The callback of [state.queue.map] in [renderQueue]. *)
Definition renderCard `{Platform} (s : ClientState) (item : QueueItem) : string :=
  let badgeClass := toLowerCase (JobState_name (state item)) in
  let isActive := String.eqb (id item) (preview_id (preview s)) in
  let activeClass := if isActive then " active" else "" in
  let thumbnail :=
    match thumbnail_url item with
    | Some src =>
        if truthy src
        then "<img " ++ attr "src" src ++ " " ++ attr "alt" (escapeHtml (title item)) ++ " />"
        else "<div " ++ attr "class" "thumb-placeholder" ++ "></div>"
    | None => "<div " ++ attr "class" "thumb-placeholder" ++ "></div>"
    end in
  let error :=
    match error item with
    | Some e => if truthy e then attr "title" (escapeHtml e) else ""
    | None => ""
    end in
  line 8 ("<div " ++ attr "class" ("queue-card" ++ activeClass) ++ " "
            ++ attr "data-id" (id item) ++ ">")
  ++ line 10 thumbnail
  ++ line 10 ("<div " ++ attr "class" "queue-info" ++ ">")
  ++ line 12 ("<input " ++ attr "class" "title" ++ " "
                ++ attr "value" (escapeHtml (title item)) ++ " />")
  ++ line 12 ("<input " ++ attr "class" "artist" ++ " "
                ++ attr "value" (escapeHtml (artist item)) ++ " />")
  ++ line 12 ("<div " ++ attr "class" ("badge " ++ badgeClass) ++ " " ++ error ++ ">"
                ++ badgeContent item ++ "</div>")
  ++ line 10 "</div>"
  ++ line 10 ("<div " ++ attr "class" "queue-actions" ++ ">")
  ++ line 12 ("<button " ++ attr "class" "preview" ++ ">Preview</button>")
  ++ line 12 ("<button " ++ attr "class" "delete" ++ ">Remove</button>")
  ++ line 10 "</div>"
  ++ line 8 "</div>"
  ++ line 6 "".

(** The markup [renderQueue] assigns to [#queueSection]. *)
Definition queueHtml `{Platform} (s : ClientState) : string :=
  match queue s with
  | [] => "<div " ++ attr "class" "queue-empty"
            ++ ">Queue is empty. Add a YouTube URL to begin.</div>"
  | items => join "" (map (renderCard s) items)
  end.

(** Assigning [innerHTML] replaces every card: the markup becomes [html],
    and a field or button of the old cards that had the focus loses it. *)
Definition renderQueue `{Platform} (w : World) : World :=
  let html := queueHtml (store w) in
  let replaceChildren d :=
    set_activeElement (focusAfterReplace (activeElement d)) (set_queueSection html d) in
  emit (QueueRendered html) (with_page replaceChildren w).

Definition render `{Platform} (w : World) : World :=
  let s := store w in
  let cur := "Current: " ++ match version s with Some v => current v | None => "v0.0.0" end in
  let lat := "Latest: " ++
    match version s with
    | Some v => match latest v with Some l => l | None => "Unknown" end
    | None => "Unknown"
    end in
  let message :=
    match version s with
    | Some v => match consistency v with Some c => trim c | None => "" end
    | None => ""
    end in
  let cons :=
    if truthy message then {| textContent := message; active := true |}
    else {| textContent := ""; active := false |} in
  let w := with_page (set_versionTexts cur lat cons) w in
  let fmt :=
    match activeElement (page w) with
    | OnFormatSelect => formatSelect (page w)
    | _ => format s
    end in
  let exportFmt :=
    match activeElement (page w) with
    | OnExportFormatSelect => exportFormatSelect (page w)
    | _ => exportFormat s
    end in
  let w := with_page (set_selects fmt exportFmt) w in
  let busy :=
    if isBusy s
    then {| textContent := if truthy (busyMessage s) then busyMessage s else "Loading...";
            active := true |}
    else {| textContent := ""; active := false |} in
  let err := {| textContent := urlError s; active := truthy (urlError s) |} in
  let adding := {| textContent := if isAdding s then "Loading..." else "";
                   active := isAdding s |} in
  let w := with_page (set_banners busy err adding) w in
  renderQueue (syncActionsCollapse (syncPreviewPlayer false w)).

(* ------------------------------------------------------------------ *)
(** ** Asynchronous functions *)

(** The type of [response.json()] (or [response.blob()]) for each request,
    as the casts of api.ts give it. *)
Definition Body (r : Request) : Type :=
  match r with
  | GetQueue => list QueueItem
  | GetVersion => VersionInfo
  | GetDefaultDir => string
  | PostExportQueue _ | GetSample => Blob
  | GetPreview _ => PreviewResponse
  | _ => unit
  end.

(** How the promise of a [fetch] settles: rejected (no HTTP response at
    all) or resolved with a response. *)
Inductive Settled (B : Type) : Type :=
| Rejected
| Resolved (status_ok : bool) (payload : B).
Arguments Rejected {B}.

Record Response (B : Type) : Type := {
  ok : bool;
  json : B;
}.

(** An [async] function body.  [Await] is the one kind of suspension point
    the client has; [Throw] is a rejected promise (the code never inspects
    the error value). *)
Inductive Task (A : Type) : Type :=
| Return (a : A)
| Throw
| Sync (f : World -> World) (k : Task A)
| Read (k : World -> Task A)
| Await (r : Request) (k : Settled (Body r) -> Task A).
Arguments Throw {A}.

Fixpoint bind {A B : Type} (t : Task A) (f : A -> Task B) : Task B :=
  match t with
  | Return a => f a
  | Throw => Throw
  | Sync g k => Sync g (bind k f)
  | Read k => Read (fun w => bind (k w) f)
  | Await r k => Await r (fun o => bind (k o) f)
  end.

Notation "x <- t ;; k" := (bind t (fun x => k))
  (at level 61, t at next level, right associativity).
Notation "t ;; k" := (bind t (fun _ => k))
  (at level 61, right associativity).

(** A synchronous call made from an [async] body. *)
Definition call (f : World -> World) : Task unit := Sync f (Return tt).

(** [try { body } finally { cleanup }] with a synchronous cleanup: it runs
    on normal completion, on an early [return] and on a rejection alike. *)
Fixpoint tryFinally {A : Type} (body : Task A) (cleanup : World -> World) : Task A :=
  match body with
  | Return a => Sync cleanup (Return a)
  | Throw => Sync cleanup Throw
  | Sync g k => Sync g (tryFinally k cleanup)
  | Read k => Read (fun w => tryFinally (k w) cleanup)
  | Await r k => Await r (fun o => tryFinally (k o) cleanup)
  end.

(** [await fetch(...)]. *)
Definition fetch (r : Request) : Task (Response (Body r)) :=
  Await r (fun o =>
    match o with
    | Rejected => Throw
    | Resolved status payload => Return {| ok := status; json := payload |}
    end).

(** The remote side: how the [n]-th request of a run settles. *)
Definition Server : Type := nat -> forall r : Request, Settled (Body r).

Definition isRequest (e : Event) : bool :=
  match e with
  | Requested _ => true
  | _ => false
  end.

Definition requestsSent (w : World) : nat := length (filter isRequest (trace w)).

(** How an [async] call ends. *)
Inductive Outcome (A : Type) : Type :=
| Done (a : A)
| Thrown.
Arguments Thrown {A}.

(** One [async] call run to its end against [srv], with no other callback
    scheduled at its suspension points. *)
Fixpoint run {A : Type} (srv : Server) (t : Task A) (w : World) : Outcome A * World :=
  match t with
  | Return a => (Done a, w)
  | Throw => (Thrown, w)
  | Sync f k => run srv k (f w)
  | Read k => run srv (k w) w
  | Await r k => run srv (k (srv (requestsSent w) r)) (emit (Requested r) w)
  end.

(** What the rest of the page does while a request is pending.  The
    runtime runs one callback at a time, so listeners, timer callbacks and
    the continuations of other pending calls run as whole synchronous
    sections between the moment a request is issued and the moment the
    function awaiting it resumes; [others n] is their combined effect while
    the request issued as number [n] is pending. *)
Definition Interference : Type := nat -> World -> World.

(** Nothing else runs. *)
Definition quiet : Interference := fun _ w => w.

(** One [async] call run to its end against [srv] while [others] run at its
    suspension points. *)
Fixpoint runAmong {A : Type} (others : Interference) (srv : Server) (t : Task A) (w : World)
  : Outcome A * World :=
  match t with
  | Return a => (Done a, w)
  | Throw => (Thrown, w)
  | Sync f k => runAmong others srv k (f w)
  | Read k => runAmong others srv (k w) w
  | Await r k =>
      runAmong others srv (k (srv (requestsSent w) r))
        (others (requestsSent w) (emit (Requested r) w))
  end.

(* ------------------------------------------------------------------ *)
(** ** api.ts *)

Definition fetchQueue : Task (option (list QueueItem)) :=
  response <- fetch GetQueue ;;
  if negb (ok response) then Return None
  else Return (Some (json response)).

Definition fetchVersion : Task (option VersionInfo) :=
  response <- fetch GetVersion ;;
  if negb (ok response) then Return None
  else Return (Some (json response)).

Definition fetchDefaultDir : Task string :=
  response <- fetch GetDefaultDir ;;
  if negb (ok response) then Return ""
  else Return (json response).

Definition postAddQueue (target : string) : Task bool :=
  response <- fetch (PostAddQueue target) ;;
  Return (ok response).

Definition postUpdateQueue (item : string) (newTitle newArtist : option string) : Task unit :=
  fetch (PostUpdateQueue item newTitle newArtist) ;; Return tt.

Definition deleteQueueItem (item : string) : Task unit :=
  fetch (DeleteQueueItem item) ;; Return tt.

Definition postClearQueue (mode : string) : Task unit :=
  fetch (PostClearQueue mode) ;; Return tt.

Definition postDownloadAll (fmt : string) : Task unit :=
  fetch (PostDownloadAll fmt) ;; Return tt.

Definition postImportQueue (file : File) : Task bool :=
  response <- fetch (PostImportQueue file) ;;
  Return (ok response).

Definition postExportQueue (fmt : string) : Task (option Blob) :=
  response <- fetch (PostExportQueue fmt) ;;
  if negb (ok response) then Return None
  else Return (Some (json response)).

Definition fetchSample : Task (option Blob) :=
  response <- fetch GetSample ;;
  if negb (ok response) then Return None
  else Return (Some (json response)).

Definition fetchPreview (item : string) : Task (option PreviewResponse) :=
  response <- fetch (GetPreview item) ;;
  if negb (ok response) then Return None
  else Return (Some (json response)).

(* ------------------------------------------------------------------ *)
(** ** main.ts *)

Definition idlePreview : Preview := {| preview_id := ""; preview_url := "" |}.

(** [loadQueue] after its [await]: a snapshot [q] is stored, and a preview
    whose item is gone from it is reset. *)
Definition loadQueue_apply `{Platform} (q : list QueueItem) (w : World) : World :=
  let w := with_store (set_queue q) w in
  if andb (truthy (preview_id (preview (store w))))
          (negb (existsb (fun item => String.eqb (id item) (preview_id (preview (store w))))
                         (queue (store w))))
  then syncPreviewPlayer false (with_store (set_preview idlePreview) w)
  else w.

Definition loadQueue `{Platform} : Task unit :=
  queue <- fetchQueue ;;
  match queue with
  | None => Return tt
  | Some q => call (loadQueue_apply q)
  end.

Definition loadVersion : Task unit :=
  version <- fetchVersion ;;
  match version with
  | None => Return tt
  | Some v => call (with_store (set_version (Some v)))
  end.

Definition loadDefaultDir : Task unit :=
  d <- fetchDefaultDir ;;
  call (with_store (set_dir d)).

Definition setBusy `{Platform} (active : bool) (message : option string) (w : World) : World :=
  let w :=
    if active then
      let w := with_store (fun s => set_busyCount (busyCount s + 1) s) w in
      let w :=
        match message with
        | Some m => if truthy m then with_store (set_busyMessage m) w else w
        | None => w
        end in
      with_store (set_isBusy true) w
    else
      let w := with_store (fun s => set_busyCount (Z.max 0 (busyCount s - 1)) s) w in
      if busyCount (store w) =? 0
      then with_store (set_busyMessage "") (with_store (set_isBusy false) w)
      else w in
  render w.

Definition triggerDownload (blob : Blob) (name : string) (w : World) : World :=
  emit (FileOffered blob name) w.

Definition addQueue `{Platform} (target : string) : Task unit :=
  call (with_store (set_isAdding true)) ;;
  call render ;;
  call (setBusy true (Some "Fetching video info...")) ;;
  tryFinally
    (ok <- postAddQueue target ;;
     if negb ok then Return tt
     else
       loadQueue ;;
       call renderQueue)
    (fun w => render (with_store (set_isAdding false) (setBusy false None w))).

Definition updateQueue (item : string) (newTitle newArtist : option string) : Task unit :=
  postUpdateQueue item newTitle newArtist.

Definition deleteItem `{Platform} (item : string) : Task unit :=
  deleteQueueItem item ;;
  loadQueue ;;
  call renderQueue.

Definition clearQueue `{Platform} (mode : string) : Task unit :=
  postClearQueue mode ;;
  loadQueue ;;
  call renderQueue.

Definition downloadAll : Task unit :=
  Read (fun w =>
    if negb (truthy (dir (store w))) then Return tt
    else postDownloadAll (format (store w))).

Definition importQueue `{Platform} (file : File) : Task unit :=
  call (setBusy true (Some "Loading items from file (yt-dlp can take a while)...")) ;;
  tryFinally
    (ok <- postImportQueue file ;;
     if negb ok then Return tt
     else
       loadQueue ;;
       call renderQueue)
    (setBusy false None).

Definition exportQueue : Task unit :=
  Read (fun w =>
    blob <- postExportQueue (exportFormat (store w)) ;;
    match blob with
    | None => Return tt
    | Some b =>
        Read (fun w' =>
          call (triggerDownload b ("AudioDownloader_export." ++ exportFormat (store w'))))
    end).

Definition downloadSample : Task unit :=
  blob <- fetchSample ;;
  match blob with
  | None => Return tt
  | Some b => call (triggerDownload b "Sample.xlsx")
  end.

Definition previewItem `{Platform} (item : string) : Task unit :=
  data <- fetchPreview item ;;
  match data with
  | None => Return tt
  | Some d =>
      call (fun w =>
        syncPreviewPlayer true
          (with_store (set_preview {| preview_id := item; preview_url := url d |}) w))
  end.

(** *** The listeners of [bindEvents] *)

Definition invalidUrlMessage : string := "Please enter a valid YouTube URL.".

(** The [click] listener of [#addBtn] ([#urlInput] exists, see [Dom], so the
    guard on it never returns). *)
Definition addBtn_click `{Platform} : Task unit :=
  Read (fun w =>
    let value := trim (urlInput (page w)) in
    if negb (truthy value) then Return tt
    else if negb (isValidYoutubeUrl value) then
      call (with_store (set_urlError invalidUrlMessage)) ;;
      call render
    else
      call (with_store (set_urlError "")) ;;
      addQueue value ;;
      call (with_page (set_urlInput ""))).

(** The [keydown] listener of [#urlInput]; [key] is [event.key]. *)
Definition urlInput_keydown `{Platform} (key : string) : Task unit :=
  if negb (String.eqb key "Enter") then Return tt
  else
    Read (fun w =>
      let value := trim (urlInput (page w)) in
      if negb (truthy value) then Return tt
      else if negb (isValidYoutubeUrl value) then
        call (with_store (set_urlError invalidUrlMessage)) ;;
        call render
      else
        call (with_store (set_urlError "")) ;;
        addQueue value ;;
        call (with_page (set_urlInput ""))).

Definition formatSelect_change (w : World) : World :=
  with_store (set_format (formatSelect (page w))) w.

Definition exportFormatSelect_change (w : World) : World :=
  with_store (set_exportFormat (exportFormatSelect (page w))) w.

(** The [click] listener of [#downloadBtn]. *)
Definition downloadBtn_click : Task unit := downloadAll.

(** The [change] listener of [#importInput]; [files] is [importInput.files]. *)
Definition importInput_change `{Platform} (files : list File) : Task unit :=
  match files with
  | [] => Return tt
  | file :: _ =>
      importQueue file ;;
      call (with_page (set_importInput ""))
  end.

(** One tick of the polling timer. *)
Definition pollTick `{Platform} : Task unit :=
  loadQueue ;;
  call renderQueue.

(* ------------------------------------------------------------------ *)
(** ** A concrete platform for running the model on sample inputs *)

(** [s] cut before its first character satisfying [stop]. *)
Fixpoint splitBefore (stop : ascii -> bool) (s : string) : string * string :=
  match s with
  | EmptyString => (EmptyString, EmptyString)
  | String a rest =>
      if stop a then (EmptyString, s)
      else let (l, r) := splitBefore stop rest in (String a l, r)
  end.

Definition isAlpha (a : ascii) : bool :=
  let n := nat_of_ascii (lowerAscii a) in andb (Nat.leb 97 n) (Nat.leb n 122).

Definition isSchemeChar (a : ascii) : bool :=
  let n := nat_of_ascii a in
  orb (isAlpha a)
    (orb (andb (Nat.leb 48 n) (Nat.leb n 57))
         (orb (Ascii.eqb a "+") (orb (Ascii.eqb a "-") (Ascii.eqb a ".")))).

Definition isWhitespace (a : ascii) : bool :=
  let n := nat_of_ascii a in
  orb (Nat.eqb n 32) (andb (Nat.leb 9 n) (Nat.leb n 13)).

Definition tail (s : string) : string :=
  match s with
  | EmptyString => EmptyString
  | String _ rest => rest
  end.

(** The pieces of [s] between occurrences of [sep]. *)
Fixpoint splitOn (sep : ascii) (s : string) : list string :=
  match s with
  | EmptyString => [EmptyString]
  | String a rest =>
      if Ascii.eqb a sep then EmptyString :: splitOn sep rest
      else match splitOn sep rest with
           | [] => [String a EmptyString]
           | piece :: more => String a piece :: more
           end
  end.

(** [name=value] pairs of a query string (without its question mark). *)
Definition samplePairs (query : string) : list (string * string) :=
  map (fun piece => let (k, v) := splitBefore (Ascii.eqb "=") piece in (k, tail v))
      (filter truthy (splitOn "&" query)).

(** URLs of the plain shape [scheme://host/path?query#fragment]; everything
    else is refused.  On that shape it agrees with the URL standard for
    ASCII hosts and paths without dot segments. *)
Definition sampleParse (value : string) : option URL :=
  match value with
  | EmptyString => None
  | String first _ =>
      if negb (isAlpha first) then None
      else
        let (scheme, afterScheme) := splitBefore (fun a => negb (isSchemeChar a)) value in
        match afterScheme with
        | String ":" (String "/" (String "/" rest)) =>
            let stopHost a := orb (Ascii.eqb a "/") (orb (Ascii.eqb a "?") (Ascii.eqb a "#")) in
            let (host, afterHost) := splitBefore stopHost rest in
            let (path, afterPath) :=
              splitBefore (fun a => orb (Ascii.eqb a "?") (Ascii.eqb a "#")) afterHost in
            let (query, _) := splitBefore (Ascii.eqb "#") afterPath in
            if negb (truthy host) then None
            else Some {| protocol := toLowerCase scheme ++ ":";
                         hostname := toLowerCase host;
                         pathname := if truthy path then path else "/";
                         searchParams := samplePairs (tail query) |}
        | _ => None
        end
  end.

Fixpoint dropWhile (p : ascii -> bool) (s : string) : string :=
  match s with
  | EmptyString => EmptyString
  | String a rest => if p a then dropWhile p rest else s
  end.

Fixpoint reverse (s : string) : string :=
  match s with
  | EmptyString => EmptyString
  | String a rest => reverse rest ++ String a EmptyString
  end.

(** [trim] on ASCII white space. *)
Definition sampleTrim (s : string) : string :=
  reverse (dropWhile isWhitespace (reverse (dropWhile isWhitespace s))).

(** The first [n] digits after the decimal point of a fraction [r] in [[0, 1)]. *)
Fixpoint fractionDigits (n : nat) (r : Q) : string :=
  match n with
  | O => EmptyString
  | S k =>
      if Qeq_bool r 0 then EmptyString
      else
        let d := Qfloor (r * 10) in
        decimal d ++ fractionDigits k (r * 10 - inject_Z d)
  end.

(** Plain decimal notation with at most 17 fractional digits. *)
Definition sampleWide (q : Q) : string :=
  let a := Qabs q in
  (if Qle_bool 0 q then "" else "-")
    ++ decimal (Qfloor a) ++ "." ++ fractionDigits 17 (a - inject_Z (Qfloor a)).

(** The serialisation of an absolute URL as far as spaces go: each space
    is written [%20]. *)
Definition sampleReflected (value : string) : string := replaceAll " " "%20" value.

Definition samplePlatform : Platform := {|
  URL_parse := sampleParse;
  trim := sampleTrim;
  Number_toString_wide := sampleWide;
  src_reflected := sampleReflected;
|}.

(** A WORKING job at 42.6 percent. *)
Definition sampleJob : QueueItem := {|
  id := "a1";
  youtube_url := "https://youtu.be/abc123";
  title := "Title";
  artist := "Artist";
  thumbnail_url := None;
  duration := None;
  state := WORKING;
  progress := Some (Finite (426 # 10));
  error := None;
|}.

(** A WORKING job whose progress has not been reported yet. *)
Definition startingJob : QueueItem := {|
  id := "b2";
  youtube_url := "https://youtu.be/def456";
  title := "Title";
  artist := "Artist";
  thumbnail_url := None;
  duration := None;
  state := WORKING;
  progress := None;
  error := None;
|}.

(** A page previewing [sampleJob]. *)
Definition previewingWorld : World :=
  with_page (set_playerSrc (API_BASE ++ "/preview/a1"))
    (with_store (set_preview {| preview_id := "a1"; preview_url := "/preview/a1" |})
       (with_store (set_queue [sampleJob]) initialWorld)).

(** A page about to preview [sampleJob] from a stream path with a space in
    it. *)
Definition spacedWorld : World :=
  with_store (set_preview {| preview_id := "a1"; preview_url := "/preview/a b" |})
    (with_store (set_queue [sampleJob]) initialWorld).

(** The URL field as the user has filled it in. *)
Definition typedWorld : World :=
  with_page (set_urlInput "https://youtu.be/abc123") initialWorld.

(* ------------------------------------------------------------------ *)
(** ** Vocabulary of the properties *)

(** The two pieces of markup a badge is made of. *)
Definition fillSpan `{Platform} (width : Number) : string :=
  "<span " ++ attr "class" "badge-fill" ++ " "
    ++ attr "style" ("width: " ++ Number_toString width ++ "%") ++ "></span>".

Definition textSpan (label : string) : string :=
  "<span " ++ attr "class" "badge-text" ++ ">" ++ label ++ "</span>".

(** [x] occurs in [s]. *)
Definition Contains (x s : string) : Prop :=
  exists before after, s = before ++ x ++ after.

(** The badge element of a card, as [renderCard] writes it: the [div]
    whose content is [badgeContent]. *)
Definition badgeElement `{Platform} (item : QueueItem) : string :=
  "<div " ++ attr "class" ("badge " ++ toLowerCase (JobState_name (state item))) ++ " "
    ++ match error item with
       | Some e => if truthy e then attr "title" (escapeHtml e) else ""
       | None => ""
       end
    ++ ">" ++ badgeContent item ++ "</div>".

(** The claim that every WORKING item of the rendered queue list carries a
    fill element, whatever its progress. *)
Definition everyWorkingItemHasFill `{Platform} : Prop :=
  forall (w : World) (item : QueueItem),
    In item (queue (store w)) ->
    state item = WORKING ->
    exists width, Contains (fillSpan width) (queueSection (page (renderQueue w))).

(** The three fields only [setBusy] writes. *)
Definition busyFields (s : ClientState) : Z * bool * string :=
  (busyCount s, isBusy s, busyMessage s).

(** One synchronous section of the page's life as the busy counter sees it:
    [Begin message] is [setBusy(true, message)], [Finish] is
    [setBusy(false)], [Other f] is any other code run in between. *)
Inductive Step : Type :=
| Begin (message : option string)
| Finish
| Other (f : World -> World).

Definition applyStep `{Platform} (c : Step) (w : World) : World :=
  match c with
  | Begin message => setBusy true message w
  | Finish => setBusy false None w
  | Other f => f w
  end.

(** The steps of [cs] taken one after the other, in list order. *)
Definition applySteps `{Platform} (cs : list Step) (w : World) : World :=
  fold_left (fun w c => applyStep c w) cs w.

(** Code other than [setBusy] leaves the busy fields alone. *)
Definition framed (c : Step) : Prop :=
  match c with
  | Other f => forall w, busyFields (store (f w)) = busyFields (store w)
  | _ => True
  end.

Definition isCall (c : Step) : bool :=
  match c with
  | Other _ => false
  | _ => true
  end.

(** The calls of [setBusy] among the steps, in order. *)
Definition setBusyCalls (cs : list Step) : list Step := filter isCall cs.

Definition weight (c : Step) : Z :=
  match c with
  | Begin _ => 1
  | Finish => -1
  | Other _ => 0
  end.

(** Calls begun and not yet finished. *)
Fixpoint outstanding (cs : list Step) : Z :=
  match cs with
  | [] => 0
  | c :: rest => weight c + outstanding rest
  end.

(** Every [Finish] of [cs] answers an earlier [Begin]. *)
Definition Matched (cs : list Step) : Prop :=
  forall k : nat, 0 <= outstanding (firstn k cs).

(** No blocking operation in flight. *)
Definition idle (s : ClientState) : Prop :=
  busyCount s = 0 /\ isBusy s = false /\ busyMessage s = "".

(** What holds of the three busy fields between any two calls. *)
Definition busyInvariant (s : ClientState) : Prop :=
  0 <= busyCount s
  /\ isBusy s = (0 <? busyCount s)
  /\ (busyCount s = 0 -> busyMessage s = "").

(** The calls of [n] operations all started before any of them completes. *)
Definition overlapping (messages : list (option string)) : list Step :=
  map Begin messages ++ repeat Finish (length messages).

(** Whether the previewed item is missing from a snapshot. *)
Definition previewGone (q : list QueueItem) (s : ClientState) : bool :=
  andb (truthy (preview_id (preview s)))
       (negb (existsb (fun item => String.eqb (id item) (preview_id (preview s))) q)).

(** The request numbered [n] is [r] and gets a response of the given status. *)
Definition answered (srv : Server) (n : nat) (r : Request) (status : bool) : Prop :=
  exists payload, srv n r = Resolved status payload.

(** The calls [syncPreviewPlayer] makes on the player, given the computed
    stream URL [next] and the player's current [src]. *)
Definition playerOps (autoplay : bool) (next current : string) : list PlayerOp :=
  if negb (truthy next) then
    Pause :: (if truthy current then [RemoveSrc; LoadMedia] else [])
  else if negb (String.eqb current next) then
    SetSrc next :: (if autoplay then [Play] else [])
  else if autoplay then [Play] else [].

(** What the getter of the player's [src] returns after
    [syncPreviewPlayer], given the computed stream URL [next] and what the
    getter returned before. *)
Definition srcAfterSync `{Platform} (next current : string) : string :=
  if andb (truthy next) (negb (String.eqb current next)) then src_reflected next else next.

(** Requests and re-renders of the queue section, the events the mutation
    sequencing contract speaks of. *)
Definition protocolEvent (e : Event) : bool :=
  match e with
  | Requested _ | QueueRendered _ => true
  | _ => false
  end.

Definition protocolTrace (w : World) : list Event := filter protocolEvent (trace w).

(** The sequencing contract for one action, whatever status the mutation
    reports: the mutation request, then the queue refetch, then a re-render
    of the queue section, next to each other in the protocol trace. *)
Definition refetchesAfter `{Platform} (action : Task unit) (mutation : Request) : Prop :=
  forall (srv : Server) (w : World) (status refetched : bool),
    answered srv (requestsSent w) mutation status ->
    answered srv (S (requestsSent w)) GetQueue refetched ->
    exists before html after,
      protocolTrace (snd (run srv action w))
      = (protocolTrace w ++ before
          ++ [Requested mutation; Requested GetQueue; QueueRendered html] ++ after)%list.

(** The body of the [try] block shared by [addQueue] and [importQueue],
    over the request function [post]. *)
Definition guardedRefetch `{Platform} (post : Task bool) : Task unit :=
  ok <- post ;;
  if negb ok then Return tt
  else
    loadQueue ;;
    call renderQueue.

(** [post] issues the request [r] and returns the status of its response. *)
Definition reportsStatus (post : Task bool) (r : Request) : Prop :=
  forall (srv : Server) (w : World) (status : bool),
    answered srv (requestsSent w) r status ->
    run srv post w = (Done status, emit (Requested r) w).

(** Nothing but re-renders of the queue section. *)
Definition rendersOnly (events : list Event) : Prop :=
  Forall (fun e => exists html, e = QueueRendered html) events.

(** A payload of the right type for each request, with nothing in it. *)
Definition emptyBody (r : Request) : Body r :=
  match r return Body r with
  | GetQueue => []
  | GetVersion =>
      {| current := ""; latest := None; is_latest := None;
         consistency := None; release_url := None |}
  | GetDefaultDir => ""
  | PostExportQueue _ => ""
  | GetSample => ""
  | GetPreview _ => {| url := "" |}
  | PostAddQueue _ => tt
  | PostUpdateQueue _ _ _ => tt
  | DeleteQueueItem _ => tt
  | PostClearQueue _ => tt
  | PostDownloadAll _ => tt
  | PostImportQueue _ => tt
  end.

(** A back end that answers every request with a non-success status. *)
Definition refusingServer : Server := fun _ r => Resolved false (emptyBody r).

(** A back end that answers every request with success and an empty payload. *)
Definition acceptingServer : Server := fun _ r => Resolved true (emptyBody r).

(** Whether the character [c] occurs in [s]. *)
Fixpoint occurs (c : ascii) (s : string) : bool :=
  match s with
  | EmptyString => false
  | String a rest => orb (Ascii.eqb a c) (occurs c rest)
  end.

(** What [escapeHtml] makes of one character. *)
Definition escapeChar (a : ascii) : string :=
  if Ascii.eqb a "&" then "&amp;"
  else if Ascii.eqb a "<" then "&lt;"
  else if Ascii.eqb a ">" then "&gt;"
  else if Ascii.eqb a (ascii_of_nat 34) then "&quot;"
  else if Ascii.eqb a "'" then "&#039;"
  else String a EmptyString.

(** One of the five characters [escapeHtml] rewrites. *)
Definition isMarkupChar (a : ascii) : bool :=
  orb (Ascii.eqb a "&")
    (orb (Ascii.eqb a "<")
      (orb (Ascii.eqb a ">")
        (orb (Ascii.eqb a (ascii_of_nat 34)) (Ascii.eqb a "'")))).

(** No character of [s] is one of the five. *)
Fixpoint plainText (s : string) : bool :=
  match s with
  | EmptyString => true
  | String a rest => andb (negb (isMarkupChar a)) (plainText rest)
  end.

(** The page [render] leaves behind, read off its assignments: every text,
    flag and value it writes is a function of the store, the two selects
    keep their value while focused, the player's source is what its getter
    returns after the assignment (when one is made), a focus inside the
    queue section is lost, and the field values and the viewport are not
    written. *)
Definition renderedPage `{Platform} (s : ClientState) (d : Dom) : Dom := {|
  versionCurrent :=
    "Current: " ++ match version s with Some v => current v | None => "v0.0.0" end;
  versionLatest :=
    "Latest: " ++ match version s with
                  | Some v => match latest v with Some l => l | None => "Unknown" end
                  | None => "Unknown"
                  end;
  versionConsistency :=
    (let message := match version s with
                    | Some v => match consistency v with Some c => trim c | None => "" end
                    | None => ""
                    end in
     if truthy message then {| textContent := message; active := true |}
     else {| textContent := ""; active := false |});
  formatSelect :=
    match activeElement d with OnFormatSelect => formatSelect d | _ => format s end;
  exportFormatSelect :=
    match activeElement d with
    | OnExportFormatSelect => exportFormatSelect d
    | _ => exportFormat s
    end;
  activeElement := focusAfterReplace (activeElement d);
  busyStatus :=
    (if isBusy s
     then {| textContent := if truthy (busyMessage s) then busyMessage s else "Loading...";
             active := true |}
     else {| textContent := ""; active := false |});
  urlErrorBox := {| textContent := urlError s; active := truthy (urlError s) |};
  urlStatus := {| textContent := if isAdding s then "Loading..." else "";
                  active := isAdding s |};
  previewStatus := previewStatusText s;
  playerSrc := srcAfterSync (nextSrc s) (playerSrc d);
  extraActionsOpen := negb (narrowViewport d);
  narrowViewport := narrowViewport d;
  queueSection := queueHtml s;
  urlInput := urlInput d;
  importInput := importInput d;
|}.

(** The label of the status line for a previewed item whose trimmed title
    and artist are [t] and [a]. *)
Definition playingLabel (t a fallback : string) : string :=
  if truthy t then (if truthy a then t ++ " " ++ emdash ++ " " ++ a else t)
  else if truthy a then a else fallback.

(** The fields of the store that belong to the user's form and to start-up:
    nothing but their own listener or loader writes them. *)
Definition formFields (s : ClientState)
  : string * string * string * option VersionInfo * string * bool :=
  (format s, exportFormat s, dir s, version s, urlError s, isAdding s).

(** A back end that cannot be reached: every [fetch] rejects. *)
Definition unreachableServer : Server := fun _ _ => Rejected.

(** A flag that is off, with no text. *)
Definition hidden : Flagged := {| textContent := ""; active := false |}.

(** The elements of the page the user types in or reads outside the queue
    list and the player. *)
Definition formControls (d : Dom)
  : string * string * string * string * Flagged * Flagged * Flagged :=
  (urlInput d, importInput d, formatSelect d, exportFormatSelect d,
   busyStatus d, urlErrorBox d, urlStatus d).

(** Every synchronous section of [t] keeps [I]. *)
Fixpoint preserves {A : Type} (I : World -> Prop) (t : Task A) : Prop :=
  match t with
  | Return _ => True
  | Throw => True
  | Sync f k => (forall w, I w -> I (f w)) /\ preserves I k
  | Read k => forall w, preserves I (k w)
  | Await r k => forall o, preserves I (k o)
  end.

(** The other code never changes what [proj] reads of the world. *)
Definition leaves {X : Type} (proj : World -> X) (others : Interference) : Prop :=
  forall n v, proj (others n v) = proj v.

(** The other code keeps the busy fields consistent: it goes through
    [setBusy] only. *)
Definition keepsBusyInvariant (others : Interference) : Prop :=
  forall n v, busyInvariant (store v) -> busyInvariant (store (others n v)).

(** The other code, while one request is pending, ends every blocking
    operation it begins and no other: it leaves as many in flight as it
    found. *)
Definition finishesWhatItBegins (others : Interference) : Prop :=
  forall n v,
    busyInvariant (store v) ->
    busyInvariant (store (others n v))
    /\ busyCount (store (others n v)) = busyCount (store v).

(** An import started by the user while the first request is pending, and
    still waiting for its own answer. *)
Definition importBegins `{Platform} : Interference :=
  fun n w =>
    if Nat.eqb n 0
    then emit (Requested (PostImportQueue "queue.csv"))
           (setBusy true (Some "Loading items from file (yt-dlp can take a while)...") w)
    else w.

(** The statements of [addQueue] before its [try] block, and those of its
    [finally] block. *)
Definition addQueue_start `{Platform} (w : World) : World :=
  setBusy true (Some "Fetching video info...") (render (with_store (set_isAdding true) w)).

Definition addQueue_cleanup `{Platform} (w : World) : World :=
  render (with_store (set_isAdding false) (setBusy false None w)).

(* ------------------------------------------------------------------ *)
(** * Properties *)

Unset Implicit Arguments.

(** ** Truthiness *)

Lemma truthy_true (s : string) : truthy s = true <-> s <> "".
Proof.
  destruct s; simpl; split; intros H; congruence.
Qed.

Lemma truthy_false (s : string) : truthy s = false <-> s = "".
Proof.
  destruct s; simpl; split; intros H; congruence.
Qed.

(** ** Numbers and labels *)

Lemma Qle_bool_false (x y : Q) : Qle_bool x y = false -> (y < x)%Q.
Proof.
  intros H. apply Qnot_le_lt. intros L.
  apply Qle_bool_iff in L. congruence.
Qed.

(** The two ways of writing the clamp pick the same value. *)
Lemma clamp_either_order (p : Number) :
  Math_min (num 100) (Math_max (num 0) p) = Math_max (num 0) (Math_min (num 100) p).
Proof.
  destruct p as [ | | | q]; try reflexivity.
  unfold Math_max, Math_min, num.
  destruct (Qle_bool (inject_Z 0) q) eqn:L0, (Qle_bool (inject_Z 100) q) eqn:L100;
    try rewrite L0; try reflexivity.
  (* the one case left is impossible: q < 0 and 100 <= q *)
  exfalso. apply Qle_bool_false in L0. apply Qle_bool_iff in L100.
  assert (inject_Z 100 < inject_Z 0)%Q as C by (eapply Qle_lt_trans; eassumption).
  revert C. unfold Qlt. simpl. lia.
Qed.

(** A clamped finite progress lies in [[0, 100]]. *)
Lemma clamp_finite (q : Q) :
  exists c : Q,
    Math_min (num 100) (Math_max (num 0) (Finite q)) = Finite c
    /\ (inject_Z 0 <= c)%Q /\ (c <= inject_Z 100)%Q.
Proof.
  unfold Math_max, Math_min, num.
  destruct (Qle_bool (inject_Z 0) q) eqn:L0.
  - destruct (Qle_bool (inject_Z 100) q) eqn:L100.
    + exists (inject_Z 100). repeat split; try apply Qle_refl.
      unfold Qle. simpl. lia.
    + exists q. repeat split.
      * now apply Qle_bool_iff.
      * apply Qlt_le_weak. now apply Qle_bool_false.
  - exists (inject_Z 0). repeat split; try apply Qle_refl.
    unfold Qle. simpl. lia.
Qed.

Lemma number_lt_not_ge (a b : Number) : number_lt a b = true -> number_ge a b = false.
Proof.
  destruct a, b; simpl; try congruence.
  intros H. now apply negb_true_iff in H.
Qed.

Lemma isInteger_inject_Z (z : Z) : isInteger (inject_Z z) = true.
Proof.
  unfold isInteger. rewrite Qfloor_Z. apply Qeq_bool_iff. reflexivity.
Qed.

Section Formatting.
Context {P : Platform}.

(** Integers of ordinary size print as their decimal digits. *)
Lemma Number_toString_integer (z : Z) :
  Z.abs z < 10 ^ 21 -> Number_toString (num z) = decimal z.
Proof.
  intros B. unfold Number_toString, num.
  rewrite isInteger_inject_Z, Qfloor_Z.
  apply Z.ltb_lt in B. rewrite B. reflexivity.
Qed.

(** Rounding a value of [[0, 100]] gives an integer of [[0, 100]]. *)
Lemma round_in_range (c : Q) :
  (inject_Z 0 <= c)%Q -> (c <= inject_Z 100)%Q ->
  0 <= Qfloor (c + (1 # 2)) <= 100.
Proof.
  intros L U. split.
  - rewrite <- (Qfloor_Z 0). apply Qfloor_resp_le.
    apply Qle_trans with c; [exact L|].
    rewrite <- (Qplus_0_r c) at 1. apply Qplus_le_r. discriminate.
  - assert (Qfloor (c + (1 # 2)) <= Qfloor (inject_Z 100 + (1 # 2))) as H.
    { apply Qfloor_resp_le. apply Qplus_le_l. exact U. }
    exact H.
Qed.

(** The label of a WORKING card whose clamped progress is below 100. *)
Lemma working_label_below_100 (p c : Number) :
  Math_min (num 100) (Math_max (num 0) p) = c ->
  number_lt c (num 100) = true ->
  exists n : Z,
    0 <= n <= 100 /\ Math_round c = num n
    /\ stateLabel WORKING (Some c) = decimal n ++ "%".
Proof.
  intros Hc Hlt.
  assert (exists q, c = Finite q /\ (inject_Z 0 <= q)%Q /\ (q <= inject_Z 100)%Q)
    as (q & -> & L & U).
  { destruct p as [ | | | q].
    - subst c. discriminate.
    - subst c. discriminate.
    - subst c. exists (inject_Z 0). repeat split; try apply Qle_refl.
      unfold Qle. simpl. lia.
    - destruct (clamp_finite q) as (c' & E & L & U).
      rewrite E in Hc. subst c. eauto. }
  pose proof (round_in_range q L U) as R.
  exists (Qfloor (q + (1 # 2))). split; [exact R|]. split; [reflexivity|].
  unfold stateLabel. rewrite (number_lt_not_ge _ _ Hlt).
  unfold Math_round. rewrite Number_toString_integer; [reflexivity|].
  apply Z.abs_lt. split; [|apply Z.le_lt_trans with 100]; lia.
Qed.

End Formatting.

Section Labels.
Context {P : Platform}.

(** C3.  The status label of a card is a function of its state and its
    clamped progress alone: WAITING gives "Pending", COMPLETE "Finished",
    FAILED "Failed"; WORKING gives "0%" without progress, "Saving" when the
    clamped progress is at least 100 (as for 137), and otherwise the clamped
    progress rounded to the nearest integer, an integer of [0, 100], followed
    by "%" (as "43%" for 42.6). *)
Theorem status_label_mapping (item : QueueItem) :
  (state item = WAITING -> statusLabel item = "Pending")
  /\ (state item = COMPLETE -> statusLabel item = "Finished")
  /\ (state item = FAILED -> statusLabel item = "Failed")
  /\ (state item = WORKING -> progress item = None -> statusLabel item = "0%")
  /\ (forall c, state item = WORKING -> progressValue item = Some c ->
        number_ge c (num 100) = true -> statusLabel item = "Saving")
  /\ (forall c, state item = WORKING -> progressValue item = Some c ->
        number_lt c (num 100) = true ->
        statusLabel item = Number_toString (Math_round c) ++ "%"
        /\ exists n : Z, 0 <= n <= 100 /\ Math_round c = num n
                         /\ statusLabel item = decimal n ++ "%")
  /\ (state item = WORKING -> progress item = Some (num 137) ->
        statusLabel item = "Saving")
  /\ (state item = WORKING -> progress item = Some (Finite (426 # 10)) ->
        statusLabel item = "43%")
  /\ (forall other, state other = state item ->
        progressValue other = progressValue item ->
        statusLabel other = statusLabel item).
Proof.
  unfold statusLabel.
  repeat apply conj.
  - intros ->. reflexivity.
  - intros ->. reflexivity.
  - intros ->. reflexivity.
  - intros -> E. unfold progressValue. rewrite E. reflexivity.
  - intros c -> -> G. simpl. rewrite G. reflexivity.
  - intros c Hs E L.
    assert (stateLabel (state item) (progressValue item) = stateLabel WORKING (Some c))
      as -> by (rewrite Hs, E; reflexivity).
    unfold progressValue in E. destruct (progress item) as [p|]; [|discriminate].
    injection E as E.
    destruct (working_label_below_100 p c E L) as (n & R & Hr & Hl).
    split.
    + simpl. rewrite (number_lt_not_ge _ _ L). reflexivity.
    + exists n. auto.
  - intros -> E. unfold progressValue. rewrite E. reflexivity.
  - intros -> E. unfold progressValue. rewrite E. reflexivity.
  - intros other -> ->. reflexivity.
Qed.

End Labels.

(** ** Pieces of markup *)

Lemma append_assoc (a b c : string) : (a ++ b) ++ c = a ++ b ++ c.
Proof.
  induction a as [|x a IH]; simpl; [reflexivity|]. now rewrite IH.
Qed.

Lemma append_nil_r (a : string) : a ++ "" = a.
Proof.
  induction a as [|x a IH]; simpl; [reflexivity|]. now rewrite IH.
Qed.

Lemma contains_here (x a : string) : Contains x (x ++ a).
Proof. exists "", a. reflexivity. Qed.

Lemma contains_after (x p s : string) : Contains x s -> Contains x (p ++ s).
Proof.
  intros (b & a & ->). exists (p ++ b), a. now rewrite append_assoc.
Qed.

Lemma contains_before (x s a : string) : Contains x s -> Contains x (s ++ a).
Proof.
  intros (b & a' & ->). exists b, (a' ++ a). now rewrite !append_assoc.
Qed.

Lemma contains_trans (x y z : string) : Contains x y -> Contains y z -> Contains x z.
Proof.
  intros (b & a & ->) (b' & a' & ->).
  exists (b' ++ b), (a ++ a'). now rewrite !append_assoc.
Qed.

(** A piece of a joined list is a piece of the whole. *)
Lemma join_contains {A : Type} (f : A -> string) (x : A) (l : list A) :
  In x l -> Contains (f x) (join "" (map f l)).
Proof.
  induction l as [|y l IH]; intros I; [contradiction|].
  destruct I as [-> | I].
  - destruct l as [|z l].
    + exists "", "". simpl. now rewrite append_nil_r.
    + apply contains_here.
  - destruct l as [|z l]; [contradiction|].
    change (join "" (map f (y :: z :: l))) with (f y ++ "" ++ join "" (map f (z :: l))).
    do 2 apply contains_after. apply IH. exact I.
Qed.

(** ** Rendering reads the store *)

Lemma prefix_append (x a : string) : String.prefix x (x ++ a) = true.
Proof.
  induction x as [|c x IH]; simpl; [destruct a; reflexivity|].
  destruct (ascii_dec c c) as [_ | N]; [exact IH | contradiction].
Qed.

Lemma includes_prefix (x s : string) : String.prefix x s = true -> includes x s = true.
Proof.
  intros H. destruct s; cbn [includes]; rewrite H; reflexivity.
Qed.

(** What occurs in a string is found by [includes]. *)
Lemma contains_includes (x s : string) : Contains x s -> includes x s = true.
Proof.
  intros (b & a & ->). induction b as [|c b IH].
  - apply includes_prefix. exact (prefix_append x a).
  - change (String c b ++ x ++ a) with (String c (b ++ x ++ a)).
    cbn [includes]. rewrite IH. now destruct (String.prefix x (String c (b ++ x ++ a))).
Qed.

Section StoreUntouched.
Context {P : Platform}.

Lemma store_syncPreviewPlayer (autoplay : bool) (w : World) :
  store (syncPreviewPlayer autoplay w) = store w.
Proof.
  unfold syncPreviewPlayer. cbv zeta.
  repeat match goal with |- context [if ?b then _ else _] => destruct b end;
    reflexivity.
Qed.

Lemma store_renderQueue (w : World) : store (renderQueue w) = store w.
Proof. reflexivity. Qed.

Lemma store_syncActionsCollapse (w : World) : store (syncActionsCollapse w) = store w.
Proof. unfold syncActionsCollapse. now destruct (narrowViewport (page w)). Qed.

(** Rendering reads the store and never writes it. *)
Lemma store_render (w : World) : store (render w) = store w.
Proof.
  unfold render. cbv zeta.
  rewrite store_renderQueue, store_syncActionsCollapse, store_syncPreviewPlayer.
  reflexivity.
Qed.

End StoreUntouched.

(** ** Badges *)

Section Badges.
Context {P : Platform}.

Lemma renderCard_contains_badgeElement (s : ClientState) (item : QueueItem) :
  Contains (badgeElement item) (renderCard s item).
Proof.
  unfold renderCard, badgeElement, line. cbv zeta.
  do 5 apply contains_after.
  apply contains_before.
  do 2 apply contains_after.
  exists "", "". now rewrite append_nil_r.
Qed.

Lemma queueHtml_contains_card (s : ClientState) (item : QueueItem) :
  In item (queue s) -> Contains (renderCard s item) (queueHtml s).
Proof.
  intros I. unfold queueHtml.
  destruct (queue s) as [|y l] eqn:E; [contradiction|].
  apply join_contains. exact I.
Qed.

(** A fill element names the class [badge-fill]. *)
Lemma fillSpan_names_class (width : Number) : Contains "badge-fill" (fillSpan width).
Proof.
  unfold fillSpan, attr.
  exists ("<span class=" ++ dquote),
         (dquote ++ " " ++ ("style" ++ "=" ++ dquote
                             ++ ("width: " ++ Number_toString width ++ "%") ++ dquote)
            ++ "></span>").
  reflexivity.
Qed.

Lemma queueSection_renderQueue (w : World) :
  queueSection (page (renderQueue w)) = queueHtml (store w).
Proof. reflexivity. Qed.

Lemma queueSection_render (w : World) :
  queueSection (page (render w)) = queueHtml (store w).
Proof.
  unfold render. cbv zeta. rewrite queueSection_renderQueue.
  rewrite store_syncActionsCollapse, store_syncPreviewPlayer. reflexivity.
Qed.

(** C8.  [renderQueue], and [render] through it, assign to the queue
    section the markup of the stored queue; the card of every item of the
    queue is in it, and the card holds the item's badge element, whose
    content is as follows.  A WORKING item
    whose progress is a number [p] has a fill element of width
    max(0, min(100, p)) percent next to its label.  An item in any other
    state has its label alone, with no fill element, and so has a WORKING
    item whose progress is absent (its label is "0%"). *)
Theorem working_badge_fill (w : World) (item : QueueItem) :
  queueSection (page (renderQueue w)) = queueHtml (store w)
  /\ queueSection (page (render w)) = queueHtml (store w)
  /\ (In item (queue (store w)) ->
        Contains (renderCard (store w) item) (queueSection (page (renderQueue w)))
        /\ Contains (renderCard (store w) item) (queueSection (page (render w))))
  /\ Contains (badgeElement item) (renderCard (store w) item)
  /\ (forall p, state item = WORKING -> progress item = Some p ->
        badgeContent item
        = fillSpan (Math_max (num 0) (Math_min (num 100) p)) ++ textSpan (statusLabel item))
  /\ (state item <> WORKING ->
        badgeContent item = textSpan (statusLabel item)
        /\ includes "badge-fill" (badgeContent item) = false)
  /\ (state item = WORKING -> progress item = None ->
        badgeContent item = textSpan "0%"
        /\ includes "badge-fill" (badgeContent item) = false).
Proof.
  repeat apply conj.
  - apply queueSection_renderQueue.
  - apply queueSection_render.
  - intros I.
    rewrite queueSection_renderQueue, queueSection_render.
    split; apply queueHtml_contains_card; exact I.
  - apply renderCard_contains_badgeElement.
  - intros p Hs Hp. unfold badgeContent, progressValue. rewrite Hs, Hp.
    rewrite clamp_either_order. unfold badgeContentFor, fillSpan, textSpan.
    now rewrite !append_assoc.
  - intros Hs. unfold badgeContent, statusLabel.
    destruct (state item); try congruence; split; reflexivity.
  - intros Hs Hp. unfold badgeContent, statusLabel, progressValue.
    rewrite Hs, Hp. split; reflexivity.
Qed.

End Badges.

(** ** URL validation *)

Section UrlValidation.
Context {P : Platform}.

(** A value the URL constructor refuses is not a valid link. *)
Lemma unparsable_is_invalid (value : string) :
  URL_parse value = None -> isValidYoutubeUrl value = false.
Proof.
  intros E. unfold isValidYoutubeUrl. now rewrite E.
Qed.

(** The verdict depends on the parsed components only. *)
Lemma verdict_of_components (value : string) (u : URL) :
  URL_parse value = Some u ->
  isValidYoutubeUrl value =
    andb (orb (String.eqb (protocol u) "http:") (String.eqb (protocol u) "https:"))
         (orb (andb (String.eqb (toLowerCase (hostname u)) "youtu.be")
                    (truthy (replaceFirst "/" "" (pathname u))))
              (andb (orb (String.eqb (toLowerCase (hostname u)) "www.youtube.com")
                      (orb (String.eqb (toLowerCase (hostname u)) "youtube.com")
                           (String.eqb (toLowerCase (hostname u)) "m.youtube.com")))
                    (andb (startsWith "/watch" (pathname u)) (searchParams_has u "v")))).
Proof.
  intros E. unfold isValidYoutubeUrl. rewrite E.
  destruct (String.eqb (protocol u) "http:"), (String.eqb (protocol u) "https:"); simpl;
    try reflexivity;
    destruct (String.eqb (toLowerCase (hostname u)) "youtu.be") eqn:H1; simpl;
    try rewrite orb_false_r; try reflexivity;
    try (apply String.eqb_eq in H1; rewrite H1; simpl; now rewrite orb_false_r);
    destruct (String.eqb (toLowerCase (hostname u)) "www.youtube.com"),
             (String.eqb (toLowerCase (hostname u)) "youtube.com"),
             (String.eqb (toLowerCase (hostname u)) "m.youtube.com"); reflexivity.
Qed.

(** C4.  Validation returns a boolean on every string, [false] whenever the
    URL constructor refuses the string, and, with the six sample strings
    parsed as the URL standard parses them, accepts the short link with an id
    and the watch link with a [v] parameter, and rejects the short link
    without id, the watch link without [v], the ftp link and the text that is
    no URL. *)
Theorem url_validation_examples :
  URL_parse "https://youtu.be/abc123"
    = Some {| protocol := "https:"; hostname := "youtu.be";
              pathname := "/abc123"; searchParams := [] |} ->
  URL_parse "https://youtu.be/"
    = Some {| protocol := "https:"; hostname := "youtu.be";
              pathname := "/"; searchParams := [] |} ->
  URL_parse "https://www.youtube.com/watch?v=abc123"
    = Some {| protocol := "https:"; hostname := "www.youtube.com";
              pathname := "/watch"; searchParams := [("v", "abc123")] |} ->
  URL_parse "https://www.youtube.com/watch"
    = Some {| protocol := "https:"; hostname := "www.youtube.com";
              pathname := "/watch"; searchParams := [] |} ->
  URL_parse "ftp://youtube.com/watch?v=x"
    = Some {| protocol := "ftp:"; hostname := "youtube.com";
              pathname := "/watch"; searchParams := [("v", "x")] |} ->
  URL_parse "not a url" = None ->
  (forall value, exists verdict : bool, isValidYoutubeUrl value = verdict)
  /\ (forall value, URL_parse value = None -> isValidYoutubeUrl value = false)
  /\ isValidYoutubeUrl "https://youtu.be/abc123" = true
  /\ isValidYoutubeUrl "https://youtu.be/" = false
  /\ isValidYoutubeUrl "https://www.youtube.com/watch?v=abc123" = true
  /\ isValidYoutubeUrl "https://www.youtube.com/watch" = false
  /\ isValidYoutubeUrl "ftp://youtube.com/watch?v=x" = false
  /\ isValidYoutubeUrl "not a url" = false.
Proof.
  intros H1 H2 H3 H4 H5 H6.
  repeat apply conj.
  - intros value. eexists. reflexivity.
  - apply unparsable_is_invalid.
  - rewrite (verdict_of_components _ _ H1). reflexivity.
  - rewrite (verdict_of_components _ _ H2). reflexivity.
  - rewrite (verdict_of_components _ _ H3). reflexivity.
  - rewrite (verdict_of_components _ _ H4). reflexivity.
  - rewrite (verdict_of_components _ _ H5). reflexivity.
  - apply unparsable_is_invalid. exact H6.
Qed.

End UrlValidation.

(** ** The busy counter *)

Section Busy.
Context {P : Platform}.

Lemma store_begin (message : option string) (w : World) :
  store (setBusy true message w)
  = set_isBusy true
      ((if truthy_opt message
        then set_busyMessage (match message with Some m => m | None => "" end)
        else fun s => s)
         (set_busyCount (busyCount (store w) + 1) (store w))).
Proof.
  unfold setBusy. rewrite store_render.
  destruct message as [m|]; simpl; [destruct (truthy m)|]; reflexivity.
Qed.

Lemma store_finish (message : option string) (w : World) :
  store (setBusy false message w)
  = let s := set_busyCount (Z.max 0 (busyCount (store w) - 1)) (store w) in
    if busyCount s =? 0 then set_busyMessage "" (set_isBusy false s) else s.
Proof.
  unfold setBusy. rewrite store_render. cbv zeta. simpl.
  destruct (Z.max 0 (busyCount (store w) - 1) =? 0); reflexivity.
Qed.

Lemma idle_invariant (s : ClientState) : idle s -> busyInvariant s.
Proof.
  intros (C & B & M). unfold busyInvariant. rewrite C, B. auto with zarith.
Qed.

Lemma applyStep_invariant (c : Step) (w : World) :
  framed c ->
  busyInvariant (store w) ->
  0 <= busyCount (store w) + weight c ->
  busyInvariant (store (applyStep c w))
  /\ busyCount (store (applyStep c w)) = busyCount (store w) + weight c.
Proof.
  intros F (N & B & M) W. destruct c as [message| |f]; unfold applyStep, weight in *.
  - rewrite store_begin. unfold busyInvariant.
    destruct (truthy_opt message); simpl;
      (repeat split; [lia | symmetry; apply Z.ltb_lt; lia | lia]).
  - rewrite store_finish. cbv zeta. simpl.
    replace (Z.max 0 (busyCount (store w) - 1)) with (busyCount (store w) - 1) by lia.
    destruct (busyCount (store w) - 1 =? 0) eqn:E; unfold busyInvariant; simpl.
    + apply Z.eqb_eq in E. rewrite E. repeat split; auto with zarith.
    + apply Z.eqb_neq in E. repeat split; try lia.
      rewrite B. assert (0 < busyCount (store w) - 1) as L by lia.
      apply Z.ltb_lt in L. rewrite L. apply Z.ltb_lt. lia.
  - pose proof (F w) as E. unfold busyFields in E. injection E as E1 E2 E3.
    unfold busyInvariant. rewrite E1, E2, E3. repeat split; auto; lia.
Qed.

Lemma applySteps_counts (cs : list Step) : forall w : World,
  Forall framed cs ->
  busyInvariant (store w) ->
  (forall k : nat, 0 <= busyCount (store w) + outstanding (firstn k cs)) ->
  busyInvariant (store (applySteps cs w))
  /\ busyCount (store (applySteps cs w)) = busyCount (store w) + outstanding cs.
Proof.
  induction cs as [|c cs IH]; intros w F I Hk.
  - simpl. split; [exact I | lia].
  - inversion F as [|c' cs' Fc Fcs]; subst.
    assert (0 <= busyCount (store w) + weight c) as W.
    { specialize (Hk 1%nat). simpl in Hk. destruct cs; simpl in Hk; lia. }
    destruct (applyStep_invariant c w Fc I W) as (I' & C').
    change (applySteps (c :: cs) w) with (applySteps cs (applyStep c w)).
    destruct (IH (applyStep c w) Fcs I') as (I'' & C'').
    + intros k. specialize (Hk (S k)). simpl in Hk. lia.
    + split; [exact I''|]. rewrite C'', C'. simpl. lia.
Qed.

Lemma matched_prefix (cs : list Step) (k : nat) :
  Matched cs -> Matched (firstn k cs).
Proof.
  intros M j. rewrite firstn_firstn. apply M.
Qed.

Lemma framed_prefix (cs : list Step) (k : nat) :
  Forall framed cs -> Forall framed (firstn k cs).
Proof.
  intros F. apply Forall_forall. intros c I.
  rewrite Forall_forall in F. apply F.
  rewrite <- (firstn_skipn k cs). apply in_or_app. now left.
Qed.

Lemma outstanding_app (a b : list Step) :
  outstanding (a ++ b) = outstanding a + outstanding b.
Proof.
  induction a as [|c a IH]; simpl; lia.
Qed.

(** Only the calls of [setBusy] count. *)
Lemma outstanding_calls (cs : list Step) :
  outstanding (setBusyCalls cs) = outstanding cs.
Proof.
  induction cs as [|c cs IH]; [reflexivity|].
  destruct c; simpl; rewrite IH; reflexivity.
Qed.

(** The calls among the first steps are the first calls. *)
Lemma calls_of_prefix (cs : list Step) (k : nat) :
  setBusyCalls (firstn k cs)
  = firstn (length (setBusyCalls (firstn k cs))) (setBusyCalls cs).
Proof.
  revert k. induction cs as [|c cs IH]; intros [|k]; try reflexivity.
  unfold setBusyCalls in *. cbn [firstn filter].
  destruct (isCall c); cbn [length firstn]; rewrite <- IH; reflexivity.
Qed.

Lemma outstanding_begins (messages : list (option string)) (k : nat) :
  outstanding (firstn k (map Begin messages)) = Z.of_nat (Nat.min k (length messages)).
Proof.
  revert k. induction messages as [|m l IH]; intros [|k]; try reflexivity.
  cbn [map firstn outstanding weight length Nat.min]. rewrite IH. lia.
Qed.

Lemma outstanding_finishes (n k : nat) :
  outstanding (firstn k (repeat Finish n)) = - Z.of_nat (Nat.min k n).
Proof.
  revert k. induction n as [|n IH]; intros [|k]; try reflexivity.
  cbn [repeat firstn outstanding weight Nat.min]. rewrite IH. lia.
Qed.

Lemma outstanding_overlapping (messages : list (option string)) (k : nat) :
  outstanding (firstn k (overlapping messages))
  = Z.of_nat (Nat.min k (length messages))
    - Z.of_nat (Nat.min (k - length messages) (length messages)).
Proof.
  unfold overlapping. rewrite firstn_app, outstanding_app.
  rewrite outstanding_begins, length_map, outstanding_finishes. lia.
Qed.

(** Steps whose calls are those of overlapping operations: what is
    outstanding after the first [k] steps. *)
Lemma outstanding_interleaved (messages : list (option string)) (cs : list Step) (k : nat) :
  setBusyCalls cs = overlapping messages ->
  outstanding (firstn k cs)
  = let j := length (setBusyCalls (firstn k cs)) in
    Z.of_nat (Nat.min j (length messages))
    - Z.of_nat (Nat.min (j - length messages) (length messages)).
Proof.
  intros E. cbv zeta.
  rewrite <- outstanding_calls. rewrite calls_of_prefix at 1. rewrite E.
  apply outstanding_overlapping.
Qed.

Lemma interleaved_matched (messages : list (option string)) (cs : list Step) :
  setBusyCalls cs = overlapping messages -> Matched cs.
Proof.
  intros E k. rewrite (outstanding_interleaved messages cs k E). cbv zeta. lia.
Qed.

Lemma interleaved_balanced (messages : list (option string)) (cs : list Step) :
  setBusyCalls cs = overlapping messages -> outstanding cs = 0.
Proof.
  intros E. rewrite <- outstanding_calls, E.
  unfold overlapping. rewrite outstanding_app.
  pose proof (outstanding_begins messages (length messages)) as B.
  pose proof (outstanding_finishes (length messages) (length messages)) as F.
  rewrite firstn_all2 in B by (rewrite length_map; lia).
  rewrite firstn_all2 in F by (rewrite repeat_length; lia).
  rewrite B, F. lia.
Qed.

(** The banner shows the message of the latest call that gave one. *)
Lemma begin_sets_message (message : string) (w : World) :
  message <> "" -> busyMessage (store (setBusy true (Some message) w)) = message.
Proof.
  intros N. rewrite store_begin. apply truthy_true in N.
  cbn [truthy_opt]. rewrite N. reflexivity.
Qed.

(** The synchronous sections of the other callbacks are [framed]: rendering,
    applying a queue snapshot, recording a validation error. *)
Lemma other_code_framed (q : list QueueItem) (autoplay : bool) (message : string) :
  Forall framed
    [Other render; Other renderQueue; Other (syncPreviewPlayer autoplay);
     Other (loadQueue_apply q); Other (with_store (set_urlError message));
     Other (with_store (set_isAdding true)); Other formatSelect_change].
Proof.
  repeat constructor; intros w; cbn [framed].
  - now rewrite store_render.
  - now rewrite store_syncPreviewPlayer.
  - unfold loadQueue_apply. cbv zeta.
    match goal with |- context [if ?b then _ else _] => destruct b end;
      [rewrite store_syncPreviewPlayer|]; reflexivity.
Qed.

(** C1.  From an idle store, along any sequence of steps in which every
    [setBusy(false)] answers an earlier [setBusy(true, message)] and the
    other code leaves the busy fields alone: after each step [busyCount] is
    the number of calls begun and not finished, it is never negative, and
    [isBusy] holds exactly when it is positive; once every call is answered
    [isBusy] is false and [busyMessage] is empty.  When the calls are those
    of [n] operations all begun before any is finished, however they are
    interleaved with other code, [isBusy] is true from the first call until
    the last: after any number of steps holding at least one and fewer than
    [2n] of the calls; and after all the steps the store is idle again. *)
Theorem busy_counter_discipline (w0 : World) :
  idle (store w0) ->
  (forall cs, Forall framed cs -> Matched cs -> forall k : nat,
      let s := store (applySteps (firstn k cs) w0) in
      busyCount s = outstanding (firstn k cs)
      /\ 0 <= busyCount s
      /\ (isBusy s = true <-> 0 < busyCount s))
  /\ (forall cs, Forall framed cs -> Matched cs -> outstanding cs = 0 ->
        idle (store (applySteps cs w0)))
  /\ (forall messages cs, Forall framed cs ->
        setBusyCalls cs = overlapping messages ->
        (forall k : nat,
            (0 < length (setBusyCalls (firstn k cs)) < 2 * length messages)%nat ->
            isBusy (store (applySteps (firstn k cs) w0)) = true)
        /\ idle (store (applySteps cs w0))).
Proof.
  intros I0. pose proof (idle_invariant _ I0) as Inv0.
  destruct I0 as (C0 & _ & _).
  assert (forall cs, Forall framed cs -> Matched cs ->
            busyInvariant (store (applySteps cs w0))
            /\ busyCount (store (applySteps cs w0)) = outstanding cs) as Key.
  { intros cs F M. destruct (applySteps_counts cs w0 F Inv0) as (I & C).
    - intros k. rewrite C0. apply M.
    - split; [exact I|]. rewrite C, C0. lia. }
  assert (forall cs, Forall framed cs -> Matched cs -> outstanding cs = 0 ->
            idle (store (applySteps cs w0))) as Final.
  { intros cs F M Z0. destruct (Key cs F M) as ((N & B & Msg) & C).
    rewrite Z0 in C. unfold idle. rewrite B, C. auto. }
  repeat apply conj.
  - intros cs F M k.
    destruct (Key _ (framed_prefix cs k F) (matched_prefix cs k M)) as ((N & B & _) & C).
    cbv zeta. repeat split; try assumption.
    + rewrite B. apply Z.ltb_lt.
    + rewrite B. apply Z.ltb_lt.
  - exact Final.
  - intros messages cs F E.
    pose proof (interleaved_matched messages cs E) as M.
    split.
    + intros k Hk.
      destruct (Key _ (framed_prefix cs k F) (matched_prefix cs k M)) as ((N & B & _) & C).
      rewrite B, C, (outstanding_interleaved messages cs k E). cbv zeta.
      apply Z.ltb_lt. lia.
    + apply Final; [exact F | exact M | now apply interleaved_balanced with messages].
Qed.

End Busy.

(** ** Running asynchronous functions *)

Lemma run_bind {A B : Type} (srv : Server) (t : Task A) (f : A -> Task B) :
  forall w : World,
    run srv (bind t f) w
    = match run srv t w with
      | (Done a, w1) => run srv (f a) w1
      | (Thrown, w1) => (Thrown, w1)
      end.
Proof.
  induction t as [a | | g k IH | k IH | r k IH]; intros w; simpl; auto.
Qed.

(** The cleanup of [try ... finally] runs however the body ends. *)
Lemma run_tryFinally {A : Type} (srv : Server) (t : Task A) (cleanup : World -> World) :
  forall w : World,
    run srv (tryFinally t cleanup) w
    = (fst (run srv t w), cleanup (snd (run srv t w))).
Proof.
  induction t as [a | | g k IH | k IH | r k IH]; intros w; simpl; auto.
Qed.

Lemma run_call (srv : Server) (f : World -> World) (w : World) :
  run srv (call f) w = (Done tt, f w).
Proof. reflexivity. Qed.

Lemma run_fetch (srv : Server) (r : Request) (w : World) :
  run srv (fetch r) w
  = match srv (requestsSent w) r with
    | Rejected => (Thrown, emit (Requested r) w)
    | Resolved status payload =>
        (Done {| ok := status; json := payload |}, emit (Requested r) w)
    end.
Proof.
  simpl. destruct (srv (requestsSent w) r); reflexivity.
Qed.

Lemma run_fetchQueue (srv : Server) (w : World) :
  run srv fetchQueue w
  = match srv (requestsSent w) GetQueue with
    | Rejected => (Thrown, emit (Requested GetQueue) w)
    | Resolved status payload =>
        (Done (if status then Some payload else None), emit (Requested GetQueue) w)
    end.
Proof.
  unfold fetchQueue. rewrite run_bind, run_fetch.
  destruct (srv (requestsSent w) GetQueue) as [|[|] payload]; reflexivity.
Qed.

Section Refresh.
Context {P : Platform}.

Lemma run_loadQueue (srv : Server) (w : World) :
  run srv loadQueue w
  = match srv (requestsSent w) GetQueue with
    | Rejected => (Thrown, emit (Requested GetQueue) w)
    | Resolved false _ => (Done tt, emit (Requested GetQueue) w)
    | Resolved true payload =>
        (Done tt, loadQueue_apply payload (emit (Requested GetQueue) w))
    end.
Proof.
  unfold loadQueue. rewrite run_bind, run_fetchQueue.
  destruct (srv (requestsSent w) GetQueue) as [|[|] payload]; reflexivity.
Qed.

Lemma queue_loadQueue_apply (q : list QueueItem) (w : World) :
  queue (store (loadQueue_apply q w)) = q.
Proof.
  unfold loadQueue_apply. cbv zeta.
  match goal with |- context [if ?b then _ else _] => destruct b end;
    [rewrite store_syncPreviewPlayer|]; reflexivity.
Qed.

Lemma requestsSent_emit_request (r : Request) (w : World) :
  requestsSent (emit (Requested r) w) = S (requestsSent w).
Proof.
  unfold requestsSent, emit. simpl. rewrite filter_app, length_app. simpl. lia.
Qed.

(** C5.  When the queue request is answered with a non-success status,
    [fetchQueue] returns the absent value and [loadQueue] changes nothing of
    the store, in particular neither [queue] nor [preview], nor of the page;
    when the next queue request succeeds, [queue] becomes its payload. *)
Theorem failed_refetch_keeps_state (srv : Server) (w : World) :
  (forall stale, srv (requestsSent w) GetQueue = Resolved false stale ->
     let w' := snd (run srv loadQueue w) in
     run srv fetchQueue w = (Done None, emit (Requested GetQueue) w)
     /\ fst (run srv loadQueue w) = Done tt
     /\ queue (store w') = queue (store w)
     /\ preview (store w') = preview (store w)
     /\ store w' = store w
     /\ page w' = page w
     /\ trace w' = (trace w ++ [Requested GetQueue])%list)
  /\ (forall stale fresh,
        srv (requestsSent w) GetQueue = Resolved false stale ->
        srv (S (requestsSent w)) GetQueue = Resolved true fresh ->
        let w'' := snd (run srv (loadQueue ;; loadQueue) w) in
        fst (run srv (loadQueue ;; loadQueue) w) = Done tt
        /\ queue (store w'') = fresh).
Proof.
  split.
  - intros stale E. cbv zeta. rewrite run_fetchQueue, run_loadQueue, E.
    repeat split.
  - intros stale fresh E1 E2. cbv zeta.
    rewrite run_bind, run_loadQueue, E1, run_loadQueue.
    rewrite requestsSent_emit_request, E2. simpl.
    split; [reflexivity | apply queue_loadQueue_apply].
Qed.

End Refresh.

(** ** The preview player *)

Section PreviewPlayer.
Context {P : Platform}.

Lemma trace_syncPreviewPlayer (autoplay : bool) (w : World) :
  trace (syncPreviewPlayer autoplay w)
  = (trace w ++ map Player (playerOps autoplay (nextSrc (store w)) (playerSrc (page w))))%list.
Proof.
  unfold syncPreviewPlayer, playerOps. cbv zeta. simpl.
  destruct (truthy (nextSrc (store w))) eqn:N; simpl.
  - destruct (String.eqb (playerSrc (page w)) (nextSrc (store w))); simpl;
      destruct autoplay; simpl; rewrite <- ?app_assoc, ?app_nil_r; reflexivity.
  - destruct (truthy (playerSrc (page w))); simpl;
      rewrite <- ?app_assoc; reflexivity.
Qed.

(** What the source getter returns after a synchronisation. *)
Lemma playerSrc_syncPreviewPlayer (autoplay : bool) (w : World) :
  playerSrc (page (syncPreviewPlayer autoplay w))
  = srcAfterSync (nextSrc (store w)) (playerSrc (page w)).
Proof.
  unfold syncPreviewPlayer, srcAfterSync. cbv zeta.
  change (store (with_page (set_previewStatus (previewStatusText (store w))) w))
    with (store w).
  change (playerSrc (page (with_page (set_previewStatus (previewStatusText (store w))) w)))
    with (playerSrc (page w)).
  generalize (nextSrc (store w)) as next. intros next.
  destruct (truthy next) eqn:N; simpl.
  - destruct (String.eqb (playerSrc (page w)) next) eqn:E; simpl.
    + apply String.eqb_eq in E. destruct autoplay; exact E.
    + destruct autoplay; reflexivity.
  - apply truthy_false in N. rewrite N.
    destruct (truthy (playerSrc (page w))) eqn:S; simpl; [reflexivity|].
    now apply truthy_false in S.
Qed.

(** With the computed URL already in place the getter returns it still. *)
Lemma srcAfterSync_same (next : string) : srcAfterSync next next = next.
Proof.
  unfold srcAfterSync. rewrite String.eqb_refl, andb_false_r. reflexivity.
Qed.

Lemma previewStatus_syncPreviewPlayer (autoplay : bool) (w : World) :
  previewStatus (page (syncPreviewPlayer autoplay w)) = previewStatusText (store w).
Proof.
  unfold syncPreviewPlayer. cbv zeta. simpl.
  repeat match goal with |- context [if ?b then _ else _] => destruct b end;
    reflexivity.
Qed.

(** A synchronisation that finds the computed URL already in place. *)
Lemma preview_sync_events (autoplay : bool) (w : World) :
  nextSrc (store w) = playerSrc (page w) ->
  playerSrc (page (syncPreviewPlayer autoplay w)) = playerSrc (page w)
  /\ trace (syncPreviewPlayer autoplay w)
     = (trace w ++ (if truthy (nextSrc (store w))
                    then (if autoplay then [Player Play] else [])
                    else [Player Pause]))%list.
Proof.
  intros E. split.
  - rewrite playerSrc_syncPreviewPlayer, <- E. apply srcAfterSync_same.
  - rewrite trace_syncPreviewPlayer. f_equal. unfold playerOps.
    rewrite <- E, String.eqb_refl.
    destruct (truthy (nextSrc (store w))) eqn:N; simpl.
    + destruct autoplay; reflexivity.
    + reflexivity.
Qed.

(** C7.  When [syncPreviewPlayer] runs while the computed stream URL equals
    the player's current [src], the [src] keeps its value and the only call
    made on the player is [play] (when a URL is set and autoplay is asked) or
    [pause] (when no URL is set): no assignment or removal of [src], no
    reload.  An assignment of [src] happens only with the computed URL and
    only when it differs from the current [src].  The computed URL is
    [API_BASE] followed by [state.preview.url] whenever that is set. *)
Theorem preview_sync_idempotent (autoplay : bool) (w : World) :
  let w' := syncPreviewPlayer autoplay w in
  (nextSrc (store w) = playerSrc (page w) ->
     playerSrc (page w') = playerSrc (page w)
     /\ trace w'
        = (trace w ++ (if truthy (nextSrc (store w))
                       then (if autoplay then [Player Play] else [])
                       else [Player Pause]))%list)
  /\ (forall events src,
        trace w' = (trace w ++ events)%list ->
        In (Player (SetSrc src)) events ->
        src = nextSrc (store w) /\ nextSrc (store w) <> playerSrc (page w))
  /\ (preview_url (preview (store w)) <> "" ->
        nextSrc (store w) = API_BASE ++ preview_url (preview (store w)))
  /\ store w' = store w.
Proof.
  cbv zeta. repeat apply conj.
  - apply preview_sync_events.
  - intros events src E I.
    rewrite trace_syncPreviewPlayer in E. apply app_inv_head in E. subst events.
    unfold playerOps in I.
    destruct (truthy (nextSrc (store w))); simpl in I.
    + destruct (String.eqb (playerSrc (page w)) (nextSrc (store w))) eqn:Q; simpl in I.
      * destruct autoplay; simpl in I; intuition congruence.
      * apply String.eqb_neq in Q.
        destruct I as [I | I]; [injection I as <-; split; congruence|].
        destruct autoplay; simpl in I; intuition congruence.
    + destruct I as [I | I]; [discriminate|].
      destruct (truthy (playerSrc (page w))); simpl in I; intuition congruence.
  - intros U. unfold nextSrc. apply truthy_true in U. now rewrite U.
  - apply store_syncPreviewPlayer.
Qed.

Lemma set_preview_same (s : ClientState) : set_preview (preview s) s = s.
Proof. destruct s. reflexivity. Qed.

(** Asking again for the preview that is playing, with the stream URL the
    back end gave before, leaves the source alone: the only call on the
    player is [play]. *)
Lemma repeated_preview_keeps_source (srv : Server) (w : World) (item stream : string) :
  preview (store w) = {| preview_id := item; preview_url := stream |} ->
  stream <> "" ->
  playerSrc (page w) = API_BASE ++ stream ->
  srv (requestsSent w) (GetPreview item) = Resolved true {| url := stream |} ->
  let w' := snd (run srv (previewItem item) w) in
  trace w' = (trace w ++ [Requested (GetPreview item); Player Play])%list
  /\ playerSrc (page w') = playerSrc (page w)
  /\ store w' = store w.
Proof.
  intros Pv Ne Src E. cbv zeta.
  unfold previewItem, fetchPreview. rewrite !run_bind, run_fetch, E.
  cbn [negb ok json run snd url call].
  set (w1 := with_store (set_preview {| preview_id := item; preview_url := stream |})
               (emit (Requested (GetPreview item)) w)).
  assert (store w1 = store w) as S1.
  { change (store w1)
      with (set_preview {| preview_id := item; preview_url := stream |} (store w)).
    rewrite <- Pv. apply set_preview_same. }
  assert (truthy (nextSrc (store w1)) = true /\ nextSrc (store w1) = playerSrc (page w1))
    as (T & Same).
  { rewrite S1. change (page w1) with (page w).
    unfold nextSrc. rewrite Pv. cbn [preview_url].
    apply truthy_true in Ne. rewrite Ne, Src. split; [|reflexivity].
    apply truthy_true. unfold API_BASE. simpl. discriminate. }
  destruct (preview_sync_events true w1 Same) as (Sr & Tr).
  repeat split.
  - rewrite Tr, T. change (trace w1) with (trace w ++ [Requested (GetPreview item)])%list.
    rewrite <- app_assoc. reflexivity.
  - rewrite Sr. reflexivity.
  - rewrite store_syncPreviewPlayer. exact S1.
Qed.

End PreviewPlayer.

(** ** Applying a queue snapshot *)

Section Snapshot.
Context {P : Platform}.

Lemma loadQueue_apply_gone (q : list QueueItem) (w : World) :
  previewGone q (store w) = true ->
  loadQueue_apply q w
  = syncPreviewPlayer false (with_store (set_preview idlePreview) (with_store (set_queue q) w)).
Proof.
  unfold previewGone, loadQueue_apply. cbv zeta. simpl. now intros ->.
Qed.

Lemma loadQueue_apply_kept (q : list QueueItem) (w : World) :
  previewGone q (store w) = false ->
  loadQueue_apply q w = with_store (set_queue q) w.
Proof.
  unfold previewGone, loadQueue_apply. cbv zeta. simpl. now intros ->.
Qed.

Lemma previewGone_true (q : list QueueItem) (s : ClientState) :
  previewGone q s = true
  <-> preview_id (preview s) <> ""
      /\ forall item, In item q -> id item <> preview_id (preview s).
Proof.
  unfold previewGone. rewrite andb_true_iff, negb_true_iff, truthy_true.
  split; intros (T & E); split; try exact T.
  - intros item I Q.
    assert (existsb (fun item => String.eqb (id item) (preview_id (preview s))) q = true)
      as C by (apply existsb_exists; exists item; split; [exact I | now apply String.eqb_eq]).
    congruence.
  - destruct (existsb _ q) eqn:X; [|reflexivity].
    apply existsb_exists in X. destruct X as (item & I & Q).
    apply String.eqb_eq in Q. exfalso. exact (E item I Q).
Qed.

Lemma previewGone_false (q : list QueueItem) (s : ClientState) :
  previewGone q s = false
  <-> preview_id (preview s) = ""
      \/ exists item, In item q /\ id item = preview_id (preview s).
Proof.
  unfold previewGone. rewrite andb_false_iff, negb_false_iff, truthy_false.
  split; (intros [H | H]; [left; exact H | right]).
  - apply existsb_exists in H.
    destruct H as (item & I & Q). exists item. split; [exact I|].
    now apply String.eqb_eq.
  - destruct H as (item & I & Q). apply existsb_exists.
    exists item. split; [exact I|]. now apply String.eqb_eq.
Qed.

(** C6.  After [loadQueue] has applied a snapshot, [state.queue] is that
    snapshot and [state.preview.id] is empty or the id of one of its items.
    If the previewed item is missing from the snapshot, the preview becomes
    [{id: "", url: ""}] and the player is stopped: it is paused, its source
    is removed when it had one, and the status line reads "Idle".  Otherwise
    the preview and the page are left as they were. *)
Theorem refresh_keeps_preview_on_queue (srv : Server) (w : World) (fresh : list QueueItem) :
  srv (requestsSent w) GetQueue = Resolved true fresh ->
  let w' := snd (run srv loadQueue w) in
  fst (run srv loadQueue w) = Done tt
  /\ queue (store w') = fresh
  /\ (preview_id (preview (store w')) = ""
      \/ exists item, In item (queue (store w'))
                      /\ id item = preview_id (preview (store w')))
  /\ (preview_id (preview (store w)) <> "" ->
      (forall item, In item fresh -> id item <> preview_id (preview (store w))) ->
      preview (store w') = idlePreview
      /\ playerSrc (page w') = ""
      /\ previewStatus (page w') = "Idle"
      /\ trace w'
         = (trace w ++ Requested GetQueue :: Player Pause
              :: (if truthy (playerSrc (page w))
                  then [Player RemoveSrc; Player LoadMedia] else []))%list)
  /\ (preview_id (preview (store w)) = ""
      \/ (exists item, In item fresh /\ id item = preview_id (preview (store w))) ->
      preview (store w') = preview (store w)
      /\ page w' = page w
      /\ trace w' = (trace w ++ [Requested GetQueue])%list).
Proof.
  intros E. cbv zeta. rewrite run_loadQueue, E. simpl fst. simpl snd.
  set (w1 := emit (Requested GetQueue) w).
  assert (store w1 = store w) as S1 by reflexivity.
  repeat apply conj.
  - reflexivity.
  - apply queue_loadQueue_apply.
  - rewrite queue_loadQueue_apply.
    destruct (previewGone fresh (store w1)) eqn:G.
    + left. rewrite (loadQueue_apply_gone _ _ G), store_syncPreviewPlayer. reflexivity.
    + rewrite (loadQueue_apply_kept _ _ G). simpl.
      apply previewGone_false. exact G.
  - intros T A.
    assert (previewGone fresh (store w1) = true) as G
      by (apply previewGone_true; split; assumption).
    rewrite (loadQueue_apply_gone _ _ G).
    rewrite store_syncPreviewPlayer, playerSrc_syncPreviewPlayer,
      previewStatus_syncPreviewPlayer, trace_syncPreviewPlayer.
    repeat split.
    simpl. rewrite <- app_assoc. simpl.
    destruct (truthy (playerSrc (page w))); reflexivity.
  - intros G. apply previewGone_false in G.
    rewrite (loadQueue_apply_kept fresh w1 G). repeat split.
Qed.

End Snapshot.

(** ** Download All *)

Lemma run_loadDefaultDir (srv : Server) (w : World) :
  run srv loadDefaultDir w
  = match srv (requestsSent w) GetDefaultDir with
    | Rejected => (Thrown, emit (Requested GetDefaultDir) w)
    | Resolved status path =>
        (Done tt,
         with_store (set_dir (if status then path else ""))
           (emit (Requested GetDefaultDir) w))
    end.
Proof.
  unfold loadDefaultDir, fetchDefaultDir. rewrite !run_bind, run_fetch.
  destruct (srv (requestsSent w) GetDefaultDir) as [|[|] path]; reflexivity.
Qed.

Lemma run_downloadAll (srv : Server) (w : World) :
  run srv downloadAll w
  = if truthy (dir (store w))
    then (match srv (requestsSent w) (PostDownloadAll (format (store w))) with
          | Rejected => Thrown
          | Resolved _ _ => Done tt
          end,
          emit (Requested (PostDownloadAll (format (store w)))) w)
    else (Done tt, w).
Proof.
  unfold downloadAll. simpl.
  destruct (truthy (dir (store w))); simpl; [|reflexivity].
  destruct (srv (requestsSent w) (PostDownloadAll (format (store w)))); reflexivity.
Qed.

(** C10.  With an empty [dir], Download All returns at once: no request is
    issued and the store, the page and the trace are untouched.  With a
    non-empty [dir] it issues exactly the download request for the selected
    format and changes nothing else.  [dir] is empty in particular after
    [loadDefaultDir] met a non-success response. *)
Theorem download_requires_directory (srv : Server) (w : World) :
  (dir (store w) = "" -> run srv downloadAll w = (Done tt, w))
  /\ (dir (store w) <> "" ->
        let w' := snd (run srv downloadAll w) in
        trace w' = (trace w ++ [Requested (PostDownloadAll (format (store w)))])%list
        /\ store w' = store w
        /\ page w' = page w)
  /\ (forall fmt, In (Requested (PostDownloadAll fmt)) (trace (snd (run srv downloadAll w))) ->
        ~ In (Requested (PostDownloadAll fmt)) (trace w) ->
        dir (store w) <> "")
  /\ (forall path, srv (requestsSent w) GetDefaultDir = Resolved false path ->
        let w1 := snd (run srv loadDefaultDir w) in
        run srv fetchDefaultDir w = (Done "", emit (Requested GetDefaultDir) w)
        /\ dir (store w1) = ""
        /\ run srv downloadAll w1 = (Done tt, w1)).
Proof.
  repeat apply conj.
  - intros E. rewrite run_downloadAll, E. reflexivity.
  - intros E. cbv zeta. rewrite run_downloadAll.
    apply truthy_true in E. rewrite E. repeat split.
  - intros fmt I N E. rewrite run_downloadAll, E in I. simpl in I. contradiction.
  - intros path E. cbv zeta. rewrite run_loadDefaultDir, E.
    repeat split.
    unfold fetchDefaultDir. rewrite run_bind, run_fetch, E. reflexivity.
Qed.

(** ** Traces of the synchronous functions *)

Lemma protocolTrace_extend (w w' : World) (events : list Event) :
  trace w' = (trace w ++ events)%list ->
  protocolTrace w' = (protocolTrace w ++ filter protocolEvent events)%list.
Proof.
  intros E. unfold protocolTrace. now rewrite E, filter_app.
Qed.

Lemma requestsSent_extend (w w' : World) (events : list Event) :
  trace w' = (trace w ++ events)%list ->
  requestsSent w' = (requestsSent w + length (filter isRequest events))%nat.
Proof.
  intros E. unfold requestsSent. now rewrite E, filter_app, length_app.
Qed.

Lemma protocol_of_player (ops : list PlayerOp) :
  filter protocolEvent (map Player ops) = [].
Proof. induction ops; simpl; auto. Qed.

Lemma requests_of_player (ops : list PlayerOp) :
  filter isRequest (map Player ops) = [].
Proof. induction ops; simpl; auto. Qed.

Section Traces.
Context {P : Platform}.

Lemma trace_render (w : World) :
  trace (render w)
  = (trace w
       ++ map Player (playerOps false (nextSrc (store w)) (playerSrc (page w)))
       ++ [QueueRendered (queueHtml (store w))])%list.
Proof.
  unfold render. cbv zeta. unfold renderQueue at 1. cbv zeta.
  rewrite store_syncActionsCollapse, store_syncPreviewPlayer.
  cbn [trace emit with_page].
  assert (forall v, trace (syncActionsCollapse v) = trace v) as T
    by (intros v; unfold syncActionsCollapse; now destruct (narrowViewport (page v))).
  rewrite T, trace_syncPreviewPlayer, <- app_assoc. reflexivity.
Qed.

Lemma protocolTrace_render (w : World) :
  protocolTrace (render w)
  = (protocolTrace w ++ [QueueRendered (queueHtml (store w))])%list.
Proof.
  rewrite (@protocolTrace_extend _ _ _ (trace_render w)).
  now rewrite filter_app, protocol_of_player.
Qed.

Lemma requestsSent_render (w : World) : requestsSent (render w) = requestsSent w.
Proof.
  rewrite (@requestsSent_extend _ _ _ (trace_render w)).
  rewrite filter_app, requests_of_player. simpl. lia.
Qed.

Lemma protocolTrace_renderQueue (w : World) :
  protocolTrace (renderQueue w)
  = (protocolTrace w ++ [QueueRendered (queueHtml (store w))])%list.
Proof.
  unfold protocolTrace, renderQueue. simpl. now rewrite filter_app.
Qed.

(** [setBusy] is an update of the store followed by [render]. *)
Lemma setBusy_renders (active : bool) (message : option string) (w : World) :
  exists f : ClientState -> ClientState, setBusy active message w = render (with_store f w).
Proof.
  unfold setBusy. destruct active.
  - destruct message as [m|]; [destruct (truthy m)|].
    + exists (fun s => set_isBusy true (set_busyMessage m (set_busyCount (busyCount s + 1) s))).
      reflexivity.
    + exists (fun s => set_isBusy true (set_busyCount (busyCount s + 1) s)). reflexivity.
    + exists (fun s => set_isBusy true (set_busyCount (busyCount s + 1) s)). reflexivity.
  - cbv zeta.
    destruct (busyCount (store (with_store
                (fun s => set_busyCount (Z.max 0 (busyCount s - 1)) s) w)) =? 0).
    + exists (fun s => set_busyMessage ""
                (set_isBusy false (set_busyCount (Z.max 0 (busyCount s - 1)) s))).
      reflexivity.
    + exists (fun s => set_busyCount (Z.max 0 (busyCount s - 1)) s). reflexivity.
Qed.

Lemma protocolTrace_setBusy (active : bool) (message : option string) (w : World) :
  exists html,
    protocolTrace (setBusy active message w) = (protocolTrace w ++ [QueueRendered html])%list.
Proof.
  destruct (setBusy_renders active message w) as (f & ->).
  rewrite protocolTrace_render. eexists. reflexivity.
Qed.

Lemma requestsSent_setBusy (active : bool) (message : option string) (w : World) :
  requestsSent (setBusy active message w) = requestsSent w.
Proof.
  destruct (setBusy_renders active message w) as (f & ->).
  now rewrite requestsSent_render.
Qed.

Lemma trace_loadQueue_apply (q : list QueueItem) (w : World) :
  exists ops, trace (loadQueue_apply q w) = (trace w ++ map Player ops)%list.
Proof.
  destruct (previewGone q (store w)) eqn:G.
  - rewrite (loadQueue_apply_gone q w G), trace_syncPreviewPlayer.
    eexists. reflexivity.
  - rewrite (loadQueue_apply_kept q w G). exists []. simpl. now rewrite app_nil_r.
Qed.

Lemma protocolTrace_loadQueue_apply (q : list QueueItem) (w : World) :
  protocolTrace (loadQueue_apply q w) = protocolTrace w.
Proof.
  destruct (trace_loadQueue_apply q w) as (ops & E).
  rewrite (@protocolTrace_extend _ _ _ E), protocol_of_player. apply app_nil_r.
Qed.

Lemma protocolTrace_with_store (f : ClientState -> ClientState) (w : World) :
  protocolTrace (with_store f w) = protocolTrace w.
Proof. reflexivity. Qed.

Lemma protocolTrace_emit (e : Event) (w : World) :
  protocolTrace (emit e w)
  = (protocolTrace w ++ (if protocolEvent e then [e] else []))%list.
Proof.
  unfold protocolTrace, emit. simpl. now rewrite filter_app.
Qed.

(** A refetch, as the protocol trace shows it. *)
Lemma protocolTrace_loadQueue (srv : Server) (w : World) (refetched : bool) :
  answered srv (requestsSent w) GetQueue refetched ->
  fst (run srv loadQueue w) = Done tt
  /\ protocolTrace (snd (run srv loadQueue w))
     = (protocolTrace w ++ [Requested GetQueue])%list.
Proof.
  intros (payload & E). rewrite run_loadQueue, E.
  destruct refetched; simpl; split; try reflexivity.
  - now rewrite protocolTrace_loadQueue_apply, protocolTrace_emit.
  - now rewrite protocolTrace_emit.
Qed.

End Traces.

(** ** Mutations and the refetch *)

Section Mutations.
Context {P : Platform}.

(** A request whose response body is ignored. *)
Lemma run_fire (srv : Server) (r : Request) (w : World) (status : bool) :
  answered srv (requestsSent w) r status ->
  run srv (fetch r ;; Return tt) w = (Done tt, emit (Requested r) w).
Proof.
  intros (payload & E). rewrite run_bind, run_fetch, E. reflexivity.
Qed.

(** Delete and clear: request, refetch, re-render, whatever the statuses. *)
Lemma fire_then_refetch (srv : Server) (r : Request) (w : World) (status refetched : bool) :
  answered srv (requestsSent w) r status ->
  answered srv (S (requestsSent w)) GetQueue refetched ->
  let w' := snd (run srv ((fetch r ;; Return tt) ;; loadQueue ;; call renderQueue) w) in
  fst (run srv ((fetch r ;; Return tt) ;; loadQueue ;; call renderQueue) w) = Done tt
  /\ protocolTrace w'
     = (protocolTrace w
          ++ [Requested r; Requested GetQueue; QueueRendered (queueHtml (store w'))])%list
  /\ queueSection (page w') = queueHtml (store w').
Proof.
  intros A1 A2. cbv zeta.
  rewrite run_bind, (@run_fire srv r w status A1), run_bind.
  rewrite <- requestsSent_emit_request with (r := r) in A2.
  destruct (@protocolTrace_loadQueue P srv _ refetched A2) as (D & T).
  destruct (run srv loadQueue (emit (Requested r) w)) as [o w2].
  simpl in D, T. subst o. rewrite run_call. simpl.
  repeat split.
  rewrite protocolTrace_renderQueue, T, protocolTrace_emit. simpl.
  now rewrite <- !app_assoc.
Qed.

Lemma postAddQueue_reportsStatus (target : string) :
  reportsStatus (postAddQueue target) (PostAddQueue target).
Proof.
  intros srv w status (payload & E).
  unfold postAddQueue. rewrite run_bind, run_fetch, E. reflexivity.
Qed.

Lemma postImportQueue_reportsStatus (file : File) :
  reportsStatus (postImportQueue file) (PostImportQueue file).
Proof.
  intros srv w status (payload & E).
  unfold postImportQueue. rewrite run_bind, run_fetch, E. reflexivity.
Qed.

Lemma guardedRefetch_accepted (post : Task bool) (r : Request)
      (srv : Server) (w : World) (refetched : bool) :
  reportsStatus post r ->
  answered srv (requestsSent w) r true ->
  answered srv (S (requestsSent w)) GetQueue refetched ->
  exists html,
    protocolTrace (snd (run srv (guardedRefetch post) w))
    = (protocolTrace w ++ [Requested r; Requested GetQueue; QueueRendered html])%list.
Proof.
  intros R A1 A2. unfold guardedRefetch.
  rewrite run_bind, (R srv w true A1). simpl negb. cbv iota.
  rewrite run_bind.
  rewrite <- requestsSent_emit_request with (r := r) in A2.
  destruct (@protocolTrace_loadQueue P srv _ refetched A2) as (D & T).
  destruct (run srv loadQueue (emit (Requested r) w)) as [o w2].
  simpl in D, T. subst o. rewrite run_call. simpl.
  eexists. rewrite protocolTrace_renderQueue, T, protocolTrace_emit. simpl.
  now rewrite <- !app_assoc.
Qed.

Lemma guardedRefetch_refused (post : Task bool) (r : Request) (srv : Server) (w : World) :
  reportsStatus post r ->
  answered srv (requestsSent w) r false ->
  run srv (guardedRefetch post) w = (Done tt, emit (Requested r) w).
Proof.
  intros R A1. unfold guardedRefetch.
  rewrite run_bind, (R srv w false A1). reflexivity.
Qed.

Lemma addQueue_run (srv : Server) (target : string) (w : World) :
  let w1 := setBusy true (Some "Fetching video info...")
              (render (with_store (set_isAdding true) w)) in
  let body := run srv (guardedRefetch (postAddQueue target)) w1 in
  run srv (addQueue target) w
  = (fst body,
     render (with_store (set_isAdding false) (setBusy false None (snd body)))).
Proof.
  cbv zeta. unfold addQueue.
  rewrite run_bind, run_call. cbv iota beta.
  rewrite run_bind, run_call. cbv iota beta.
  rewrite run_bind, run_call. cbv iota beta.
  rewrite run_tryFinally. reflexivity.
Qed.

Lemma importQueue_run (srv : Server) (file : File) (w : World) :
  let w1 := setBusy true (Some "Loading items from file (yt-dlp can take a while)...") w in
  let body := run srv (guardedRefetch (postImportQueue file)) w1 in
  run srv (importQueue file) w = (fst body, setBusy false None (snd body)).
Proof.
  cbv zeta. unfold importQueue.
  rewrite run_bind, run_call. cbv iota beta.
  rewrite run_tryFinally. reflexivity.
Qed.

End Mutations.

Section Sequencing.
Context {P : Platform}.

Lemma rendersOnly_two (a b : string) : rendersOnly [QueueRendered a; QueueRendered b].
Proof.
  repeat constructor; eexists; reflexivity.
Qed.

(** The protocol trace of [addQueue] around the [try] block. *)
Lemma addQueue_protocol (srv : Server) (target : string) (w : World) :
  exists w1 before after,
    requestsSent w1 = requestsSent w
    /\ rendersOnly before /\ rendersOnly after
    /\ protocolTrace w1 = (protocolTrace w ++ before)%list
    /\ protocolTrace (snd (run srv (addQueue target) w))
       = (protocolTrace (snd (run srv (guardedRefetch (postAddQueue target)) w1))
            ++ after)%list.
Proof.
  pose proof (addQueue_run srv target w) as R. cbv zeta in R.
  set (w0 := render (with_store (set_isAdding true) w)) in *.
  set (w1 := setBusy true (Some "Fetching video info...") w0) in *.
  set (w2 := snd (run srv (guardedRefetch (postAddQueue target)) w1)) in *.
  destruct (protocolTrace_setBusy true (Some "Fetching video info...") w0) as (h1 & T1).
  destruct (protocolTrace_setBusy false None w2) as (h3 & T3).
  exists w1,
    [QueueRendered (queueHtml (store (with_store (set_isAdding true) w))); QueueRendered h1],
    [QueueRendered h3;
     QueueRendered (queueHtml (store (with_store (set_isAdding false)
                                        (setBusy false None w2))))].
  split; [|split; [apply rendersOnly_two|split; [apply rendersOnly_two|split]]].
  - unfold w1. rewrite requestsSent_setBusy. unfold w0. rewrite requestsSent_render.
    reflexivity.
  - fold w1 in T1. rewrite T1. unfold w0. rewrite protocolTrace_render.
    rewrite <- app_assoc. reflexivity.
  - rewrite R. cbn [snd]. rewrite protocolTrace_render.
    rewrite protocolTrace_with_store, T3, <- app_assoc. reflexivity.
Qed.

(** The protocol trace of [importQueue] around the [try] block. *)
Lemma importQueue_protocol (srv : Server) (file : File) (w : World) :
  exists w1 before after,
    requestsSent w1 = requestsSent w
    /\ rendersOnly before /\ rendersOnly after
    /\ protocolTrace w1 = (protocolTrace w ++ before)%list
    /\ protocolTrace (snd (run srv (importQueue file) w))
       = (protocolTrace (snd (run srv (guardedRefetch (postImportQueue file)) w1))
            ++ after)%list.
Proof.
  pose proof (importQueue_run srv file w) as R. cbv zeta in R.
  set (w1 := setBusy true
               (Some "Loading items from file (yt-dlp can take a while)...") w) in *.
  set (w2 := snd (run srv (guardedRefetch (postImportQueue file)) w1)) in *.
  destruct (protocolTrace_setBusy true
              (Some "Loading items from file (yt-dlp can take a while)...") w) as (h1 & T1).
  destruct (protocolTrace_setBusy false None w2) as (h3 & T3).
  exists w1, [QueueRendered h1], [QueueRendered h3].
  split; [|split; [|split; [|split]]].
  - unfold w1. now rewrite requestsSent_setBusy.
  - repeat constructor. eexists. reflexivity.
  - repeat constructor. eexists. reflexivity.
  - exact T1.
  - rewrite R. cbn [snd]. exact T3.
Qed.

(** Around a guarded refetch whose mutation is accepted. *)
Lemma guarded_action_accepted (action : Task unit) (post : Task bool) (r : Request)
      (srv : Server) (w : World) (refetched : bool) :
  reportsStatus post r ->
  (exists w1 before after,
      requestsSent w1 = requestsSent w
      /\ rendersOnly before /\ rendersOnly after
      /\ protocolTrace w1 = (protocolTrace w ++ before)%list
      /\ protocolTrace (snd (run srv action w))
         = (protocolTrace (snd (run srv (guardedRefetch post) w1)) ++ after)%list) ->
  answered srv (requestsSent w) r true ->
  answered srv (S (requestsSent w)) GetQueue refetched ->
  exists before html after,
    rendersOnly before /\ rendersOnly after
    /\ protocolTrace (snd (run srv action w))
       = (protocolTrace w ++ before
            ++ [Requested r; Requested GetQueue; QueueRendered html] ++ after)%list.
Proof.
  intros R (w1 & before & after & N & Rb & Ra & T1 & T) A1 A2.
  rewrite <- N in A1, A2.
  destruct (@guardedRefetch_accepted P post r srv w1 refetched R A1 A2) as (html & G).
  exists before, html, after. split; [exact Rb|]. split; [exact Ra|].
  rewrite T, G, T1. rewrite <- !app_assoc. reflexivity.
Qed.

(** Around a guarded refetch whose mutation is refused. *)
Lemma guarded_action_refused (action : Task unit) (post : Task bool) (r : Request)
      (srv : Server) (w : World) :
  reportsStatus post r ->
  (exists w1 before after,
      requestsSent w1 = requestsSent w
      /\ rendersOnly before /\ rendersOnly after
      /\ protocolTrace w1 = (protocolTrace w ++ before)%list
      /\ protocolTrace (snd (run srv action w))
         = (protocolTrace (snd (run srv (guardedRefetch post) w1)) ++ after)%list) ->
  answered srv (requestsSent w) r false ->
  exists before after,
    rendersOnly before /\ rendersOnly after
    /\ protocolTrace (snd (run srv action w))
       = (protocolTrace w ++ before ++ [Requested r] ++ after)%list.
Proof.
  intros R (w1 & before & after & N & Rb & Ra & T1 & T) A1.
  rewrite <- N in A1.
  exists before, after. split; [exact Rb|]. split; [exact Ra|].
  rewrite T, (@guardedRefetch_refused P post r srv w1 R A1). cbn [snd].
  rewrite protocolTrace_emit, T1. cbn [protocolEvent]. rewrite <- !app_assoc. reflexivity.
Qed.

(** A refused add: the request among re-renders, and no refetch. *)
Lemma addQueue_refused_protocol (srv : Server) (target : string) (w : World) :
  answered srv (requestsSent w) (PostAddQueue target) false ->
  exists before after,
    rendersOnly before /\ rendersOnly after
    /\ protocolTrace (snd (run srv (addQueue target) w))
       = (protocolTrace w ++ before ++ [Requested (PostAddQueue target)] ++ after)%list.
Proof.
  intros A1.
  eapply guarded_action_refused; eauto using postAddQueue_reportsStatus, addQueue_protocol.
Qed.

Lemma rendersOnly_no_request (events : list Event) (r : Request) :
  rendersOnly events -> ~ In (Requested r) events.
Proof.
  intros R I. unfold rendersOnly in R. rewrite Forall_forall in R.
  destruct (R _ I) as (html & E). discriminate E.
Qed.

(** C2, as the code has it.  Delete and clear perform the mutation request,
    then the queue refetch, then a re-render of the queue section, whatever
    status the mutation reports, and the section then shows the store.  Add
    and import perform the same three steps when the mutation reports
    success; when it reports failure they issue no refetch, and the protocol
    trace holds the mutation request among re-renders only. *)
Theorem mutation_refetch_sequencing :
  (forall item, refetchesAfter (deleteItem item) (DeleteQueueItem item))
  /\ (forall mode, refetchesAfter (clearQueue mode) (PostClearQueue mode))
  /\ (forall item srv w status refetched,
        answered srv (requestsSent w) (DeleteQueueItem item) status ->
        answered srv (S (requestsSent w)) GetQueue refetched ->
        let w' := snd (run srv (deleteItem item) w) in
        protocolTrace w'
        = (protocolTrace w ++ [Requested (DeleteQueueItem item); Requested GetQueue;
                               QueueRendered (queueHtml (store w'))])%list
        /\ queueSection (page w') = queueHtml (store w'))
  /\ (forall target srv w refetched,
        answered srv (requestsSent w) (PostAddQueue target) true ->
        answered srv (S (requestsSent w)) GetQueue refetched ->
        exists before html after,
          rendersOnly before /\ rendersOnly after
          /\ protocolTrace (snd (run srv (addQueue target) w))
             = (protocolTrace w ++ before
                  ++ [Requested (PostAddQueue target); Requested GetQueue;
                      QueueRendered html] ++ after)%list)
  /\ (forall file srv w refetched,
        answered srv (requestsSent w) (PostImportQueue file) true ->
        answered srv (S (requestsSent w)) GetQueue refetched ->
        exists before html after,
          rendersOnly before /\ rendersOnly after
          /\ protocolTrace (snd (run srv (importQueue file) w))
             = (protocolTrace w ++ before
                  ++ [Requested (PostImportQueue file); Requested GetQueue;
                      QueueRendered html] ++ after)%list)
  /\ (forall target srv w,
        answered srv (requestsSent w) (PostAddQueue target) false ->
        exists before after,
          rendersOnly before /\ rendersOnly after
          /\ protocolTrace (snd (run srv (addQueue target) w))
             = (protocolTrace w ++ before ++ [Requested (PostAddQueue target)] ++ after)%list)
  /\ (forall file srv w,
        answered srv (requestsSent w) (PostImportQueue file) false ->
        exists before after,
          rendersOnly before /\ rendersOnly after
          /\ protocolTrace (snd (run srv (importQueue file) w))
             = (protocolTrace w ++ before ++ [Requested (PostImportQueue file)] ++ after)%list).
Proof.
  repeat apply conj.
  - intros item srv w status refetched A1 A2.
    destruct (@fire_then_refetch P srv _ w status refetched A1 A2) as (_ & T & _).
    exists [], (queueHtml (store (snd (run srv (deleteItem item) w)))), [].
    exact T.
  - intros mode srv w status refetched A1 A2.
    destruct (@fire_then_refetch P srv _ w status refetched A1 A2) as (_ & T & _).
    exists [], (queueHtml (store (snd (run srv (clearQueue mode) w)))), [].
    exact T.
  - intros item srv w status refetched A1 A2.
    destruct (@fire_then_refetch P srv _ w status refetched A1 A2) as (_ & T & Q).
    split; [exact T | exact Q].
  - intros target srv w refetched A1 A2.
    eapply guarded_action_accepted; eauto using postAddQueue_reportsStatus, addQueue_protocol.
  - intros file srv w refetched A1 A2.
    eapply guarded_action_accepted;
      eauto using postImportQueue_reportsStatus, importQueue_protocol.
  - intros target srv w A1. now apply addQueue_refused_protocol.
  - intros file srv w A1.
    eapply guarded_action_refused;
      eauto using postImportQueue_reportsStatus, importQueue_protocol.
Qed.

End Sequencing.

(** ** Blocking operations restore the busy fields *)

Section Cleanup.
Context {P : Platform}.

Lemma busyFields_loadQueue_apply (q : list QueueItem) (w : World) :
  busyFields (store (loadQueue_apply q w)) = busyFields (store w).
Proof.
  destruct (previewGone q (store w)) eqn:G.
  - rewrite (@loadQueue_apply_gone P q w G), store_syncPreviewPlayer. reflexivity.
  - rewrite (@loadQueue_apply_kept P q w G). reflexivity.
Qed.

Lemma busyFields_loadQueue (srv : Server) (w : World) :
  busyFields (store (snd (run srv loadQueue w))) = busyFields (store w).
Proof.
  rewrite run_loadQueue.
  destruct (srv (requestsSent w) GetQueue) as [|[|] payload]; cbn [snd];
    [reflexivity | | reflexivity].
  now rewrite busyFields_loadQueue_apply.
Qed.

(** The [try] block of add and import never writes the busy fields,
    however its requests settle. *)
Lemma busyFields_guardedRefetch (srv : Server) (r : Request) (w : World) :
  busyFields (store (snd (run srv
      (guardedRefetch (response <- fetch r ;; Return (ok response))) w)))
  = busyFields (store w).
Proof.
  unfold guardedRefetch. rewrite !run_bind, run_fetch.
  destruct (srv (requestsSent w) r) as [|[|] payload]; cbn [snd negb ok run];
    try reflexivity.
  rewrite run_bind.
  pose proof (busyFields_loadQueue srv (emit (Requested r) w)) as L.
  destruct (run srv loadQueue (emit (Requested r) w)) as [[[]|] w2]; cbn [snd] in *;
    [rewrite run_call; cbn [snd]; rewrite store_renderQueue|]; exact L.
Qed.

Lemma idle_after_pair (message : option string) (f : World -> World) (w : World) :
  (forall v, busyFields (store (f v)) = busyFields (store v)) ->
  idle (store w) ->
  idle (store (setBusy false None (f (setBusy true message w)))).
Proof.
  intros F (C & B & M).
  pose proof (f_equal (fun t => fst (fst t)) (F (setBusy true message w))) as E1.
  cbv beta in E1. unfold busyFields in E1. cbn [fst] in E1.
  rewrite store_begin in E1.
  assert (busyCount (store (f (setBusy true message w))) = 1) as One.
  { rewrite E1. destruct (truthy_opt message); simpl; lia. }
  rewrite store_finish. cbv zeta. cbn [busyCount set_busyCount]. rewrite One.
  repeat split.
Qed.

(** However its requests settle, a complete [importQueue] started from an
    idle store ends in an idle store: the decrement sits in [finally]. *)
Lemma importQueue_leaves_idle (srv : Server) (file : File) (w : World) :
  idle (store w) -> idle (store (snd (run srv (importQueue file) w))).
Proof.
  intros I. rewrite importQueue_run. cbv zeta. cbn [snd].
  apply (idle_after_pair
           (Some "Loading items from file (yt-dlp can take a while)...")
           (fun v => snd (run srv (guardedRefetch (postImportQueue file)) v))).
  - intros v. apply busyFields_guardedRefetch.
  - exact I.
Qed.

End Cleanup.

(** ** The two ways of submitting a URL *)

Section Submission.
Context {P : Platform}.

(** C9.  The click on Add and the Enter key in the field are the same
    asynchronous function, hence behave alike against every back end and
    from every state: both trim the field; on an empty value they do
    nothing; on an invalid value they set the same [urlError] and render; on
    a valid value they clear [urlError], run [addQueue] on the trimmed value
    and then clear the field.  Any other key does nothing. *)
Theorem add_paths_agree (srv : Server) (w : World) :
  addBtn_click = urlInput_keydown "Enter"
  /\ run srv addBtn_click w = run srv (urlInput_keydown "Enter") w
  /\ (forall key, key <> "Enter" -> run srv (urlInput_keydown key) w = (Done tt, w))
  /\ (trim (urlInput (page w)) = "" ->
        run srv (urlInput_keydown "Enter") w = (Done tt, w))
  /\ (trim (urlInput (page w)) <> "" ->
      isValidYoutubeUrl (trim (urlInput (page w))) = false ->
        run srv (urlInput_keydown "Enter") w
        = (Done tt, render (with_store (set_urlError invalidUrlMessage) w)))
  /\ (trim (urlInput (page w)) <> "" ->
      isValidYoutubeUrl (trim (urlInput (page w))) = true ->
        run srv (urlInput_keydown "Enter") w
        = run srv (addQueue (trim (urlInput (page w))) ;;
                   call (with_page (set_urlInput "")))
              (with_store (set_urlError "") w)).
Proof.
  assert (addBtn_click = urlInput_keydown "Enter") as Same by reflexivity.
  repeat apply conj.
  - exact Same.
  - now rewrite Same.
  - intros key K. unfold urlInput_keydown.
    apply String.eqb_neq in K. now rewrite K.
  - intros E. rewrite <- Same. unfold addBtn_click.
    cbn [run]. rewrite E. reflexivity.
  - intros T V. rewrite <- Same. unfold addBtn_click.
    cbn [run]. apply truthy_true in T. rewrite T, V. reflexivity.
  - intros T V. rewrite <- Same. unfold addBtn_click.
    cbn [run]. apply truthy_true in T. rewrite T, V. cbn [negb].
    rewrite run_bind, run_call. reflexivity.
Qed.

End Submission.

(* ------------------------------------------------------------------ *)
(** * Further properties of the code *)

(** ** escapeHtml *)

Lemma replaceAll_app (c : ascii) (r a b : string) :
  replaceAll c r (a ++ b) = replaceAll c r a ++ replaceAll c r b.
Proof.
  induction a as [|x a IH]; simpl; [reflexivity|].
  destruct (Ascii.eqb x c); simpl; rewrite IH; [now rewrite append_assoc | reflexivity].
Qed.

(** The five replacements in a row act on each character once: an ampersand
    written by a later replacement is never escaped again. *)
Lemma escapeHtml_cons (a : ascii) (rest : string) :
  escapeHtml (String a rest) = escapeChar a ++ escapeHtml rest.
Proof.
  unfold escapeHtml, escapeChar.
  cbn [replaceAll].
  destruct (Ascii.eqb a "&") eqn:E1.
  - rewrite !replaceAll_app. reflexivity.
  - cbn [replaceAll]. destruct (Ascii.eqb a "<") eqn:E2.
    + rewrite !replaceAll_app. reflexivity.
    + cbn [replaceAll]. destruct (Ascii.eqb a ">") eqn:E3.
      * rewrite !replaceAll_app. reflexivity.
      * cbn [replaceAll]. destruct (Ascii.eqb a (ascii_of_nat 34)) eqn:E4.
        -- rewrite !replaceAll_app. reflexivity.
        -- cbn [replaceAll]. destruct (Ascii.eqb a "'") eqn:E5; reflexivity.
Qed.

Lemma occurs_app (c : ascii) (a b : string) :
  occurs c (a ++ b) = orb (occurs c a) (occurs c b).
Proof.
  induction a as [|x a IH]; simpl; [reflexivity|].
  rewrite IH. now rewrite orb_assoc.
Qed.

Lemma escapeChar_safe (a c : ascii) :
  isMarkupChar c = true -> c <> "&"%char -> occurs c (escapeChar a) = false.
Proof.
  intros M N.
  assert (c = "<" \/ c = ">" \/ c = ascii_of_nat 34 \/ c = "'")%char as Which.
  { unfold isMarkupChar in M.
    repeat (apply orb_true_iff in M; destruct M as [M | M]);
      apply Ascii.eqb_eq in M; auto. contradiction. }
  unfold escapeChar.
  destruct (Ascii.eqb_spec a "&"); [destruct Which as [-> | [-> | [-> | ->]]]; reflexivity|].
  destruct (Ascii.eqb_spec a "<"); [destruct Which as [-> | [-> | [-> | ->]]]; reflexivity|].
  destruct (Ascii.eqb_spec a ">"); [destruct Which as [-> | [-> | [-> | ->]]]; reflexivity|].
  destruct (Ascii.eqb_spec a (ascii_of_nat 34));
    [destruct Which as [-> | [-> | [-> | ->]]]; reflexivity|].
  destruct (Ascii.eqb_spec a "'"); [destruct Which as [-> | [-> | [-> | ->]]]; reflexivity|].
  cbn [occurs]. rewrite orb_false_r. apply Ascii.eqb_neq.
  destruct Which as [-> | [-> | [-> | ->]]]; assumption.
Qed.

Lemma escapeHtml_no_char (c : ascii) (value : string) :
  isMarkupChar c = true -> c <> "&"%char -> occurs c (escapeHtml value) = false.
Proof.
  intros M N. induction value as [|a rest IH]; [reflexivity|].
  rewrite escapeHtml_cons, occurs_app, IH, (escapeChar_safe a c M N). reflexivity.
Qed.

(** X1.  Whatever the input, the output of [escapeHtml] holds no [<], no
    [>], no double quote and no single quote: placed in an attribute value
    or in text it cannot close the attribute or open a tag. *)
Theorem escapeHtml_output_safe (value : string) :
  occurs "<" (escapeHtml value) = false
  /\ occurs ">" (escapeHtml value) = false
  /\ occurs (ascii_of_nat 34) (escapeHtml value) = false
  /\ occurs "'" (escapeHtml value) = false.
Proof.
  repeat apply conj; apply escapeHtml_no_char; try reflexivity; discriminate.
Qed.

Lemma escapeHtml_app (a b : string) :
  escapeHtml (a ++ b) = escapeHtml a ++ escapeHtml b.
Proof.
  induction a as [|x a IH]; [reflexivity|].
  change (String x a ++ b) with (String x (a ++ b)).
  rewrite !escapeHtml_cons, IH. now rewrite append_assoc.
Qed.

(** X2.  [escapeHtml] works character by character: it distributes over
    concatenation, it escapes each of the five characters exactly once (the
    ampersands it writes itself are not escaped again), and it returns a
    text free of the five characters unchanged. *)
Theorem escapeHtml_characterwise (a b : string) :
  escapeHtml (a ++ b) = escapeHtml a ++ escapeHtml b
  /\ (forall (c : ascii) (rest : string),
        escapeHtml (String c rest) = escapeChar c ++ escapeHtml rest)
  /\ (plainText a = true -> escapeHtml a = a).
Proof.
  repeat apply conj.
  - apply escapeHtml_app.
  - intros c rest. apply escapeHtml_cons.
  - induction a as [|x a IH]; [reflexivity|].
    cbn [plainText]. intros H. apply andb_true_iff in H. destruct H as (H1 & H2).
    rewrite escapeHtml_cons, (IH H2).
    unfold isMarkupChar in H1. apply negb_true_iff in H1.
    repeat (apply orb_false_iff in H1; destruct H1 as (? & H1)).
    unfold escapeChar.
    repeat match goal with E : Ascii.eqb _ _ = false |- _ => rewrite E; clear E end.
    reflexivity.
Qed.

(** ** The busy counter without matching calls *)

Section BusyBounds.
Context {P : Platform}.

Lemma applyStep_keeps_invariant (c : Step) (w : World) :
  framed c -> busyInvariant (store w) -> busyInvariant (store (applyStep c w)).
Proof.
  intros F I.
  destruct (Z_le_gt_dec 0 (busyCount (store w) + weight c)) as [L | G].
  - now destruct (applyStep_invariant c w F I L).
  - (* only an unanswered setBusy(false) at zero gets here *)
    destruct I as (N & B & M). destruct c as [message| |f]; cbn [weight] in G; try lia.
    assert (busyCount (store w) = 0) as Z0 by lia.
    unfold applyStep. rewrite store_finish. cbv zeta. cbn [busyCount set_busyCount].
    rewrite Z0. cbn. repeat split; auto with zarith.
Qed.

(** X3.  Whatever [setBusy] calls are made, matched or not, from an idle
    store: [busyCount] never goes below zero (a [setBusy(false)] with nothing
    in flight leaves it at zero), [isBusy] holds exactly when it is positive,
    and [busyMessage] is empty whenever it is zero. *)
Theorem busy_count_never_negative (w0 : World) (cs : list Step) :
  idle (store w0) ->
  Forall framed cs ->
  let s := store (applySteps cs w0) in
  0 <= busyCount s
  /\ (isBusy s = true <-> 0 < busyCount s)
  /\ (busyCount s = 0 -> busyMessage s = "")
  /\ (busyCount s = 0 -> idle (store (setBusy false None (applySteps cs w0)))).
Proof.
  intros I0 F. cbv zeta.
  assert (busyInvariant (store (applySteps cs w0))) as I.
  { apply idle_invariant in I0. revert w0 I0.
    induction F as [|c cs Fc Fcs IH]; intros w0 I0; [exact I0|].
    change (applySteps (c :: cs) w0) with (applySteps cs (applyStep c w0)).
    apply IH. now apply applyStep_keeps_invariant. }
  pose proof (applyStep_keeps_invariant Finish _ Logic.I I) as I'.
  destruct I as (N & B & M).
  repeat apply conj; try assumption.
  - rewrite B. apply Z.ltb_lt.
  - rewrite B. apply Z.ltb_lt.
  - intros Z0. unfold applyStep in I'. destruct I' as (N' & B' & M').
    assert (busyCount (store (setBusy false None (applySteps cs w0))) = 0) as Z1.
    { rewrite store_finish. cbv zeta. cbn [busyCount set_busyCount]. rewrite Z0. reflexivity. }
    unfold idle. rewrite B', Z1. auto.
Qed.

End BusyBounds.

(** ** What rendering leaves on the page *)

Section Rendering.
Context {P : Platform}.

Lemma set_playerSrc_same (d : Dom) : set_playerSrc (playerSrc d) d = d.
Proof. destruct d. reflexivity. Qed.

Lemma page_syncPreviewPlayer (autoplay : bool) (w : World) :
  page (syncPreviewPlayer autoplay w)
  = set_playerSrc (srcAfterSync (nextSrc (store w)) (playerSrc (page w)))
      (set_previewStatus (previewStatusText (store w)) (page w)).
Proof.
  unfold syncPreviewPlayer, srcAfterSync. cbv zeta.
  change (store (with_page (set_previewStatus (previewStatusText (store w))) w))
    with (store w).
  change (playerSrc (page w))
    with (playerSrc (set_previewStatus (previewStatusText (store w)) (page w))).
  set (d := set_previewStatus (previewStatusText (store w)) (page w)).
  change (playerSrc (page (with_page (set_previewStatus (previewStatusText (store w))) w)))
    with (playerSrc d).
  change (playerSrc (page (emit (Player Pause)
            (with_page (set_previewStatus (previewStatusText (store w))) w))))
    with (playerSrc d).
  generalize (nextSrc (store w)) as next. intros next.
  destruct (truthy next) eqn:N; cbn [negb andb].
  - destruct (String.eqb (playerSrc d) next) eqn:E; cbn [negb andb].
    + apply String.eqb_eq in E. rewrite <- E, set_playerSrc_same.
      destruct autoplay; reflexivity.
    + destruct autoplay; reflexivity.
  - apply truthy_false in N. subst next.
    destruct (truthy (playerSrc d)) eqn:S; [reflexivity|].
    apply truthy_false in S. rewrite <- S at 1. rewrite set_playerSrc_same. reflexivity.
Qed.

(** Two pages with the same elements are the same page. *)
Lemma dom_ext (d e : Dom) :
  versionCurrent d = versionCurrent e ->
  versionLatest d = versionLatest e ->
  versionConsistency d = versionConsistency e ->
  formatSelect d = formatSelect e ->
  exportFormatSelect d = exportFormatSelect e ->
  activeElement d = activeElement e ->
  busyStatus d = busyStatus e ->
  urlErrorBox d = urlErrorBox e ->
  urlStatus d = urlStatus e ->
  previewStatus d = previewStatus e ->
  playerSrc d = playerSrc e ->
  extraActionsOpen d = extraActionsOpen e ->
  narrowViewport d = narrowViewport e ->
  queueSection d = queueSection e ->
  urlInput d = urlInput e ->
  importInput d = importInput e ->
  d = e.
Proof.
  destruct d, e. cbn. intros. subst. reflexivity.
Qed.

Lemma page_render_tail (v : World) :
  page (renderQueue (syncActionsCollapse (syncPreviewPlayer false v)))
  = set_activeElement (focusAfterReplace (activeElement (page v)))
      (set_queueSection (queueHtml (store v))
         (set_extraActionsOpen (negb (narrowViewport (page v)))
            (set_playerSrc (srcAfterSync (nextSrc (store v)) (playerSrc (page v)))
               (set_previewStatus (previewStatusText (store v)) (page v))))).
Proof.
  unfold renderQueue. cbv zeta. cbn [page emit with_page].
  rewrite store_syncActionsCollapse, store_syncPreviewPlayer.
  unfold syncActionsCollapse.
  rewrite !page_syncPreviewPlayer.
  cbn [narrowViewport set_playerSrc set_previewStatus].
  destruct (narrowViewport (page v)); cbn [page with_page negb];
    rewrite page_syncPreviewPlayer; reflexivity.
Qed.

Lemma page_render (w : World) : page (render w) = renderedPage (store w) (page w).
Proof.
  unfold render. cbv zeta. rewrite page_render_tail.
  apply dom_ext; reflexivity.
Qed.

(** A second synchronisation with the same computed URL leaves the getter's
    value where the first one put it. *)
Lemma srcAfterSync_twice (next current : string) :
  srcAfterSync next (srcAfterSync next current) = srcAfterSync next current.
Proof.
  unfold srcAfterSync.
  destruct (truthy next) eqn:N; cbn [andb]; [|reflexivity].
  destruct (String.eqb current next) eqn:E; cbn [negb].
  - rewrite String.eqb_refl. reflexivity.
  - destruct (String.eqb (src_reflected next) next) eqn:R; cbn [negb]; [|reflexivity].
    apply String.eqb_eq in R. exact (eq_sym R).
Qed.

Lemma focusAfterReplace_twice (f : Focus) :
  focusAfterReplace (focusAfterReplace f) = focusAfterReplace f.
Proof. destruct f; reflexivity. Qed.

Lemma renderedPage_twice (s : ClientState) (d : Dom) :
  renderedPage s (renderedPage s d) = renderedPage s d.
Proof.
  apply dom_ext; unfold renderedPage;
    cbn [versionCurrent versionLatest versionConsistency formatSelect exportFormatSelect
         activeElement busyStatus urlErrorBox urlStatus previewStatus playerSrc
         extraActionsOpen narrowViewport queueSection urlInput importInput];
    try reflexivity.
  - destruct (activeElement d); reflexivity.
  - destruct (activeElement d); reflexivity.
  - apply focusAfterReplace_twice.
  - apply srcAfterSync_twice.
Qed.

(** X4.  A second [render] leaves the store and every element of the page
    as the first one left them.  On the player it calls [pause] when no
    stream URL is set.  When one is set, it assigns the audio source again
    exactly when the first render had to assign it and the source getter
    does not return the computed URL as it was assigned (the browser
    serialises it differently); otherwise it makes no call on the player. *)
Theorem render_idempotent (w : World) :
  store (render (render w)) = store w
  /\ page (render (render w)) = page (render w)
  /\ trace (render (render w))
     = (trace (render w)
          ++ map Player
               (if truthy (nextSrc (store w))
                then (if orb (String.eqb (playerSrc (page w)) (nextSrc (store w)))
                             (String.eqb (src_reflected (nextSrc (store w)))
                                         (nextSrc (store w)))
                      then []
                      else [SetSrc (nextSrc (store w))])
                else [Pause])
          ++ [QueueRendered (queueHtml (store w))])%list.
Proof.
  repeat apply conj.
  - now rewrite !store_render.
  - rewrite !page_render, store_render. apply renderedPage_twice.
  - rewrite (trace_render (render w)), store_render, page_render.
    cbn [playerSrc renderedPage]. unfold playerOps, srcAfterSync.
    generalize (nextSrc (store w)) as next. intros next.
    destruct (truthy next) eqn:N; cbn [negb andb]; [|rewrite N; reflexivity].
    destruct (String.eqb (playerSrc (page w)) next) eqn:E; cbn [negb orb].
    + rewrite String.eqb_refl. reflexivity.
    + destruct (String.eqb (src_reflected next) next); reflexivity.
Qed.

(** X5.  [syncPreviewPlayer] leaves the store as it was.  When the source
    getter already returns the computed stream URL, or no stream URL is set,
    the getter returns the computed URL afterwards (the empty string when
    none is set); otherwise the source is assigned and the getter returns
    what the browser makes of the computed URL.  The status line reads
    "Idle" without a preview id; with one it reads "Now playing: " followed
    by the trimmed title and artist of the previewed item joined by a dash
    when both are non-empty, by the one that is non-empty otherwise, and by
    the raw id when both are empty or the item is not in the queue. *)
Theorem syncPreviewPlayer_result (autoplay : bool) (w : World) :
  let w' := syncPreviewPlayer autoplay w in
  let key := preview_id (preview (store w)) in
  store w' = store w
  /\ (playerSrc (page w) = nextSrc (store w) -> playerSrc (page w') = nextSrc (store w))
  /\ (nextSrc (store w) <> "" -> playerSrc (page w) <> nextSrc (store w) ->
        playerSrc (page w') = src_reflected (nextSrc (store w)))
  /\ (preview_url (preview (store w)) = "" -> playerSrc (page w') = "")
  /\ (key = "" -> previewStatus (page w') = "Idle")
  /\ (key <> "" ->
        find (fun i => String.eqb (id i) key) (queue (store w)) = None ->
        previewStatus (page w') = "Now playing: " ++ key)
  /\ (forall item, key <> "" ->
        find (fun i => String.eqb (id i) key) (queue (store w)) = Some item ->
        previewStatus (page w')
        = "Now playing: " ++ playingLabel (trim (title item)) (trim (artist item)) key).
Proof.
  cbv zeta. rewrite page_syncPreviewPlayer. cbn [playerSrc previewStatus set_playerSrc
                                               set_previewStatus].
  repeat apply conj.
  - apply store_syncPreviewPlayer.
  - intros ->. apply srcAfterSync_same.
  - intros N D. unfold srcAfterSync.
    apply truthy_true in N. apply String.eqb_neq in D. rewrite N, D. reflexivity.
  - intros U. unfold nextSrc. now rewrite U.
  - intros K. unfold previewStatusText. now rewrite K.
  - intros K F. unfold previewStatusText. apply truthy_true in K. rewrite K, F. reflexivity.
  - intros item K F. unfold previewStatusText, playingLabel.
    apply truthy_true in K. rewrite K, F. cbv zeta.
    destruct (truthy (trim (title item))) eqn:T, (truthy (trim (artist item))) eqn:A;
      cbn [orb filter]; rewrite ?T, ?A; cbn [join]; try reflexivity.
Qed.

End Rendering.

(** ** Calls running among other code *)

(** With nothing else running, [runAmong] is [run]. *)
Lemma runAmong_quiet {A : Type} (srv : Server) (t : Task A) :
  forall w : World, runAmong quiet srv t w = run srv t w.
Proof.
  induction t as [a | | g k IH | k IH | r k IH]; intros w; simpl; auto.
Qed.

Lemma runAmong_bind {A B : Type} (others : Interference) (srv : Server)
      (t : Task A) (f : A -> Task B) :
  forall w : World,
    runAmong others srv (bind t f) w
    = match runAmong others srv t w with
      | (Done a, w1) => runAmong others srv (f a) w1
      | (Thrown, w1) => (Thrown, w1)
      end.
Proof.
  induction t as [a | | g k IH | k IH | r k IH]; intros w; simpl; auto.
Qed.

Lemma runAmong_tryFinally {A : Type} (others : Interference) (srv : Server)
      (t : Task A) (cleanup : World -> World) :
  forall w : World,
    runAmong others srv (tryFinally t cleanup) w
    = (fst (runAmong others srv t w), cleanup (snd (runAmong others srv t w))).
Proof.
  induction t as [a | | g k IH | k IH | r k IH]; intros w; simpl; auto.
Qed.

Lemma runAmong_call (others : Interference) (srv : Server) (f : World -> World) (w : World) :
  runAmong others srv (call f) w = (Done tt, f w).
Proof. reflexivity. Qed.

Lemma runAmong_fetch (others : Interference) (srv : Server) (r : Request) (w : World) :
  runAmong others srv (fetch r) w
  = match srv (requestsSent w) r with
    | Rejected => (Thrown, others (requestsSent w) (emit (Requested r) w))
    | Resolved status payload =>
        (Done {| ok := status; json := payload |},
         others (requestsSent w) (emit (Requested r) w))
    end.
Proof.
  simpl. destruct (srv (requestsSent w) r); reflexivity.
Qed.

(** What every synchronous section of a call keeps, and the other code and
    the request log keep too, holds at the end of the call if it held at its
    start, however the requests settle. *)
Lemma runAmong_preserves {A : Type} (I : World -> Prop) (others : Interference)
      (srv : Server) (t : Task A) :
  (forall n v, I v -> I (others n v)) ->
  (forall e v, I v -> I (emit e v)) ->
  preserves I t ->
  forall w : World, I w -> I (snd (runAmong others srv t w)).
Proof.
  intros O E.
  induction t as [a | | g k IH | k IH | r k IH]; intros Pt w Iw; simpl in *.
  - exact Iw.
  - exact Iw.
  - destruct Pt as (F & K). apply IH; [exact K | apply F, Iw].
  - apply IH; [apply Pt | exact Iw].
  - apply IH; [apply Pt | apply O, E, Iw].
Qed.

Lemma preserves_bind {A B : Type} (I : World -> Prop) (t : Task A) (f : A -> Task B) :
  preserves I t -> (forall a, preserves I (f a)) -> preserves I (bind t f).
Proof.
  intros Pt Pf.
  induction t as [a | | g k IH | k IH | r k IH]; simpl in *.
  - apply Pf.
  - exact Logic.I.
  - destruct Pt as (F & K). split; [exact F | apply IH, K].
  - intros w. apply IH, Pt.
  - intros o. apply IH, Pt.
Qed.

Lemma preserves_fetch (I : World -> Prop) (r : Request) : preserves I (fetch r).
Proof.
  intros o. destruct o; exact Logic.I.
Qed.

(** ** The cleanup of add and import *)

Section GuaranteedCleanup.
Context {P : Platform}.

Lemma preserves_loadQueue (I : World -> Prop) :
  (forall q w, I w -> I (loadQueue_apply q w)) -> preserves I loadQueue.
Proof.
  intros L. unfold loadQueue, fetchQueue.
  apply preserves_bind.
  - apply preserves_bind; [apply preserves_fetch|].
    intros response. destruct (negb (ok response)); exact Logic.I.
  - intros [q|]; [|exact Logic.I]. split; [apply L | exact Logic.I].
Qed.

(** The [try] block shared by add and import keeps what [loadQueue] and
    [renderQueue] keep. *)
Lemma preserves_guardedRefetch (I : World -> Prop) (r : Request) :
  (forall q w, I w -> I (loadQueue_apply q w)) ->
  (forall w, I w -> I (renderQueue w)) ->
  preserves I (guardedRefetch (response <- fetch r ;; Return (ok response))).
Proof.
  intros L R. unfold guardedRefetch.
  apply preserves_bind.
  - apply preserves_bind; [apply preserves_fetch|]. intros response. exact Logic.I.
  - intros status. destruct (negb status); [exact Logic.I|].
    apply preserves_bind; [apply preserves_loadQueue, L|].
    intros _. split; [exact R | exact Logic.I].
Qed.

(** Among other code, the [try] block keeps every property of the three
    busy fields that the other code keeps. *)
Lemma guardedRefetch_among_busy (I : World -> Prop) (others : Interference)
      (srv : Server) (r : Request) (w : World) :
  (forall v v', busyFields (store v') = busyFields (store v) -> I v -> I v') ->
  (forall n v, I v -> I (others n v)) ->
  I w ->
  I (snd (runAmong others srv
            (guardedRefetch (response <- fetch r ;; Return (ok response))) w)).
Proof.
  intros Ext O Iw.
  apply runAmong_preserves; [exact O | | | exact Iw].
  - intros e v. apply Ext. reflexivity.
  - apply preserves_guardedRefetch.
    + intros q v. apply Ext. apply busyFields_loadQueue_apply.
    + intros v. apply Ext. reflexivity.
Qed.

Lemma busyInvariant_ext (s t : ClientState) :
  busyFields t = busyFields s -> busyInvariant s -> busyInvariant t.
Proof.
  unfold busyFields, busyInvariant. intros E. injection E as -> -> ->. auto.
Qed.

Lemma busyCount_ext (s t : ClientState) :
  busyFields t = busyFields s -> busyCount t = busyCount s.
Proof.
  unfold busyFields. intros E. now injection E.
Qed.

Lemma begin_counts (message : option string) (w : World) :
  busyInvariant (store w) ->
  busyInvariant (store (setBusy true message w))
  /\ busyCount (store (setBusy true message w)) = busyCount (store w) + 1.
Proof.
  intros I.
  assert (0 <= busyCount (store w) + weight (Begin message)) as W
    by (destruct I as (N & _); cbn [weight]; lia).
  change (setBusy true message w) with (applyStep (Begin message) w).
  exact (applyStep_invariant (Begin message) w Logic.I I W).
Qed.

Lemma finish_counts (w : World) :
  busyInvariant (store w) ->
  busyInvariant (store (setBusy false None w))
  /\ busyCount (store (setBusy false None w)) = Z.max 0 (busyCount (store w) - 1).
Proof.
  intros I. split.
  - change (setBusy false None w) with (applyStep Finish w).
    exact (applyStep_keeps_invariant Finish w Logic.I I).
  - rewrite store_finish. cbv zeta.
    match goal with |- context [if ?b then _ else _] => destruct b end; reflexivity.
Qed.

(** The banner [render] leaves follows [isBusy]. *)
Lemma banner_follows_count (w : World) :
  busyInvariant (store w) ->
  active (busyStatus (page (render w))) = (0 <? busyCount (store w))
  /\ (busyCount (store w) = 0 -> busyStatus (page (render w)) = hidden).
Proof.
  intros (N & B & M). rewrite page_render. unfold renderedPage. cbn [busyStatus].
  split.
  - rewrite B. destruct (0 <? busyCount (store w)); reflexivity.
  - intros Z0. rewrite B, Z0. reflexivity.
Qed.

Lemma addQueue_runAmong (others : Interference) (srv : Server) (target : string) (w : World) :
  runAmong others srv (addQueue target) w
  = (fst (runAmong others srv (guardedRefetch (postAddQueue target)) (addQueue_start w)),
     addQueue_cleanup
       (snd (runAmong others srv (guardedRefetch (postAddQueue target)) (addQueue_start w)))).
Proof.
  unfold addQueue, addQueue_start, addQueue_cleanup.
  rewrite runAmong_bind, runAmong_call. cbv iota beta.
  rewrite runAmong_bind, runAmong_call. cbv iota beta.
  rewrite runAmong_bind, runAmong_call. cbv iota beta.
  rewrite runAmong_tryFinally. reflexivity.
Qed.

Lemma importQueue_runAmong (others : Interference) (srv : Server) (file : File) (w : World) :
  runAmong others srv (importQueue file) w
  = (fst (runAmong others srv (guardedRefetch (postImportQueue file))
            (setBusy true (Some "Loading items from file (yt-dlp can take a while)...") w)),
     setBusy false None
       (snd (runAmong others srv (guardedRefetch (postImportQueue file))
               (setBusy true
                  (Some "Loading items from file (yt-dlp can take a while)...") w)))).
Proof.
  unfold importQueue.
  rewrite runAmong_bind, runAmong_call. cbv iota beta.
  rewrite runAmong_tryFinally. reflexivity.
Qed.

Lemma addQueue_start_busy (w : World) :
  busyInvariant (store w) ->
  busyInvariant (store (addQueue_start w))
  /\ busyCount (store (addQueue_start w)) = busyCount (store w) + 1.
Proof.
  intros I. unfold addQueue_start.
  destruct (begin_counts (Some "Fetching video info...")
              (render (with_store (set_isAdding true) w))) as (I1 & C1).
  - rewrite store_render. exact I.
  - split; [exact I1|]. rewrite C1, store_render. reflexivity.
Qed.

(** The [finally] block of [addQueue]: what it leaves whatever came before,
    and what it does to the busy fields. *)
Lemma addQueue_cleanup_result (v : World) :
  isAdding (store (addQueue_cleanup v)) = false
  /\ urlStatus (page (addQueue_cleanup v)) = hidden
  /\ (busyInvariant (store v) ->
      busyInvariant (store (addQueue_cleanup v))
      /\ busyCount (store (addQueue_cleanup v)) = Z.max 0 (busyCount (store v) - 1)
      /\ active (busyStatus (page (addQueue_cleanup v)))
         = (0 <? busyCount (store (addQueue_cleanup v)))
      /\ (busyCount (store (addQueue_cleanup v)) = 0 ->
          busyStatus (page (addQueue_cleanup v)) = hidden)).
Proof.
  unfold addQueue_cleanup.
  pose proof (finish_counts v) as F.
  generalize dependent (setBusy false None v). intros v1 F.
  rewrite store_render, page_render.
  split; [reflexivity|]. split; [reflexivity|].
  intros I. destruct (F I) as (I1 & C1).
  assert (busyInvariant (store (with_store (set_isAdding false) v1))) as I2 by exact I1.
  destruct (banner_follows_count (with_store (set_isAdding false) v1) I2) as (A & H).
  rewrite page_render in A, H.
  split; [exact I2|]. split; [exact C1|]. split; [exact A | exact H].
Qed.

Lemma invariant_at_zero (s : ClientState) :
  busyInvariant s -> busyCount s = 0 -> idle s.
Proof.
  intros (N & B & M) Z0. unfold idle. rewrite B, Z0. auto.
Qed.

(** X6.  [addQueue] run while other code runs at its suspension points,
    however its requests settle, the [fetch] promise rejecting included:
    it always ends with [isAdding] false and the "Loading..." status
    hidden.  If the other code goes through [setBusy] only, the busy fields
    are consistent at the end and the banner is shown exactly when an
    operation is still in flight.  If the other code, while a request is
    pending, leaves as many operations in flight as it found, [addQueue]
    leaves [busyCount] as it found it: started from an idle store it ends
    with the store idle and the banner hidden. *)
Theorem addQueue_always_cleans_up (others : Interference) (srv : Server)
        (target : string) (w : World) :
  let w' := snd (runAmong others srv (addQueue target) w) in
  isAdding (store w') = false
  /\ urlStatus (page w') = hidden
  /\ (keepsBusyInvariant others -> busyInvariant (store w) ->
      busyInvariant (store w')
      /\ active (busyStatus (page w')) = (0 <? busyCount (store w')))
  /\ (finishesWhatItBegins others -> busyInvariant (store w) ->
      busyCount (store w') = busyCount (store w)
      /\ (idle (store w) -> idle (store w') /\ busyStatus (page w') = hidden)).
Proof.
  cbv zeta. rewrite addQueue_runAmong. cbn [snd].
  pose proof (addQueue_start_busy w) as S0.
  generalize dependent (addQueue_start w). intros w1 S0.
  pose proof (fun I O => guardedRefetch_among_busy I others srv (PostAddQueue target) w1
                            (fun v v' E H => O v v' E H)) as G.
  fold (postAddQueue target) in G.
  generalize dependent (snd (runAmong others srv (guardedRefetch (postAddQueue target)) w1)).
  intros v2 G.
  destruct (addQueue_cleanup_result v2) as (A & U & B).
  generalize dependent (addQueue_cleanup v2). intros w' A U B.
  split; [exact A|]. split; [exact U|]. split.
  - intros K I. destruct (S0 I) as (I1 & _).
    assert (busyInvariant (store v2)) as I2.
    { apply (G (fun v => busyInvariant (store v))).
      - intros v v' E. apply busyInvariant_ext. exact E.
      - exact K.
      - exact I1. }
    destruct (B I2) as (I3 & _ & Shown & _). split; assumption.
  - intros K I. destruct (S0 I) as (I1 & C1).
    assert (busyInvariant (store v2) /\ busyCount (store v2) = busyCount (store w) + 1)
      as (I2 & C2).
    { apply (G (fun v => busyInvariant (store v)
                         /\ busyCount (store v) = busyCount (store w) + 1)).
      - intros v v' E (Iv & Cv). split.
        + exact (busyInvariant_ext _ _ E Iv).
        + rewrite (busyCount_ext _ _ E). exact Cv.
      - intros n v (Iv & Cv). destruct (K n v Iv) as (Iv' & Cv'). split; [exact Iv'|].
        rewrite Cv'. exact Cv.
      - split; assumption. }
    destruct (B I2) as (I3 & C3 & _ & H).
    assert (busyCount (store w') = busyCount (store w)) as Same.
    { rewrite C3, C2. destruct I as (N & _). lia. }
    split; [exact Same|].
    intros (Z0 & _). rewrite Z0 in Same.
    split; [exact (invariant_at_zero _ I3 Same) | exact (H Same)].
Qed.

(** X7.  [importQueue] run while other code runs at its suspension points,
    however its requests settle: the [setBusy(false)] of its [finally] block
    always runs.  If the other code goes through [setBusy] only, the busy
    fields are consistent at the end and the banner is shown exactly when an
    operation is still in flight.  If the other code, while a request is
    pending, leaves as many operations in flight as it found, [importQueue]
    leaves [busyCount] as it found it: started from an idle store it ends
    with the store idle and the banner hidden. *)
Theorem importQueue_always_cleans_up (others : Interference) (srv : Server)
        (file : File) (w : World) :
  let w' := snd (runAmong others srv (importQueue file) w) in
  (keepsBusyInvariant others -> busyInvariant (store w) ->
     busyInvariant (store w')
     /\ active (busyStatus (page w')) = (0 <? busyCount (store w')))
  /\ (finishesWhatItBegins others -> busyInvariant (store w) ->
      busyCount (store w') = busyCount (store w)
      /\ (idle (store w) -> idle (store w') /\ busyStatus (page w') = hidden)).
Proof.
  cbv zeta. rewrite importQueue_runAmong. cbn [snd].
  pose proof (begin_counts
                (Some "Loading items from file (yt-dlp can take a while)...") w) as S0.
  generalize dependent
    (setBusy true (Some "Loading items from file (yt-dlp can take a while)...") w).
  intros w1 S0.
  pose proof (fun I O => guardedRefetch_among_busy I others srv (PostImportQueue file) w1
                            (fun v v' E H => O v v' E H)) as G.
  fold (postImportQueue file) in G.
  generalize dependent
    (snd (runAmong others srv (guardedRefetch (postImportQueue file)) w1)).
  intros v2 G.
  pose proof (finish_counts v2) as F.
  assert (forall f, busyInvariant (store (render (with_store f v2))) ->
                    active (busyStatus (page (render (with_store f v2))))
                    = (0 <? busyCount (store (render (with_store f v2))))
                    /\ (busyCount (store (render (with_store f v2))) = 0 ->
                        busyStatus (page (render (with_store f v2))) = hidden)) as Banner.
  { intros f. rewrite store_render. apply banner_follows_count. }
  destruct (setBusy_renders false None v2) as (f & E).
  specialize (Banner f). rewrite <- E in Banner. clear E f.
  generalize dependent (setBusy false None v2). intros w' F Banner.
  split.
  - intros K I. destruct (S0 I) as (I1 & _).
    assert (busyInvariant (store v2)) as I2.
    { apply (G (fun v => busyInvariant (store v))).
      - intros v v' E. apply busyInvariant_ext. exact E.
      - exact K.
      - exact I1. }
    destruct (F I2) as (I3 & _). destruct (Banner I3) as (Shown & _).
    split; assumption.
  - intros K I. destruct (S0 I) as (I1 & C1).
    assert (busyInvariant (store v2) /\ busyCount (store v2) = busyCount (store w) + 1)
      as (I2 & C2).
    { apply (G (fun v => busyInvariant (store v)
                         /\ busyCount (store v) = busyCount (store w) + 1)).
      - intros v v' E (Iv & Cv). split.
        + exact (busyInvariant_ext _ _ E Iv).
        + rewrite (busyCount_ext _ _ E). exact Cv.
      - intros n v (Iv & Cv). destruct (K n v Iv) as (Iv' & Cv'). split; [exact Iv'|].
        rewrite Cv'. exact Cv.
      - split; assumption. }
    destruct (F I2) as (I3 & C3). destruct (Banner I3) as (_ & H).
    assert (busyCount (store w') = busyCount (store w)) as Same.
    { rewrite C3, C2. destruct I as (N & _). lia. }
    split; [exact Same|].
    intros (Z0 & _). rewrite Z0 in Same.
    split; [exact (invariant_at_zero _ I3 Same) | exact (H Same)].
Qed.

Lemma importBegins_keeps : keepsBusyInvariant importBegins.
Proof.
  intros n v I.
  destruct (begin_counts
              (Some "Loading items from file (yt-dlp can take a while)...") v I)
    as (I1 & _).
  unfold importBegins.
  generalize dependent
    (setBusy true (Some "Loading items from file (yt-dlp can take a while)...") v).
  intros v1 I1.
  destruct (Nat.eqb n 0); [exact I1 | exact I].
Qed.

End GuaranteedCleanup.

(** ** Loaders, downloads and the preview request *)

(** X8.  [loadVersion] replaces [state.version] by the payload of a
    successful response and by nothing else: on a non-success response, or
    when the request fails altogether, the version already known is kept.
    It writes no other field and nothing on the page. *)
Theorem loadVersion_result (srv : Server) (w : World) :
  let w' := snd (run srv loadVersion w) in
  page w' = page w
  /\ trace w' = (trace w ++ [Requested GetVersion])%list
  /\ (forall info, srv (requestsSent w) GetVersion = Resolved true info ->
        store w' = set_version (Some info) (store w))
  /\ (forall info, srv (requestsSent w) GetVersion = Resolved false info ->
        store w' = store w /\ fst (run srv loadVersion w) = Done tt)
  /\ (srv (requestsSent w) GetVersion = Rejected ->
        store w' = store w /\ fst (run srv loadVersion w) = Thrown).
Proof.
  cbv zeta. unfold loadVersion, fetchVersion. rewrite !run_bind, run_fetch.
  destruct (srv (requestsSent w) GetVersion) as [|[|] info]; cbn;
    repeat apply conj; try reflexivity; intros; try discriminate; auto.
  injection H as <-. reflexivity.
Qed.

(** X9.  [updateQueue] sends its one request and does nothing else: no
    refetch, no render, no change of the store or of the page, whatever the
    answer. *)
Theorem updateQueue_only_posts (srv : Server) (item : string)
        (newTitle newArtist : option string) (w : World) :
  snd (run srv (updateQueue item newTitle newArtist) w)
  = emit (Requested (PostUpdateQueue item newTitle newArtist)) w
  /\ (fst (run srv (updateQueue item newTitle newArtist) w) = Thrown
      <-> srv (requestsSent w) (PostUpdateQueue item newTitle newArtist) = Rejected).
Proof.
  unfold updateQueue, postUpdateQueue. rewrite run_bind, run_fetch.
  destruct (srv (requestsSent w) (PostUpdateQueue item newTitle newArtist)); cbn;
    split; try reflexivity; split; intros; congruence.
Qed.

(** X10.  [exportQueue] never writes the store or the page.  It offers a
    file exactly when the response is a success: the blob of the response,
    named "AudioDownloader_export." followed by the export format; on any
    other outcome it offers nothing. *)
Theorem exportQueue_offers_file (srv : Server) (w : World) :
  let w' := snd (run srv exportQueue w) in
  let request := PostExportQueue (exportFormat (store w)) in
  store w' = store w
  /\ page w' = page w
  /\ (forall blob, srv (requestsSent w) request = Resolved true blob ->
        trace w'
        = (trace w ++ [Requested request;
                       FileOffered blob ("AudioDownloader_export." ++ exportFormat (store w))])%list)
  /\ ((forall blob, srv (requestsSent w) request <> Resolved true blob) ->
        trace w' = (trace w ++ [Requested request])%list).
Proof.
  cbv zeta. unfold exportQueue, postExportQueue. cbn [run]. rewrite !run_bind, run_fetch.
  destruct (srv (requestsSent w) (PostExportQueue (exportFormat (store w))))
    as [|[|] blob] eqn:E; cbn;
    repeat apply conj; try reflexivity; intros; try discriminate.
  - injection H as <-. unfold triggerDownload, emit. cbn. now rewrite <- app_assoc.
  - exfalso. exact (H blob eq_refl).
Qed.

(** X11.  [downloadSample] never writes the store or the page, and offers
    the file "Sample.xlsx" exactly when the response is a success. *)
Theorem downloadSample_offers_file (srv : Server) (w : World) :
  let w' := snd (run srv downloadSample w) in
  store w' = store w
  /\ page w' = page w
  /\ (forall blob, srv (requestsSent w) GetSample = Resolved true blob ->
        trace w' = (trace w ++ [Requested GetSample; FileOffered blob "Sample.xlsx"])%list)
  /\ ((forall blob, srv (requestsSent w) GetSample <> Resolved true blob) ->
        trace w' = (trace w ++ [Requested GetSample])%list).
Proof.
  cbv zeta. unfold downloadSample, fetchSample. rewrite !run_bind, run_fetch.
  destruct (srv (requestsSent w) GetSample) as [|[|] blob] eqn:E; cbn;
    repeat apply conj; try reflexivity; intros; try discriminate.
  - injection H as <-. unfold triggerDownload, emit. cbn. now rewrite <- app_assoc.
  - exfalso. exact (H blob eq_refl).
Qed.

Section PreviewRequest.
Context {P : Platform}.

Lemma run_previewItem (srv : Server) (item : string) (w : World) :
  run srv (previewItem item) w
  = match srv (requestsSent w) (GetPreview item) with
    | Rejected => (Thrown, emit (Requested (GetPreview item)) w)
    | Resolved false _ => (Done tt, emit (Requested (GetPreview item)) w)
    | Resolved true data =>
        (Done tt,
         syncPreviewPlayer true
           (with_store (set_preview {| preview_id := item; preview_url := url data |})
              (emit (Requested (GetPreview item)) w)))
    end.
Proof.
  unfold previewItem, fetchPreview. rewrite !run_bind, run_fetch.
  destruct (srv (requestsSent w) (GetPreview item)) as [|[|] data]; reflexivity.
Qed.

(** X12.  [previewItem] changes nothing but the request log unless the
    preview request succeeds.  When it succeeds with a non-empty stream path
    [u], the preview becomes [{id, url: u}] and no other field of the store
    changes.  If the source getter already returns [API_BASE] followed by
    [u], the source is left alone and the one call on the player is [play];
    otherwise the source is assigned that URL, the getter returns what the
    browser makes of it, and [play] follows the assignment. *)
Theorem previewItem_result (srv : Server) (item : string) (w : World) :
  let w' := snd (run srv (previewItem item) w) in
  ((forall data, srv (requestsSent w) (GetPreview item) <> Resolved true data) ->
     store w' = store w /\ page w' = page w
     /\ trace w' = (trace w ++ [Requested (GetPreview item)])%list)
  /\ (forall u, srv (requestsSent w) (GetPreview item) = Resolved true {| url := u |} ->
        store w' = set_preview {| preview_id := item; preview_url := u |} (store w)
        /\ (u <> "" -> playerSrc (page w) = API_BASE ++ u ->
            playerSrc (page w') = API_BASE ++ u
            /\ trace w' = (trace w ++ [Requested (GetPreview item); Player Play])%list)
        /\ (u <> "" -> playerSrc (page w) <> API_BASE ++ u ->
            playerSrc (page w') = src_reflected (API_BASE ++ u)
            /\ trace w'
               = (trace w ++ [Requested (GetPreview item);
                              Player (SetSrc (API_BASE ++ u)); Player Play])%list)).
Proof.
  cbv zeta. rewrite run_previewItem. split.
  - intros N.
    destruct (srv (requestsSent w) (GetPreview item)) as [|[|] data]; cbn;
      repeat split.
    all: exfalso; exact (N data eq_refl).
  - intros u E. rewrite E. cbn [snd].
    rewrite store_syncPreviewPlayer, playerSrc_syncPreviewPlayer, trace_syncPreviewPlayer.
    assert (u <> "" ->
            nextSrc (store (with_store
               (set_preview {| preview_id := item; preview_url := u |})
               (emit (Requested (GetPreview item)) w))) = API_BASE ++ u) as N.
    { intros U. apply truthy_true in U. unfold nextSrc. cbn. now rewrite U. }
    cbn [url page with_store emit trace] in *.
    split; [reflexivity|]. split.
    + intros U Same. rewrite (N U), Same, srcAfterSync_same.
      split; [reflexivity|].
      unfold playerOps. rewrite String.eqb_refl.
      assert (truthy (API_BASE ++ u) = true) as T by reflexivity.
      rewrite T. cbn [negb map]. rewrite <- app_assoc. reflexivity.
    + intros U Differs. rewrite (N U).
      assert (truthy (API_BASE ++ u) = true) as T by reflexivity.
      apply String.eqb_neq in Differs.
      unfold srcAfterSync, playerOps. rewrite T, Differs. cbn [negb andb map].
      split; [reflexivity|]. rewrite <- app_assoc. reflexivity.
Qed.

End PreviewRequest.

(** ** The polling tick and the delete action *)

Section Polling.
Context {P : Platform}.

Lemma page_loadQueue_apply (q : list QueueItem) (w : World) :
  page (loadQueue_apply q w)
  = if previewGone q (store w)
    then set_playerSrc "" (set_previewStatus "Idle" (page w))
    else page w.
Proof.
  destruct (previewGone q (store w)) eqn:G.
  - rewrite (loadQueue_apply_gone q w G), page_syncPreviewPlayer. reflexivity.
  - rewrite (loadQueue_apply_kept q w G). reflexivity.
Qed.

Lemma formFields_loadQueue_apply (q : list QueueItem) (w : World) :
  formFields (store (loadQueue_apply q w)) = formFields (store w).
Proof.
  destruct (previewGone q (store w)) eqn:G.
  - rewrite (loadQueue_apply_gone q w G), store_syncPreviewPlayer. reflexivity.
  - rewrite (loadQueue_apply_kept q w G). reflexivity.
Qed.

Lemma formControls_loadQueue_apply (q : list QueueItem) (w : World) :
  formControls (page (loadQueue_apply q w)) = formControls (page w).
Proof.
  rewrite page_loadQueue_apply. destruct (previewGone q (store w)); reflexivity.
Qed.

Lemma activeElement_loadQueue_apply (q : list QueueItem) (w : World) :
  activeElement (page (loadQueue_apply q w)) = activeElement (page w).
Proof.
  rewrite page_loadQueue_apply. destruct (previewGone q (store w)); reflexivity.
Qed.

(** X13.  A tick of the polling timer, however the queue request settles,
    leaves alone everything that is not the queue, the preview or the focus:
    the selected formats, the directory, the version, the URL error, the
    adding flag and the busy fields of the store, and on the page the two
    input fields, the two selects, the busy banner, the error box and the
    status.  Whenever the request is answered, with success or not, the
    queue section is replaced by the markup of the stored queue, and a focus
    that was inside the queue section (on the title or artist field being
    edited) is lost; a focus anywhere else stays.  On a non-success response
    the store is unchanged; when the request itself fails the tick ends
    before rendering and the page is unchanged. *)
Theorem pollTick_frame (srv : Server) (w : World) :
  let w' := snd (run srv pollTick w) in
  formFields (store w') = formFields (store w)
  /\ busyFields (store w') = busyFields (store w)
  /\ formControls (page w') = formControls (page w)
  /\ (forall status payload, srv (requestsSent w) GetQueue = Resolved status payload ->
        queueSection (page w') = queueHtml (store w')
        /\ activeElement (page w') = focusAfterReplace (activeElement (page w))
        /\ (activeElement (page w) = InQueueSection -> activeElement (page w') = Elsewhere)
        /\ (activeElement (page w) <> InQueueSection ->
            activeElement (page w') = activeElement (page w)))
  /\ (forall stale, srv (requestsSent w) GetQueue = Resolved false stale ->
        store w' = store w
        /\ queueSection (page w') = queueHtml (store w)
        /\ trace w' = (trace w ++ [Requested GetQueue;
                                  QueueRendered (queueHtml (store w))])%list)
  /\ (srv (requestsSent w) GetQueue = Rejected ->
        fst (run srv pollTick w) = Thrown
        /\ store w' = store w /\ page w' = page w
        /\ trace w' = (trace w ++ [Requested GetQueue])%list).
Proof.
  assert (forall f, (f = InQueueSection -> focusAfterReplace f = Elsewhere)
                    /\ (f <> InQueueSection -> focusAfterReplace f = f)) as Focused.
  { intros f. destruct f; split; intros; try reflexivity; congruence. }
  cbv zeta. unfold pollTick. rewrite run_bind, run_loadQueue.
  destruct (srv (requestsSent w) GetQueue) as [|[|] payload]; cbn [fst snd];
    try rewrite run_call; cbn [fst snd].
  - repeat apply conj; try reflexivity; intros; try discriminate; repeat split.
  - rewrite store_renderQueue.
    repeat apply conj; try (intros; discriminate).
    + rewrite formFields_loadQueue_apply. reflexivity.
    + rewrite busyFields_loadQueue_apply. reflexivity.
    + unfold renderQueue. cbv zeta. cbn [page emit with_page].
      transitivity (formControls (page (loadQueue_apply payload
                                          (emit (Requested GetQueue) w))));
        [reflexivity
        | exact (formControls_loadQueue_apply payload (emit (Requested GetQueue) w))].
    + intros status fresh _. unfold renderQueue. cbv zeta.
      cbn [page emit with_page activeElement set_activeElement queueSection
           set_queueSection].
      rewrite activeElement_loadQueue_apply. cbn [page emit].
      destruct (Focused (activeElement (page w))) as (F1 & F2).
      repeat apply conj; [reflexivity | reflexivity | exact F1 | exact F2].
  - repeat apply conj; try reflexivity; intros; try discriminate.
    + destruct (Focused (activeElement (page w))) as (F1 & F2).
      repeat apply conj; [reflexivity | reflexivity | exact F1 | exact F2].
    + repeat split. unfold renderQueue, emit. cbn. now rewrite <- app_assoc.
Qed.


End Polling.

(** ** Validation, clamping and the queue markup *)

Section Accepting.
Context {P : Platform}.

(** X15.  [isValidYoutubeUrl] never accepts a string the URL constructor
    refuses, a scheme other than http or https, or a host other than
    youtu.be, www.youtube.com, youtube.com and m.youtube.com (compared in
    lower case).  An accepted short link has a path that is not empty once
    its first slash is removed; an accepted watch link has a path starting
    with "/watch" and a query parameter named "v". *)
Theorem accepted_urls (value : string) :
  isValidYoutubeUrl value = true ->
  exists u : URL,
    URL_parse value = Some u
    /\ (protocol u = "http:" \/ protocol u = "https:")
    /\ ((toLowerCase (hostname u) = "youtu.be"
         /\ replaceFirst "/" "" (pathname u) <> "")
        \/ ((toLowerCase (hostname u) = "www.youtube.com"
             \/ toLowerCase (hostname u) = "youtube.com"
             \/ toLowerCase (hostname u) = "m.youtube.com")
            /\ startsWith "/watch" (pathname u) = true
            /\ exists v, In ("v", v) (searchParams u))).
Proof.
  intros V. destruct (URL_parse value) as [u|] eqn:E.
  - exists u. split; [reflexivity|].
    rewrite (verdict_of_components value u E) in V.
    apply andb_true_iff in V. destruct V as (S & H).
    split.
    + apply orb_true_iff in S. destruct S as [S | S]; apply String.eqb_eq in S; auto.
    + apply orb_true_iff in H. destruct H as [H | H];
        apply andb_true_iff in H; destruct H as (H1 & H2).
      * left. split; [now apply String.eqb_eq | now apply truthy_true].
      * right. apply andb_true_iff in H2. destruct H2 as (W & Q).
        split; [|split; [exact W|]].
        -- repeat (apply orb_true_iff in H1; destruct H1 as [H1 | H1]);
             apply String.eqb_eq in H1; auto.
        -- unfold searchParams_has in Q. apply existsb_exists in Q.
           destruct Q as ((k & v) & I & K). cbn [fst] in K.
           apply String.eqb_eq in K. subst k. now exists v.
  - rewrite (unparsable_is_invalid value E) in V. discriminate.
Qed.

(** X16.  The progress a card is rendered with is NaN only for a NaN
    progress, and otherwise lies between 0 and 100 whatever the server sent,
    the infinities included; clamping a clamped value changes nothing. *)
Theorem progressValue_in_range (item : QueueItem) (c : Number) :
  progressValue item = Some c ->
  (forall p, progress item = Some p -> p <> NaN ->
     number_ge c (num 0) = true /\ number_ge (num 100) c = true)
  /\ (c = NaN -> progress item = Some NaN)
  /\ Math_min (num 100) (Math_max (num 0) c) = c.
Proof.
  unfold progressValue. destruct (progress item) as [p|]; [|discriminate].
  intros E.
  assert (c = Math_min (num 100) (Math_max (num 0) p)) as -> by congruence.
  clear E. repeat apply conj.
  - intros p' Ep N. injection Ep as <-.
    destruct p as [ | | | q]; try congruence; try (split; reflexivity).
    destruct (clamp_finite q) as (c' & -> & L & U).
    cbn [number_ge num]. split; now apply Qle_bool_iff.
  - intros E. destruct p as [ | | | q]; try reflexivity; try discriminate.
    destruct (clamp_finite q) as (c' & E' & _). congruence.
  - destruct p as [ | | | q]; try reflexivity.
    unfold Math_max, Math_min, num.
    destruct (Qle_bool (inject_Z 0) q) eqn:L0.
    + destruct (Qle_bool (inject_Z 100) q) eqn:L100.
      * reflexivity.
      * rewrite L0, L100. reflexivity.
    + reflexivity.
Qed.

End Accepting.

(** ** Submitting a URL: completion and failure *)

Section SubmissionOutcome.
Context {P : Platform}.

Lemma formFields_setBusy (active : bool) (message : option string) (w : World) :
  formFields (store (setBusy active message w)) = formFields (store w).
Proof.
  destruct active.
  - rewrite store_begin. destruct (truthy_opt message); reflexivity.
  - rewrite store_finish. cbv zeta.
    match goal with |- context [if ?b then _ else _] => destruct b end; reflexivity.
Qed.

Lemma urlInput_render (w : World) : urlInput (page (render w)) = urlInput (page w).
Proof. rewrite page_render. reflexivity. Qed.

Lemma urlInput_setBusy (active : bool) (message : option string) (w : World) :
  urlInput (page (setBusy active message w)) = urlInput (page w).
Proof.
  destruct (setBusy_renders active message w) as (f & ->).
  rewrite urlInput_render. reflexivity.
Qed.

Lemma addQueue_start_facts (w : World) :
  formFields (store (addQueue_start w)) = formFields (set_isAdding true (store w))
  /\ urlInput (page (addQueue_start w)) = urlInput (page w)
  /\ requestsSent (addQueue_start w) = requestsSent w
  /\ busyCount (store (addQueue_start w)) = busyCount (store w) + 1.
Proof.
  unfold addQueue_start. repeat apply conj.
  - rewrite formFields_setBusy, store_render. reflexivity.
  - rewrite urlInput_setBusy, urlInput_render. reflexivity.
  - rewrite requestsSent_setBusy, requestsSent_render. reflexivity.
  - rewrite store_begin, store_render. reflexivity.
Qed.

Lemma store_with_store (f : ClientState -> ClientState) (w : World) :
  store (with_store f w) = f (store w).
Proof. reflexivity. Qed.

Lemma page_with_store (f : ClientState -> ClientState) (w : World) :
  page (with_store f w) = page w.
Proof. reflexivity. Qed.

Lemma requestsSent_with_store (f : ClientState -> ClientState) (w : World) :
  requestsSent (with_store f w) = requestsSent w.
Proof. reflexivity. Qed.

Lemma formFields_set_isAdding (b : bool) (s : ClientState) :
  urlError (set_isAdding b s) = urlError s /\ isAdding (set_isAdding b s) = b
  /\ busyFields (set_isAdding b s) = busyFields s.
Proof. repeat split. Qed.

Lemma idle_from_busyFields (s t : ClientState) :
  busyFields s = busyFields t -> idle t -> idle s.
Proof.
  unfold busyFields, idle. intros E (C & B & M). injection E as -> -> ->. auto.
Qed.

Lemma finish_last (v : World) :
  busyCount (store v) = 1 -> idle (store (setBusy false None v)).
Proof.
  intros One. rewrite store_finish. cbv zeta.
  generalize dependent (store v). intros s One.
  cbn [busyCount set_busyCount]. rewrite One. repeat split.
Qed.

Lemma addQueue_cleanup_facts (v : World) :
  urlError (store (addQueue_cleanup v)) = urlError (store v)
  /\ urlInput (page (addQueue_cleanup v)) = urlInput (page v)
  /\ requestsSent (addQueue_cleanup v) = requestsSent v
  /\ isAdding (store (addQueue_cleanup v)) = false
  /\ (busyCount (store v) = 1 -> idle (store (addQueue_cleanup v))).
Proof.
  unfold addQueue_cleanup.
  pose proof (formFields_setBusy false None v) as F.
  pose proof (urlInput_setBusy false None v) as U.
  pose proof (requestsSent_setBusy false None v) as R.
  pose proof (finish_last v) as L.
  generalize dependent (setBusy false None v). intros v1 F U R L.
  rewrite store_render, urlInput_render, requestsSent_render.
  rewrite store_with_store, page_with_store, requestsSent_with_store.
  destruct (formFields_set_isAdding false (store v1)) as (E1 & E2 & E3).
  rewrite E1, E2.
  split; [unfold formFields in F; congruence|].
  split; [exact U|]. split; [exact R|]. split; [reflexivity|].
  intros One. apply (idle_from_busyFields _ (store v1) E3). now apply L.
Qed.

(** Among other code, the [try] block keeps the URL error as long as the
    other code does. *)
Lemma guardedRefetch_among_urlError (others : Interference) (srv : Server)
      (r : Request) (w : World) :
  leaves (fun v => urlError (store v)) others ->
  urlError (store (snd (runAmong others srv
      (guardedRefetch (response <- fetch r ;; Return (ok response))) w)))
  = urlError (store w).
Proof.
  intros L.
  apply (runAmong_preserves (fun v => urlError (store v) = urlError (store w)));
    [| | |reflexivity].
  - intros n v E. rewrite L. exact E.
  - intros e v E. exact E.
  - apply preserves_guardedRefetch.
    + intros q v E.
      pose proof (formFields_loadQueue_apply q v) as F. unfold formFields in F.
      congruence.
    + intros v E. exact E.
Qed.

(** X17.  Submitting a valid URL while the back end cannot be reached (the
    [fetch] of the add request rejects), with other code running while the
    request is pending: the listener's promise rejects and the [finally]
    block has run, so [isAdding] is false.  The listener does not reach the
    statement that clears the URL field: if the other code leaves the field
    alone it still holds what the user typed.  If the other code leaves the
    URL error alone it is empty; if it issues no request the add request is
    the only one issued; if it leaves as many blocking operations in flight
    as it found, an idle store is idle again. *)
Theorem submit_when_unreachable (others : Interference) (srv : Server) (w : World) :
  trim (urlInput (page w)) <> "" ->
  isValidYoutubeUrl (trim (urlInput (page w))) = true ->
  srv (requestsSent w) (PostAddQueue (trim (urlInput (page w)))) = Rejected ->
  let w' := snd (runAmong others srv addBtn_click w) in
  fst (runAmong others srv addBtn_click w) = Thrown
  /\ isAdding (store w') = false
  /\ (leaves (fun v => urlInput (page v)) others -> urlInput (page w') = urlInput (page w))
  /\ (leaves (fun v => urlError (store v)) others -> urlError (store w') = "")
  /\ (leaves requestsSent others -> requestsSent w' = S (requestsSent w))
  /\ (finishesWhatItBegins others -> idle (store w) -> idle (store w')).
Proof.
  intros T V R. cbv zeta.
  unfold addBtn_click. cbn [runAmong]. apply truthy_true in T. rewrite T, V. cbn [negb].
  rewrite runAmong_bind, runAmong_call. cbv iota beta.
  rewrite runAmong_bind, addQueue_runAmong.
  generalize (trim (urlInput (page w))) R. intros value R'.
  destruct (addQueue_start_facts (with_store (set_urlError "") w)) as (F0 & U0 & R0 & C0).
  pose proof (addQueue_start_busy (with_store (set_urlError "") w)) as B0.
  generalize dependent (addQueue_start (with_store (set_urlError "") w)).
  intros w1 F0 U0 R0 C0 B0.
  cbn [store page with_store] in F0, U0, C0, B0.
  change (requestsSent (with_store (set_urlError "") w)) with (requestsSent w) in R0.
  unfold guardedRefetch, postAddQueue. rewrite !runAmong_bind, runAmong_fetch, R0, R'.
  cbn [fst snd].
  set (v := others (requestsSent w) (emit (Requested (PostAddQueue value)) w1)).
  assert (forall X (proj : World -> X), leaves proj others ->
            proj v = proj (emit (Requested (PostAddQueue value)) w1)) as Left
    by (intros X proj L; apply L).
  assert (finishesWhatItBegins others -> busyInvariant (store w1) ->
          busyInvariant (store v) /\ busyCount (store v) = busyCount (store w1)) as Held
    by (intros K I;
        exact (K (requestsSent w) (emit (Requested (PostAddQueue value)) w1) I)).
  clearbody v.
  destruct (addQueue_cleanup_facts v) as (E1 & U1 & R1 & A1 & I1).
  generalize dependent (addQueue_cleanup v). intros w2 E1 U1 R1 A1 I1.
  split; [reflexivity|].
  split; [exact A1|].
  split.
  { intros L. rewrite U1, (Left _ _ L). exact U0. }
  split.
  { intros L. rewrite E1, (Left _ _ L). cbn [store emit].
    unfold formFields in F0. cbn [urlError set_isAdding set_urlError] in F0. congruence. }
  split.
  { intros L. rewrite R1, (Left _ _ L), requestsSent_emit_request, R0. reflexivity. }
  intros K (C & B & M).
  assert (busyInvariant (set_urlError "" (store w))) as I0
    by (apply (idle_invariant (store w)); repeat split; assumption).
  destruct (B0 I0) as (Inv1 & _).
  destruct (Held K Inv1) as (_ & Cv).
  apply I1. rewrite Cv, C0. cbn [busyCount set_urlError]. rewrite C. reflexivity.
Qed.

(** X18.  When the submission of a valid URL completes, whether the add
    was accepted or refused by the back end and whatever other code ran
    while its requests were pending, the URL field is empty and [isAdding]
    is false.  The URL error is empty too if the other code left it alone
    (an invalid submission made in the meantime sets it, and it stays
    set). *)
Theorem submit_completed_clears_field (others : Interference) (srv : Server) (w : World) :
  trim (urlInput (page w)) <> "" ->
  isValidYoutubeUrl (trim (urlInput (page w))) = true ->
  fst (runAmong others srv addBtn_click w) = Done tt ->
  let w' := snd (runAmong others srv addBtn_click w) in
  urlInput (page w') = ""
  /\ isAdding (store w') = false
  /\ (leaves (fun v => urlError (store v)) others -> urlError (store w') = "").
Proof.
  intros T V. cbv zeta.
  unfold addBtn_click. cbn [runAmong]. apply truthy_true in T. rewrite T, V. cbn [negb].
  rewrite runAmong_bind, runAmong_call. cbv iota beta.
  rewrite runAmong_bind, addQueue_runAmong.
  generalize (trim (urlInput (page w))). intros value.
  destruct (addQueue_start_facts (with_store (set_urlError "") w)) as (F0 & _).
  generalize dependent (addQueue_start (with_store (set_urlError "") w)).
  intros w1 F0.
  pose proof (guardedRefetch_among_urlError others srv (PostAddQueue value) w1) as G.
  fold (postAddQueue value) in G.
  destruct (runAmong others srv (guardedRefetch (postAddQueue value)) w1) as [[[]|] w2];
    cbn [fst snd] in *; [|discriminate].
  destruct (addQueue_cleanup_facts w2) as (E1 & _ & _ & A1 & _).
  generalize dependent (addQueue_cleanup w2). intros w3 E1 A1.
  rewrite runAmong_call. cbn [fst snd]. intros _.
  repeat apply conj.
  - reflexivity.
  - exact A1.
  - intros L. cbn [store with_page]. rewrite E1, (G L).
    unfold formFields in F0. cbn [store with_store urlError set_isAdding set_urlError] in F0.
    congruence.
Qed.

End SubmissionOutcome.

(** ** What the user sees of the selects and of the busy banner *)

Section Banner.
Context {P : Platform}.

Lemma page_setBusy (active : bool) (message : option string) (w : World) :
  page (setBusy active message w)
  = renderedPage (store (setBusy active message w)) (page w).
Proof.
  destruct (setBusy_renders active message w) as (f & ->).
  rewrite page_render, store_render. reflexivity.
Qed.

(** X19.  [render] never overrides a select the user has the focus on; a
    select without focus is set to the stored format.  Right after the
    [change] listener of the output format has run, the store holds the
    selected value and a render leaves the select showing it. *)
Theorem render_respects_selects (w : World) :
  (activeElement (page w) = OnFormatSelect ->
     formatSelect (page (render w)) = formatSelect (page w))
  /\ (activeElement (page w) = OnExportFormatSelect ->
        exportFormatSelect (page (render w)) = exportFormatSelect (page w))
  /\ (activeElement (page w) <> OnFormatSelect ->
        formatSelect (page (render w)) = format (store w))
  /\ (activeElement (page w) <> OnExportFormatSelect ->
        exportFormatSelect (page (render w)) = exportFormat (store w))
  /\ format (store (formatSelect_change w)) = formatSelect (page w)
  /\ formatSelect (page (render (formatSelect_change w))) = formatSelect (page w)
  /\ exportFormatSelect (page (render (exportFormatSelect_change w)))
     = exportFormatSelect (page w).
Proof.
  rewrite !page_render. unfold renderedPage, formatSelect_change, exportFormatSelect_change.
  cbn [formatSelect exportFormatSelect store page with_store format exportFormat
       set_format set_exportFormat].
  repeat apply conj; try reflexivity.
  - now intros ->.
  - now intros ->.
  - destruct (activeElement (page w)); congruence.
  - destruct (activeElement (page w)); congruence.
  - destruct (activeElement (page w)); reflexivity.
  - destruct (activeElement (page w)); reflexivity.
Qed.

(** X20.  The busy banner after a call of [setBusy]: a call that starts an
    operation with a message shows that message; one without a message shows
    the message already stored, or "Loading..." when none is stored; a call
    that ends the last operation in flight hides the banner and empties its
    text. *)
Theorem busy_banner_text (w : World) :
  (forall message, message <> "" ->
     busyStatus (page (setBusy true (Some message) w))
     = {| textContent := message; active := true |})
  /\ (busyMessage (store w) = "" ->
        busyStatus (page (setBusy true None w))
        = {| textContent := "Loading..."; active := true |})
  /\ (busyMessage (store w) <> "" ->
        busyStatus (page (setBusy true None w))
        = {| textContent := busyMessage (store w); active := true |})
  /\ (busyCount (store w) <= 1 ->
        busyStatus (page (setBusy false None w)) = hidden).
Proof.
  repeat apply conj.
  - intros message N. rewrite page_setBusy, store_begin.
    apply truthy_true in N. unfold renderedPage.
    cbn [busyStatus isBusy busyMessage truthy_opt set_isBusy set_busyMessage].
    rewrite N. cbn [isBusy busyMessage set_isBusy set_busyMessage]. rewrite N. reflexivity.
  - intros E. rewrite page_setBusy, store_begin. unfold renderedPage.
    cbn [busyStatus isBusy busyMessage truthy_opt set_isBusy set_busyMessage set_busyCount].
    rewrite E. reflexivity.
  - intros N. rewrite page_setBusy, store_begin. unfold renderedPage.
    cbn [busyStatus isBusy busyMessage truthy_opt set_isBusy set_busyMessage set_busyCount].
    apply truthy_true in N. rewrite N. reflexivity.
  - intros L. rewrite page_setBusy, store_finish. cbv zeta.
    cbn [busyCount set_busyCount].
    replace (Z.max 0 (busyCount (store w) - 1)) with 0 by lia.
    reflexivity.
Qed.

End Banner.

(* ------------------------------------------------------------------ *)
(** * Sample runs *)

Lemma busy_counter_discipline_witness :
  idle (store initialWorld)
  /\ isBusy (store (applySteps (H := samplePlatform)
                      (firstn 3 (overlapping [Some "Fetching video info..."; None]))
                      initialWorld)) = true
  /\ idle (store (applySteps (H := samplePlatform)
                    (overlapping [Some "Fetching video info..."; None])
                    initialWorld)).
Proof.
  assert (idle (store initialWorld)) as I by (repeat split).
  destruct (@busy_counter_discipline samplePlatform initialWorld I) as (_ & _ & A).
  destruct (A [Some "Fetching video info..."; None]
              (overlapping [Some "Fetching video info..."; None])) as (B & C).
  - repeat constructor.
  - reflexivity.
  - split; [exact I|]. split; [|exact C].
    apply (B 3%nat). simpl. lia.
Defined.

Lemma status_label_mapping_witness :
  statusLabel (H := samplePlatform) sampleJob = "43%".
Proof.
  destruct (@status_label_mapping samplePlatform sampleJob)
    as (_ & _ & _ & _ & _ & _ & _ & A & _).
  apply A; reflexivity.
Defined.

Lemma working_badge_fill_witness :
  Contains (renderCard (H := samplePlatform) (store previewingWorld) sampleJob)
    (queueSection (page (renderQueue (H := samplePlatform) previewingWorld)))
  /\ badgeContent (H := samplePlatform) sampleJob
     = fillSpan (H := samplePlatform)
         (Math_max (num 0) (Math_min (num 100) (Finite (426 # 10))))
         ++ textSpan (statusLabel (H := samplePlatform) sampleJob).
Proof.
  destruct (@working_badge_fill samplePlatform previewingWorld sampleJob)
    as (_ & _ & A & _ & B & _).
  split.
  - destruct A as (A & _); [left; reflexivity | exact A].
  - apply B; reflexivity.
Defined.

Lemma url_validation_examples_witness :
  isValidYoutubeUrl (H := samplePlatform) "https://youtu.be/abc123" = true
  /\ isValidYoutubeUrl (H := samplePlatform) "https://youtu.be/" = false
  /\ isValidYoutubeUrl (H := samplePlatform) "https://www.youtube.com/watch?v=abc123" = true
  /\ isValidYoutubeUrl (H := samplePlatform) "https://www.youtube.com/watch" = false
  /\ isValidYoutubeUrl (H := samplePlatform) "ftp://youtube.com/watch?v=x" = false
  /\ isValidYoutubeUrl (H := samplePlatform) "not a url" = false.
Proof.
  apply (@url_validation_examples samplePlatform); reflexivity.
Defined.

Lemma failed_refetch_keeps_state_witness :
  store (snd (run refusingServer (loadQueue (H := samplePlatform)) previewingWorld))
  = store previewingWorld.
Proof.
  destruct (@failed_refetch_keeps_state samplePlatform refusingServer previewingWorld)
    as (A & _).
  apply (A []). reflexivity.
Defined.

Lemma refresh_keeps_preview_on_queue_witness :
  preview (store (snd (run acceptingServer (loadQueue (H := samplePlatform)) previewingWorld)))
  = idlePreview
  /\ playerSrc (page (snd (run acceptingServer (loadQueue (H := samplePlatform))
                             previewingWorld))) = "".
Proof.
  assert (acceptingServer (requestsSent previewingWorld) GetQueue = Resolved true [])
    as E by reflexivity.
  destruct (@refresh_keeps_preview_on_queue samplePlatform acceptingServer previewingWorld [] E)
    as (_ & _ & _ & A & _).
  destruct A as (A1 & A2 & _).
  - simpl. discriminate.
  - intros item [].
  - split; [exact A1 | exact A2].
Defined.

Lemma preview_sync_idempotent_witness :
  trace (syncPreviewPlayer (H := samplePlatform) false previewingWorld)
  = trace previewingWorld.
Proof.
  destruct (@preview_sync_idempotent samplePlatform false previewingWorld) as (A & _).
  destruct A as (_ & T); [reflexivity|].
  rewrite T. reflexivity.
Defined.

Lemma add_paths_agree_witness :
  run refusingServer (addBtn_click (H := samplePlatform))
      (with_page (set_urlInput " not a url ") initialWorld)
  = (Done tt,
     render (H := samplePlatform)
       (with_store (set_urlError invalidUrlMessage)
          (with_page (set_urlInput " not a url ") initialWorld))).
Proof.
  destruct (@add_paths_agree samplePlatform refusingServer
              (with_page (set_urlInput " not a url ") initialWorld))
    as (_ & Same & _ & _ & A & _).
  rewrite Same. apply A.
  - simpl. discriminate.
  - reflexivity.
Defined.

Lemma download_requires_directory_witness :
  run acceptingServer downloadAll initialWorld = (Done tt, initialWorld).
Proof.
  destruct (download_requires_directory acceptingServer initialWorld) as (A & _).
  apply A. reflexivity.
Defined.

Lemma mutation_refetch_sequencing_witness :
  exists before after,
    rendersOnly before /\ rendersOnly after
    /\ protocolTrace (snd (run refusingServer
                             (addQueue (H := samplePlatform) "https://youtu.be/abc123")
                             initialWorld))
       = (protocolTrace initialWorld ++ before
            ++ [Requested (PostAddQueue "https://youtu.be/abc123")] ++ after)%list.
Proof.
  destruct (@mutation_refetch_sequencing samplePlatform) as (_ & _ & _ & _ & _ & A & _).
  apply A. exists tt. reflexivity.
Defined.

(** Two [setBusy(false)] with nothing in flight, then one start. *)
Lemma busy_count_never_negative_witness :
  0 <= busyCount (store (applySteps (H := samplePlatform)
                           [Finish; Finish; Begin None] initialWorld)).
Proof.
  assert (idle (store initialWorld)) as I by (repeat split).
  assert (Forall framed [Finish; Finish; Begin None]) as F by (repeat constructor).
  destruct (@busy_count_never_negative samplePlatform initialWorld
              [Finish; Finish; Begin None] I F) as (A & _).
  exact A.
Defined.

(** An add during which the user starts an import that is still pending
    when the add ends. *)
Lemma addQueue_always_cleans_up_witness :
  isAdding (store (snd (runAmong (importBegins (H := samplePlatform)) acceptingServer
                          (addQueue (H := samplePlatform) "https://youtu.be/abc123")
                          initialWorld))) = false
  /\ active (busyStatus (page (snd (runAmong (importBegins (H := samplePlatform))
                                      acceptingServer
                                      (addQueue (H := samplePlatform)
                                         "https://youtu.be/abc123")
                                      initialWorld))))
     = (0 <? busyCount (store (snd (runAmong (importBegins (H := samplePlatform))
                                      acceptingServer
                                      (addQueue (H := samplePlatform)
                                         "https://youtu.be/abc123")
                                      initialWorld)))).
Proof.
  destruct (@addQueue_always_cleans_up samplePlatform (importBegins (H := samplePlatform))
              acceptingServer "https://youtu.be/abc123" initialWorld)
    as (A & _ & B & _).
  split; [exact A|].
  destruct B as (_ & B).
  - apply importBegins_keeps.
  - apply idle_invariant. repeat split.
  - exact B.
Defined.

Lemma importQueue_always_cleans_up_witness :
  idle (store (snd (runAmong quiet unreachableServer
                      (importQueue (H := samplePlatform) "queue.csv") initialWorld))).
Proof.
  destruct (@importQueue_always_cleans_up samplePlatform quiet unreachableServer
              "queue.csv" initialWorld) as (_ & A).
  destruct A as (_ & B).
  - intros n v I. split; [exact I | reflexivity].
  - apply idle_invariant. repeat split.
  - destruct B as (B & _); [repeat split | exact B].
Defined.


Lemma accepted_urls_witness :
  exists u : URL,
    URL_parse (Platform := samplePlatform) "https://youtu.be/abc123" = Some u
    /\ (protocol u = "http:" \/ protocol u = "https:").
Proof.
  assert (isValidYoutubeUrl (H := samplePlatform) "https://youtu.be/abc123" = true)
    as V by reflexivity.
  destruct (@accepted_urls samplePlatform "https://youtu.be/abc123" V) as (u & E & S & _).
  exists u. split; [exact E | exact S].
Defined.

Lemma progressValue_in_range_witness :
  number_ge (Math_min (num 100) (Math_max (num 0) (Finite (426 # 10)))) (num 0) = true
  /\ number_ge (num 100) (Math_min (num 100) (Math_max (num 0) (Finite (426 # 10)))) = true.
Proof.
  assert (progressValue sampleJob
          = Some (Math_min (num 100) (Math_max (num 0) (Finite (426 # 10)))))
    as E by reflexivity.
  destruct (progressValue_in_range sampleJob _ E) as (A & _).
  apply (A (Finite (426 # 10))); [reflexivity | discriminate].
Defined.

(** Submitting a short link while the back end cannot be reached. *)
Lemma submit_when_unreachable_witness :
  fst (runAmong quiet unreachableServer (addBtn_click (H := samplePlatform)) typedWorld)
  = Thrown
  /\ urlInput (page (snd (runAmong quiet unreachableServer
                            (addBtn_click (H := samplePlatform)) typedWorld)))
     = urlInput (page typedWorld).
Proof.
  assert (trim (Platform := samplePlatform) (urlInput (page typedWorld)) <> "") as T
    by (vm_compute; discriminate).
  assert (isValidYoutubeUrl (H := samplePlatform)
            (trim (Platform := samplePlatform) (urlInput (page typedWorld))) = true)
    as V by reflexivity.
  destruct (@submit_when_unreachable samplePlatform quiet unreachableServer typedWorld
              T V eq_refl) as (A & _ & B & _).
  split; [exact A|]. apply B. intros n v. reflexivity.
Defined.

(** The same submission when the back end accepts it. *)
Lemma submit_completed_clears_field_witness :
  urlInput (page (snd (runAmong quiet acceptingServer
                         (addBtn_click (H := samplePlatform)) typedWorld))) = "".
Proof.
  assert (trim (Platform := samplePlatform) (urlInput (page typedWorld)) <> "") as T
    by (vm_compute; discriminate).
  assert (isValidYoutubeUrl (H := samplePlatform)
            (trim (Platform := samplePlatform) (urlInput (page typedWorld))) = true)
    as V by reflexivity.
  assert (fst (runAmong quiet acceptingServer (addBtn_click (H := samplePlatform))
                 typedWorld) = Done tt) as D by (vm_compute; reflexivity).
  destruct (@submit_completed_clears_field samplePlatform quiet acceptingServer typedWorld
              T V D) as (A & _).
  exact A.
Defined.

(** An add during which an import begins: when the add ends the import is
    still in flight, so the counter is at one and the banner shows the
    import's message. *)
Example addQueue_while_import_pending :
  let w' := snd (runAmong (importBegins (H := samplePlatform)) acceptingServer
                   (addQueue (H := samplePlatform) "https://youtu.be/abc123")
                   initialWorld) in
  busyFields (store w')
  = (1, true, "Loading items from file (yt-dlp can take a while)...")
  /\ busyStatus (page w')
     = {| textContent := "Loading items from file (yt-dlp can take a while)...";
          active := true |}
  /\ isAdding (store w') = false.
Proof. vm_compute. repeat split. Qed.

(** A stream path with a space: the getter returns the serialised URL, so
    the second render finds a difference and assigns the source again. *)
Example second_render_assigns_again :
  playerSrc (page (render (H := samplePlatform) spacedWorld))
  = API_BASE ++ "/preview/a%20b"
  /\ trace (render (H := samplePlatform) (render (H := samplePlatform) spacedWorld))
     = (trace (render (H := samplePlatform) spacedWorld)
          ++ [Player (SetSrc (API_BASE ++ "/preview/a b"));
              QueueRendered (queueHtml (H := samplePlatform) (store spacedWorld))])%list.
Proof. vm_compute. split; reflexivity. Qed.

(** A tick of the timer while the user edits a title: the field loses the
    focus. *)
Example tick_takes_focus_from_card :
  activeElement
    (page (snd (run acceptingServer (pollTick (H := samplePlatform))
                  (with_page (set_activeElement InQueueSection) previewingWorld))))
  = Elsewhere.
Proof. vm_compute. reflexivity. Qed.

(** The whole protocol trace of a refused add on a fresh page: two renders
    before the request (from [render] and [setBusy(true)]), the request, two
    renders from the [finally] block. *)
Example addQueue_refused_trace :
  protocolTrace (snd (run refusingServer
                        (addQueue (H := samplePlatform) "https://youtu.be/abc123")
                        initialWorld))
  = [QueueRendered (queueHtml (H := samplePlatform) initialState);
     QueueRendered (queueHtml (H := samplePlatform) initialState);
     Requested (PostAddQueue "https://youtu.be/abc123");
     QueueRendered (queueHtml (H := samplePlatform) initialState);
     QueueRendered (queueHtml (H := samplePlatform) initialState)].
Proof. vm_compute. reflexivity. Qed.

(** The same add when it is accepted. *)
Example addQueue_accepted_trace :
  protocolTrace (snd (run acceptingServer
                        (addQueue (H := samplePlatform) "https://youtu.be/abc123")
                        initialWorld))
  = [QueueRendered (queueHtml (H := samplePlatform) initialState);
     QueueRendered (queueHtml (H := samplePlatform) initialState);
     Requested (PostAddQueue "https://youtu.be/abc123");
     Requested GetQueue;
     QueueRendered (queueHtml (H := samplePlatform) initialState);
     QueueRendered (queueHtml (H := samplePlatform) initialState);
     QueueRendered (queueHtml (H := samplePlatform) initialState)].
Proof. vm_compute. reflexivity. Qed.

(** A refused delete is followed by the refetch all the same. *)
Example deleteItem_refused_trace :
  trace (snd (run refusingServer (deleteItem (H := samplePlatform) "a1") initialWorld))
  = [Requested (DeleteQueueItem "a1"); Requested GetQueue;
     QueueRendered (queueHtml (H := samplePlatform) initialState)].
Proof. vm_compute. reflexivity. Qed.

(** The busy fields along two overlapping operations. *)
Example overlapping_busy_fields :
  map (fun k => busyFields (store (applySteps (H := samplePlatform)
                  (firstn k (overlapping [Some "Fetching video info..."; None]))
                  initialWorld)))
      [0; 1; 2; 3; 4]%nat
  = [(0, false, ""); (1, true, "Fetching video info...");
     (2, true, "Fetching video info..."); (1, true, "Fetching video info...");
     (0, false, "")].
Proof. vm_compute. reflexivity. Qed.

(** The card of [sampleJob]: a fill of 42.6 percent and the label "43%". *)
Example sampleJob_badge :
  badgeContent (H := samplePlatform) sampleJob
  = "<span " ++ attr "class" "badge-fill" ++ " " ++ attr "style" "width: 42.6%"
      ++ "></span><span " ++ attr "class" "badge-text" ++ ">43%</span>".
Proof. vm_compute. reflexivity. Qed.

(** C8 as stated fails: a WORKING item whose progress is absent is
    rendered without a fill element. *)
Lemma working_without_progress_has_no_fill :
  ~ everyWorkingItemHasFill (H := samplePlatform).
Proof.
  intros C.
  destruct (C (with_store (set_queue [startingJob]) initialWorld) startingJob)
    as (width & Cn).
  - left. reflexivity.
  - reflexivity.
  - assert (includes "badge-fill"
              (queueSection (page (renderQueue (H := samplePlatform)
                                     (with_store (set_queue [startingJob]) initialWorld))))
            = false) as None by (vm_compute; reflexivity).
    assert (includes "badge-fill"
              (queueSection (page (renderQueue (H := samplePlatform)
                                     (with_store (set_queue [startingJob]) initialWorld))))
            = true) as Some.
    { apply contains_includes. eapply contains_trans; [|exact Cn].
      apply fillSpan_names_class. }
    congruence.
Qed.

(** C2 as stated fails: when the add request is refused, [addQueue] issues
    no queue refetch. *)
Lemma addQueue_refused_skips_refetch :
  ~ refetchesAfter (H := samplePlatform)
      (addQueue (H := samplePlatform) "https://youtu.be/abc123")
      (PostAddQueue "https://youtu.be/abc123").
Proof.
  intros C.
  destruct (C refusingServer initialWorld false false) as (before & html & after & E).
  - exists tt. reflexivity.
  - exists []. reflexivity.
  - assert (answered refusingServer (requestsSent initialWorld)
              (PostAddQueue "https://youtu.be/abc123") false) as A
      by (exists tt; reflexivity).
    destruct (@addQueue_refused_protocol samplePlatform refusingServer
                "https://youtu.be/abc123" initialWorld A) as (b & a & Rb & Ra & T).
    assert (In (Requested GetQueue)
              (protocolTrace initialWorld ++ b
                 ++ [Requested (PostAddQueue "https://youtu.be/abc123")] ++ a)%list) as I.
    { rewrite <- T, E. apply in_or_app. right. apply in_or_app. right. simpl. auto. }
    apply in_app_or in I. destruct I as [I | I]; [exact I|].
    apply in_app_or in I. destruct I as [I | I];
      [exact (@rendersOnly_no_request b GetQueue Rb I)|].
    destruct I as [I | I]; [discriminate I|].
    exact (@rendersOnly_no_request a GetQueue Ra I).
Qed.
